(** * Smart Timetable Optimizer: the scheduling engine

    A shallow embedding of [tools/solver_runner.py] (matcher, exact-solver
    model, greedy fallback, orchestrator) and of the validator and the
    local-improvement pass of [UI/teacher_dashboard.py], followed by the
    properties of the engine.

    Conventions of the embedding.
    - Python [str] values are [string]s of bytes; the string methods are
      modelled on their ASCII behaviour (bytes above 127 are neither
      whitespace, nor letters, nor digits).
    - A missing or [None] text field of a course or constraint is the empty
      string: the source only reads such fields through [x.get(k) or d].
    - Python [int]s are [Z]; list positions are [nat].
    - A [dict] is an association list in insertion order with unique keys.
    - An exception caught by a [try]/[except] of the source is an [option]
      whose [None] the handler turns into its fallback value. *)

From Stdlib Require Import ZArith Lia Ascii DecimalString.
From stdpp Require Import base list strings sorting.

Local Open Scope Z_scope.

(** ** Python string methods *)

Module PyStr.

Definition is_space (c : ascii) : bool :=
  let n := nat_of_ascii c in
  (((9 <=? n) && (n <=? 13)) || ((28 <=? n) && (n <=? 32)))%nat.

Definition is_upper (c : ascii) : bool :=
  let n := nat_of_ascii c in ((65 <=? n) && (n <=? 90))%nat.

Definition is_lower (c : ascii) : bool :=
  let n := nat_of_ascii c in ((97 <=? n) && (n <=? 122))%nat.

Definition lower_char (c : ascii) : ascii :=
  if is_upper c then ascii_of_nat (nat_of_ascii c + 32) else c.

Definition upper_char (c : ascii) : ascii :=
  if is_lower c then ascii_of_nat (nat_of_ascii c - 32) else c.

Fixpoint map_chars (f : ascii -> ascii) (s : string) : string :=
  match s with
  | EmptyString => EmptyString
  | String c s' => String (f c) (map_chars f s')
  end.

(** [s.lower()], [s.upper()] *)
Definition lower : string -> string := map_chars lower_char.
Definition upper : string -> string := map_chars upper_char.

(** [s.capitalize()] *)
Definition capitalize (s : string) : string :=
  match s with
  | EmptyString => EmptyString
  | String c s' => String (upper_char c) (lower s')
  end.

(** [s.title()]: a letter is upper-cased after a non-letter and
    lower-cased after a letter. *)
Fixpoint title_go (after_letter : bool) (s : string) : string :=
  match s with
  | EmptyString => EmptyString
  | String c s' =>
      let letter := is_upper c || is_lower c in
      String (if after_letter then lower_char c else upper_char c)
             (title_go letter s')
  end.
Definition title : string -> string := title_go false.

Fixpoint snoc (s : string) (c : ascii) : string :=
  match s with
  | EmptyString => String c EmptyString
  | String a s' => String a (snoc s' c)
  end.

Fixpoint rev (s : string) : string :=
  match s with
  | EmptyString => EmptyString
  | String c s' => snoc (rev s') c
  end.

Fixpoint lstrip (s : string) : string :=
  match s with
  | EmptyString => EmptyString
  | String c s' => if is_space c then lstrip s' else s
  end.

Definition rstrip (s : string) : string := rev (lstrip (rev s)).

(** [s.strip()] *)
Definition strip (s : string) : string := rstrip (lstrip s).

(** [s.split()]: the maximal runs of non-whitespace characters. *)
Fixpoint split_go (cur : option string) (s : string) : list string :=
  match s with
  | EmptyString => match cur with Some w => [w] | None => [] end
  | String c s' =>
      if is_space c then
        match cur with
        | Some w => w :: split_go None s'
        | None => split_go None s'
        end
      else
        split_go (Some (snoc (default EmptyString cur) c)) s'
  end.
Definition split : string -> list string := split_go None.

(** [sep.join(l)] *)
Fixpoint join (sep : string) (l : list string) : string :=
  match l with
  | [] => EmptyString
  | [w] => w
  | w :: l' => w +:+ sep +:+ join sep l'
  end.

(** [sub in s] *)
Fixpoint contains (sub s : string) : bool :=
  String.prefix sub s ||
  match s with
  | EmptyString => false
  | String _ s' => contains sub s'
  end.

(** [s.startswith(p)], [s.endswith(p)] *)
Definition startswith (s p : string) : bool := String.prefix p s.
Definition endswith (s p : string) : bool := String.prefix (rev p) (rev s).

(** [s.replace(a, b)] for one-character [a] and [b], and [s.replace(a, "")]. *)
Definition replace_char (a b : ascii) : string -> string :=
  map_chars (fun c => if Ascii.eqb c a then b else c).

Fixpoint remove_char (a : ascii) (s : string) : string :=
  match s with
  | EmptyString => EmptyString
  | String c s' =>
      if Ascii.eqb c a then remove_char a s' else String c (remove_char a s')
  end.

(** [s.lstrip(a)] for a one-character [a]. *)
Fixpoint lstrip_char (a : ascii) (s : string) : string :=
  match s with
  | EmptyString => EmptyString
  | String c s' => if Ascii.eqb c a then lstrip_char a s' else s
  end.

(** [s.split(a, 1)] when [a in s]: the text before and after the first
    occurrence of the character [a]; [None] when [a] does not occur. *)
Fixpoint split_once (a : ascii) (s : string) : option (string * string) :=
  match s with
  | EmptyString => None
  | String c s' =>
      if Ascii.eqb c a then Some (EmptyString, s')
      else match split_once a s' with
           | Some (x, y) => Some (String c x, y)
           | None => None
           end
  end.

(** [s.split(sep)[0]]: the text before the first occurrence of [sep]
    (all of [s] when there is none), for a non-empty [sep]. *)
Fixpoint before (sep s : string) : string :=
  match s with
  | EmptyString => EmptyString
  | String c s' =>
      if String.prefix sep s then EmptyString else String c (before sep s')
  end.

Definition digit_val (c : ascii) : option Z :=
  let n := nat_of_ascii c in
  if ((48 <=? n) && (n <=? 57))%nat then Some (Z.of_nat n - 48) else None.

(** The digits of a decimal literal, single underscores allowed between
    digits. *)
Fixpoint digits_go (after_digit : bool) (acc : Z) (s : string) : option Z :=
  match s with
  | EmptyString => if after_digit then Some acc else None
  | String c s' =>
      match digit_val c with
      | Some d => digits_go true (10 * acc + d) s'
      | None =>
          if Ascii.eqb c "_"%char && after_digit then digits_go false acc s'
          else None
      end
  end.

(** The whitespace [int] skips at both ends of an ASCII string: C's
    [isspace]. The separators 28-31 are whitespace for [str.strip] and
    [str.split], not for [int]. *)
Definition is_c_space (c : ascii) : bool :=
  let n := nat_of_ascii c in
  (((9 <=? n) && (n <=? 13)) || (n =? 32))%nat.

Fixpoint lstrip_by (sp : ascii -> bool) (s : string) : string :=
  match s with
  | EmptyString => EmptyString
  | String c s' => if sp c then lstrip_by sp s' else s
  end.

Definition strip_by (sp : ascii -> bool) (s : string) : string :=
  rev (lstrip_by sp (rev (lstrip_by sp s))).

(** [int(s)] on an ASCII string; [None] stands for [ValueError]. The digits
    are the ASCII digits, and the interpreter's limit on the number of digits
    of a decimal text (4300 by default) is left out. *)
Definition int (s : string) : option Z :=
  match strip_by is_c_space s with
  | String "+"%char r => digits_go false 0 r
  | String "-"%char r => Z.opp <$> digits_go false 0 r
  | t => digits_go false 0 t
  end.

(** [str(n)] for an [int]. *)
Definition of_int (n : Z) : string := NilZero.string_of_int (Z.to_int n).

(** Truthiness of a string. *)
Definition nonempty (s : string) : bool :=
  match s with EmptyString => false | _ => true end.

(** [a or b] on strings. *)
Definition or_else (a b : string) : string := if nonempty a then a else b.

End PyStr.

(** ** Dictionaries

    A Python [dict] keeps its keys in insertion order; assigning to a key
    that is present replaces the value in place. *)

Section Dict.
Context {K V : Type} `{EqDecision K}.

Fixpoint dict_get (m : list (K * V)) (k : K) : option V :=
  match m with
  | [] => None
  | (k', v) :: m' => if decide (k' = k) then Some v else dict_get m' k
  end.

Fixpoint dict_set (m : list (K * V)) (k : K) (v : V) : list (K * V) :=
  match m with
  | [] => [(k, v)]
  | (k', v') :: m' =>
      if decide (k' = k) then (k, v) :: m' else (k', v') :: dict_set m' k v
  end.

Definition dict_keys (m : list (K * V)) : list K := m.*1.
End Dict.

(** ** The request *)

Record Course := {
  id : option Z;
  course_name : string;
  course_code : string;
  credits : Z;
  section : string;
  teacher_id : option Z
}.

Record Constraint := {
  cons_course_name : string;
  cons_section : string;
  cons_day : string;
  cons_period_range : string;
  cons_periods : string;   (* the alternative key "periods" *)
  cons_type : string;
  cons_mode : string
}.

(** A grid: day name to row of cells. *)
Definition Grid := list (string * list string).

Definition DAYS : list string :=
  ["Monday"; "Tuesday"; "Wednesday"; "Thursday"; "Friday"].

Definition LUNCH : string := "LUNCH".

(** [range(s, e + 1)] *)
Definition zrange (s e : Z) : list Z :=
  (fun i => s + Z.of_nat i) <$> seq 0 (Z.to_nat (e + 1 - s)).

(** ** tools/solver_runner.py *)

Definition _normalize_text (s : string) : string :=
  PyStr.lower (PyStr.strip (PyStr.join " " (PyStr.split s))).

Definition _parse_period_token (token : string) : Z * Z :=
  let token := PyStr.upper (PyStr.strip token) in
  if negb (PyStr.nonempty token) then (0, 0)
  else
    match PyStr.split_once "-" token with
    | Some (a, b) =>
        match PyStr.int (PyStr.remove_char "P" a),
              PyStr.int (PyStr.remove_char "P" b) with
        | Some s, Some e => (s - 1, e - 1)
        | _, _ => (0, 0)
        end
    | None =>
        match PyStr.int (PyStr.remove_char "P" token) with
        | Some i => (i - 1, i - 1)
        | None => (0, 0)
        end
    end.

Module Matcher.

Definition csec (cons : Constraint) : string :=
  PyStr.strip (PyStr.or_else (cons_section cons) "ALL").

Definition target (cons : Constraint) : string :=
  _normalize_text (PyStr.strip (cons_course_name cons)).

(** The section filter: the negation of the test guarding [continue]. *)
Definition section_ok (cons : Constraint) (c : Course) : bool :=
  let c_section := PyStr.strip (PyStr.or_else (section c) "ALL") in
  negb (negb (String.eqb (PyStr.upper (csec cons)) "ALL")
        && negb (String.eqb c_section (csec cons))).

Definition name (c : Course) : string := _normalize_text (course_name c).
Definition code (c : Course) : string := _normalize_text (course_code c).

Definition exact_match (cons : Constraint) (c : Course) : bool :=
  String.eqb (name c) (target cons) || String.eqb (code c) (target cons).

Definition target_tokens (cons : Constraint) : list string :=
  filter (fun t => PyStr.nonempty t = true)
    (PyStr.split (PyStr.replace_char "-" " "
                    (PyStr.replace_char "/" " " (target cons)))).

Definition token_match (cons : Constraint) (c : Course) : bool :=
  existsb (fun tk =>
             PyStr.nonempty tk
             && (PyStr.contains tk (name c) || PyStr.contains tk (code c)
                 || PyStr.contains (name c) tk || PyStr.contains (code c) tk))
          (target_tokens cons).

Definition affix_match (cons : Constraint) (c : Course) : bool :=
  PyStr.startswith (name c) (target cons)
  || PyStr.endswith (name c) (target cons)
  || PyStr.startswith (code c) (target cons)
  || PyStr.endswith (code c) (target cons).

Definition select (test : Course -> bool) (cid_to_course : list (Z * Course))
  : list Z :=
  (filter (fun kc => test kc.2 = true) cid_to_course).*1.

(** 1) direct exact matches: the name/code test comes first, the section
    test inside it. *)
Definition tier1 (cons : Constraint) :=
  select (fun c => exact_match cons c && section_ok cons c).
(** 2) tolerant substring/token matching *)
Definition tier2 (cons : Constraint) :=
  select (fun c => section_ok cons c && token_match cons c).
(** 3) relaxed: prefix/suffix *)
Definition tier3 (cons : Constraint) :=
  select (fun c => section_ok cons c && affix_match cons c).

End Matcher.

Definition _match_constraint_to_cids
    (constraint : Constraint) (cid_to_course : list (Z * Course)) : list Z :=
  if negb (PyStr.nonempty (Matcher.target constraint)) then []
  else
    let matches := Matcher.tier1 constraint cid_to_course in
    if negb (bool_decide (matches = [])) then matches
    else
      let matches := Matcher.tier2 constraint cid_to_course in
      if negb (bool_decide (matches = [])) then matches
      else
        let matches := Matcher.tier3 constraint cid_to_course in
        if negb (bool_decide (matches = [])) then matches
        else [].

(** The loop shared by both solvers: courses without an [id] get the
    synthetic ids -1, -2, ...; [cid_list] keeps every id in input order,
    [cid_to_course] is the dict. *)
Record CourseIndex := {
  cid_list : list Z;
  cid_to_course : list (Z * Course);
  next_synthetic : Z
}.

Definition index_step (st : CourseIndex) (c : Course) : CourseIndex :=
  let '(cid, next) :=
    match id c with
    | Some cid => (cid, next_synthetic st)
    | None => (next_synthetic st, next_synthetic st - 1)
    end in
  {| cid_list := cid_list st ++ [cid];
     cid_to_course := dict_set (cid_to_course st) cid c;
     next_synthetic := next |}.

Definition index_courses (courses : list Course) : CourseIndex :=
  foldl index_step
    {| cid_list := []; cid_to_course := []; next_synthetic := -1 |} courses.

Definition lunch_idx_of (P lunch : Z) : option Z :=
  if negb (lunch =? 0) && (1 <=? lunch) && (lunch <=? P) then Some (lunch - 1)
  else None.

(** [[p for p in range(s, e + 1) if 0 <= p < P and
      (lunch_idx is None or p != lunch_idx)]] *)
Definition period_indices (P : Z) (lunch_idx : option Z) (s e : Z) : list Z :=
  filter (fun p => 0 <= p < P /\ lunch_idx <> Some p) (zrange s e).

Definition mkCourse (i : Z) (n : string) (cr : Z) (sec : string) : Course :=
  {| id := Some i; course_name := n; course_code := ""; credits := cr;
     section := sec; teacher_id := None |}.

Definition mkCons (n day pr ty : string) : Constraint :=
  {| cons_course_name := n; cons_section := ""; cons_day := day;
     cons_period_range := pr; cons_periods := ""; cons_type := ty;
     cons_mode := "" |}.

(** ** Grids as the solvers use them *)

(** [{d: [""] * P for d in DAYS}] *)
Definition empty_grid (P : Z) : Grid :=
  (fun d => (d, replicate (Z.to_nat P) "")) <$> DAYS.

(** [grid[day][p]] *)
Definition grid_get (g : Grid) (day : string) (p : nat) : option string :=
  dict_get g day ≫= (.!! p).

(** [grid[day][p] = v]: the row stored under [day] is updated in place. Every
    write of the solvers is in range (see [period_indices_bound]). *)
Definition grid_set (g : Grid) (day : string) (p : nat) (v : string) : Grid :=
  (fun dr => if decide (dr.1 = day) then (dr.1, <[p := v]> dr.2) else dr) <$> g.

(** Truthiness of [grid[day][p]]. *)
Definition cell_empty (g : Grid) (day : string) (p : nat) : bool :=
  bool_decide (grid_get g day p = Some "").

(** [DAYS.index(day)] *)
Fixpoint index_of (day : string) (l : list string) : option nat :=
  match l with
  | [] => None
  | d :: l' => if decide (d = day) then Some 0%nat else S <$> index_of day l'
  end.

(** [range(P)] *)
Definition periods_range (P : Z) : list Z := zrange 0 (P - 1).

(** [range(len(DAYS))] *)
Definition day_range : list nat := seq 0 (length DAYS).

(** ** The exact-solver model of [run_ortools_solver] *)

Module CpModel.

(** The key of [x]: course id, day index, period. *)
Definition Var : Type := Z * nat * Z.

Inductive Rel := Ge | Le | Eq.

(** [model.Add(sum(x[v] for v in lin_vars) REL lin_rhs)] *)
Record Lin := { lin_vars : list Var; lin_rel : Rel; lin_rhs : Z }.

Record Model := {
  keys : list Var;               (* the keys of [x] *)
  rules : list Lin;              (* the constraints added, in order *)
  objective : option (list Var)  (* [Maximize(sum(x.values()))] *)
}.

Definition Assignment : Type := Var -> bool.

Definition lin_sum (a : Assignment) (vs : list Var) : Z :=
  foldr (fun v acc => (if a v then 1 else 0) + acc) 0 vs.

Definition holds (a : Assignment) (c : Lin) : bool :=
  match lin_rel c with
  | Ge => lin_rhs c <=? lin_sum a (lin_vars c)
  | Le => lin_sum a (lin_vars c) <=? lin_rhs c
  | Eq => lin_sum a (lin_vars c) =? lin_rhs c
  end.

Definition sat (a : Assignment) (m : Model) : bool :=
  forallb (holds a) (rules m).

(** [defaultdict(list)]: append [v] to the list under [k]. *)
Fixpoint group_add {K} `{EqDecision K} (m : list (K * list Z)) (k : K) (v : Z)
  : list (K * list Z) :=
  match m with
  | [] => [(k, [v])]
  | (k', vs) :: m' =>
      if decide (k' = k) then (k', vs ++ [v]) :: m'
      else (k', vs) :: group_add m' k v
  end.

Definition group_by {K} `{EqDecision K} (key : Course -> K)
    (cid_to_course : list (Z * Course)) : list (K * list Z) :=
  foldl (fun m kc => group_add m (key kc.2) kc.1) [] cid_to_course.

Section Build.
Variables (idx : CourseIndex) (P : Z) (lunch_idx : option Z).

(** at least 1 slot per course *)
Definition min_occurrence : list Lin :=
  (fun cid =>
     {| lin_vars := d ← day_range; p ← periods_range P; [(cid, d, p)];
        lin_rel := Ge; lin_rhs := 1 |}) <$> cid_list idx.

(** at most one slot per course per day *)
Definition daily_unique_rule (cid : Z) (d : nat) : Lin :=
  {| lin_vars := (fun p => (cid, d, p)) <$> periods_range P;
     lin_rel := Le; lin_rhs := 1 |}.

Definition daily_unique : list Lin :=
  cid ← cid_list idx; d ← day_range; [daily_unique_rule cid d].

Definition conflict_rules (cids : list Z) : list Lin :=
  d ← day_range; p ← periods_range P;
  [{| lin_vars := (fun cid => (cid, d, p)) <$> cids;
      lin_rel := Le; lin_rhs := 1 |}].

Definition teacher_conflicts : list Lin :=
  tc ← group_by teacher_id (cid_to_course idx);
  match tc.1 with
  | None => []
  | Some _ => conflict_rules tc.2
  end.

Definition section_conflicts : list Lin :=
  sc ← group_by (fun c => PyStr.or_else (section c) "A") (cid_to_course idx);
  conflict_rules sc.2.

Definition lunch_block : list Lin :=
  match lunch_idx with
  | None => []
  | Some l =>
      cid ← cid_list idx; d ← day_range;
      [{| lin_vars := [(cid, d, l)]; lin_rel := Eq; lin_rhs := 0 |}]
  end.

Definition enforce_exact (cons : Constraint) : bool :=
  let ctype := PyStr.lower (PyStr.strip (PyStr.or_else (cons_type cons) "Hard")) in
  String.eqb ctype "exact"
  || (PyStr.nonempty (cons_mode cons)
      && PyStr.contains "exact" (PyStr.lower (cons_mode cons))).

(** The day index of a constraint: [capitalize()] first, then [title()]. *)
Definition cons_didx (cons : Constraint) : option nat :=
  let day_raw := PyStr.strip (cons_day cons) in
  let day := PyStr.capitalize (PyStr.strip day_raw) in
  if bool_decide (day ∈ DAYS) then index_of day DAYS
  else
    let day := PyStr.title (PyStr.strip day_raw) in
    if bool_decide (day ∈ DAYS) then index_of day DAYS else None.

Definition cons_pr (cons : Constraint) : string :=
  PyStr.strip (PyStr.or_else (cons_period_range cons)
                 (PyStr.or_else (cons_periods cons) "")).

(** [s, e] after [s = max(0, s)] and [e = min(P - 1, e)]. *)
Definition cons_range (cons : Constraint) : Z * Z :=
  let '(s, e) := _parse_period_token (cons_pr cons) in
  (Z.max 0 s, Z.min (P - 1) e).

(** The allowed period indices of a constraint: its range without the
    lunch index. *)
Definition cons_indices (cons : Constraint) : list Z :=
  period_indices P lunch_idx (cons_range cons).1 (cons_range cons).2.

(** The rule one iteration of the constraint loop adds; [None] for an
    iteration left through [continue]. *)
Definition cons_rule (cons : Constraint) : option Lin :=
  if negb (PyStr.nonempty (cons_course_name cons)) then None
  else if negb (PyStr.nonempty (PyStr.strip (cons_day cons)))
          || negb (PyStr.nonempty (cons_pr cons)) then None
  else
    match cons_didx cons with
    | None => None
    | Some didx =>
        let '(s, e) := cons_range cons in
        if e <? s then None
        else
          let matching_cids :=
            _match_constraint_to_cids cons (cid_to_course idx) in
          if bool_decide (matching_cids = []) then None
          else
            let pis := cons_indices cons in
            if bool_decide (pis = []) then None
            else
              let vars := cid ← matching_cids; p ← pis; [(cid, didx, p)] in
              if enforce_exact cons then
                Some {| lin_vars := vars; lin_rel := Ge;
                        lin_rhs := Z.of_nat (length pis) |}
              else
                Some {| lin_vars := vars; lin_rel := Ge; lin_rhs := 1 |}
    end.

Definition constraint_rules (constraints : list Constraint) : list Lin :=
  omap cons_rule constraints.

Definition x_keys : list Var :=
  cid ← dict_keys (cid_to_course idx); d ← day_range; p ← periods_range P;
  [(cid, d, p)].

Definition build (constraints : list Constraint) : Model :=
  {| keys := x_keys;
     rules := min_occurrence ++ daily_unique ++ teacher_conflicts
              ++ section_conflicts ++ lunch_block
              ++ constraint_rules constraints;
     objective := if bool_decide (x_keys = []) then None else Some x_keys |}.

(** The label written for a course id when decoding. *)
Definition decode_label (cid : Z) : string :=
  match dict_get (cid_to_course idx) cid with
  | Some c =>
      PyStr.strip (PyStr.or_else (course_name c)
                     (PyStr.or_else (course_code c) ""))
  | None => ""   (* unreachable: see [index_courses_get] *)
  end.

Definition decode_cell (a : Assignment) (d : nat) (p : Z) : string :=
  if bool_decide (lunch_idx = Some p) then LUNCH
  else
    match find (fun cid => a (cid, d, p)) (cid_list idx) with
    | Some cid => decode_label cid
    | None => ""
    end.

(** The decoding loops: day by day, period by period. *)
Definition decode (a : Assignment) : Grid :=
  foldl (fun g dday =>
           foldl (fun g p =>
                    grid_set g dday.2 (Z.to_nat p) (decode_cell a dday.1 p))
                 g (periods_range P))
        (empty_grid P) (imap (fun d day => (d, day)) DAYS).
End Build.

End CpModel.

(** ** Randomness

    [random.shuffle] is the Fisher-Yates loop of CPython,
    [for i in reversed(range(1, len(x))): j = randbelow(i + 1); swap x[i], x[j]].
    The generator is seeded from the clock, so the results of [randbelow] are
    arbitrary: the [k]-th call [randbelow(n)] yields [draw k mod n] for an
    arbitrary stream [draw]. *)

(** [x[i], x[j] = x[j], x[i]] *)
Definition list_swap {A} (x : list A) (i j : nat) : list A :=
  match x !! i, x !! j with
  | Some xi, Some xj => <[j := xi]> (<[i := xj]> x)
  | _, _ => x
  end.

Fixpoint shuffle_go {A} (draw : nat -> nat) (k i : nat) (x : list A) : list A :=
  match i with
  | O => x
  | S i' => shuffle_go draw (S k) i' (list_swap x i (draw k mod (i + 1))%nat)
  end.

Definition shuffle {A} (draw : nat -> nat) (x : list A) : list A :=
  shuffle_go draw 0 (length x - 1) x.

(** ** The greedy fallback solver *)

Module Greedy.
Section Place.
Variables (idx : CourseIndex) (P : Z) (lunch_idx : option Z).

(** [for p in pis: if grid[day][p] == "": grid[day][p] = label; break];
    [None] when the loop ends with [placed] still false. *)
Fixpoint place_first (g : Grid) (day : string) (pis : list Z) (label : string)
  : option Grid :=
  match pis with
  | [] => None
  | p :: pis' =>
      if cell_empty g day (Z.to_nat p)
      then Some (grid_set g day (Z.to_nat p) label)
      else place_first g day pis' label
  end.

(** [for p in pis: if grid[day][p] == "": grid[day][p] = label] *)
Definition fill_empty (g : Grid) (day : string) (pis : list Z) (label : string)
  : Grid :=
  foldl (fun g p =>
           if cell_empty g day (Z.to_nat p)
           then grid_set g day (Z.to_nat p) label else g)
        g pis.

(** The forced write into the first allowed slot. *)
Definition force_first (g : Grid) (day : string) (pis : list Z) (label : string)
  : Grid :=
  match pis with
  | [] => g
  | p :: _ => grid_set g day (Z.to_nat p) label
  end.

Definition place_one (g : Grid) (day : string) (pis : list Z) (label : string)
  : Grid :=
  match place_first g day pis label with
  | Some g' => g'
  | None => force_first g day pis label
  end.

Definition cons_day_name (cons : Constraint) : string :=
  PyStr.capitalize (PyStr.strip (cons_day cons)).

Definition cons_pr (cons : Constraint) : string :=
  PyStr.or_else (cons_period_range cons) (PyStr.or_else (cons_periods cons) "").

Definition cons_ctype (cons : Constraint) : string :=
  PyStr.lower (PyStr.strip (PyStr.or_else (cons_type cons) "Hard")).

(** The allowed period indices of a constraint, after clamping. *)
Definition cons_indices (cons : Constraint) : list Z :=
  let '(s, e) := _parse_period_token (cons_pr cons) in
  let s := if s <? 0 then 0 else s in
  let e := if P <=? e then P - 1 else e in
  period_indices P lunch_idx s e.

(** The label of the representative course. *)
Definition rep_label (rep_cid : Z) : string :=
  match dict_get (cid_to_course idx) rep_cid with
  | Some c =>
      PyStr.or_else (course_name c)
        (PyStr.or_else (course_code c) ("C" +:+ PyStr.of_int rep_cid))
  | None => ""   (* unreachable: the matcher returns keys of the dict *)
  end.

(** One iteration of the constraint loop. *)
Definition place_constraint (g : Grid) (cons : Constraint) : Grid :=
  let day := cons_day_name cons in
  if negb (PyStr.nonempty day) || negb (PyStr.nonempty (cons_pr cons)) then g
  else if negb (bool_decide (day ∈ DAYS)) then g
  else
    let pis := cons_indices cons in
    if bool_decide (pis = []) then g
    else
      match _match_constraint_to_cids cons (cid_to_course idx) with
      | [] => place_one g day pis (PyStr.or_else (cons_course_name cons) "")
      | rep_cid :: _ =>
          let label := rep_label rep_cid in
          if String.eqb (cons_ctype cons) "exact"
          then fill_empty g day pis label
          else place_one g day pis label
      end.

Definition place_constraints (g : Grid) (constraints : list Constraint) : Grid :=
  foldl place_constraint g constraints.

(** [c.get("course_name") or c.get("course_code") or f"C{c.get('id')}"] *)
Definition filler_label (c : Course) : string :=
  PyStr.or_else (course_name c)
    (PyStr.or_else (course_code c)
       ("C" +:+ match id c with Some i => PyStr.of_int i | None => "None" end)).

Definition filler_labels (courses : list Course) : list string :=
  match filler_label <$> courses with
  | [] => ["Free"]
  | labels => labels
  end.

(** The body of the filling loops at cell [(p, d)]; the state is the grid
    and the running index [idx]. *)
Definition fill_cell (shuffled : list string) (st : Grid * nat) (pd : Z * string)
  : Grid * nat :=
  let '(g, i) := st in
  let '(p, d) := pd in
  if bool_decide (lunch_idx = Some p) then (grid_set g d (Z.to_nat p) LUNCH, i)
  else if cell_empty g d (Z.to_nat p) then
    (grid_set g d (Z.to_nat p)
       (default "" (shuffled !! (i mod length shuffled)%nat)), S i)
  else (g, i).

Definition fill_rest (shuffled : list string) (g : Grid) : Grid :=
  (foldl (fill_cell shuffled) (g, 0%nat)
     (p ← periods_range P; d ← DAYS; [(p, d)])).1.
End Place.
End Greedy.

Definition greedy_csp_solver (draw : nat -> nat)
    (courses : list Course) (constraints : list Constraint) (P lunch : Z) : Grid :=
  let idx := index_courses courses in
  let lunch_idx := lunch_idx_of P lunch in
  let grid := Greedy.place_constraints idx P lunch_idx (empty_grid P) constraints in
  let shuffled := shuffle draw (Greedy.filler_labels courses) in
  Greedy.fill_rest P lunch_idx shuffled grid.

(** ** The exact solver and the orchestrator

    [solver.Solve(model)] is external: [cp_solve time_limit model] is
    [Some a] when the status is OPTIMAL or FEASIBLE, with [a] the values
    [solver.Value] reports, and [None] for every other status. *)

Section Orchestrator.
Context {Seconds : Type}.
Variable ORTOOLS_AVAILABLE : bool.
Variable cp_solve : Seconds -> CpModel.Model -> option CpModel.Assignment.
Variable draw : nat -> nat.

Definition run_ortools_solver
    (courses : list Course) (constraints : list Constraint) (P lunch : Z)
    (time_limit : Seconds) : option Grid :=
  if negb ORTOOLS_AVAILABLE then None
  else
    let idx := index_courses courses in
    let lunch_idx := lunch_idx_of P lunch in
    let model := CpModel.build idx P lunch_idx constraints in
    match cp_solve time_limit model with
    | Some a => Some (CpModel.decode idx P lunch_idx a)
    | None => None
    end.

Record Payload := {
  pl_courses : list Course;
  pl_constraints : list Constraint;
  pl_periods : Z;
  pl_lunch : Z;
  pl_time_limit : Seconds
}.

Definition run_solver (payload : Payload) : Grid :=
  let grid :=
    if ORTOOLS_AVAILABLE then
      run_ortools_solver (pl_courses payload) (pl_constraints payload)
        (pl_periods payload) (pl_lunch payload) (pl_time_limit payload)
    else None in
  match grid with
  | Some g => if bool_decide (g = []) then
                greedy_csp_solver draw (pl_courses payload)
                  (pl_constraints payload) (pl_periods payload) (pl_lunch payload)
              else g
  | None => greedy_csp_solver draw (pl_courses payload) (pl_constraints payload)
              (pl_periods payload) (pl_lunch payload)
  end.
End Orchestrator.

Definition courses_ex : list Course :=
  [mkCourse 1 "Math" 2 "A"; mkCourse 2 "English" 1 "A"].
Definition cons_ex : list Constraint := [mkCons "Math" "Monday" "P1-P2" "Exact"].

(** ** UI/teacher_dashboard.py: validator, diversity score, local improvement

    [UI/admin_dashboard.py] has the same [_parse_period_range] and the same
    [_validate_grid_constraints], up to the DAO call that loads the
    constraints. *)

Module Dashboard.

Definition _parse_period_range (pr : string) : list Z :=
  let pr := PyStr.upper (PyStr.strip pr) in
  match PyStr.split_once "-" pr with
  | Some (a, b) =>
      match PyStr.int (PyStr.lstrip_char "P" (PyStr.strip a)),
            PyStr.int (PyStr.lstrip_char "P" (PyStr.strip b)) with
      | Some start, Some end_ =>
          if end_ <? start then zrange end_ start else zrange start end_
      | _, _ => []
      end
  | None =>
      match PyStr.int (PyStr.lstrip_char "P" pr) with
      | Some i => [i]
      | None => []
      end
  end.

(** A violation message, by its parts instead of its formatted text. *)
Inductive Msg :=
| DayMissing (course_name day pr : string)
| Violated (course_name day pr : string) (present : list string).

(** [{str(d).strip().capitalize(): row for d, row in grid.items()}] *)
Definition grid_norm (grid : Grid) : Grid :=
  foldl (fun m dr => dict_set m (PyStr.capitalize (PyStr.strip dr.1)) dr.2)
        [] grid.

(** The cell at the 1-based period [p] of [row], when [0 <= p - 1 < len(row)]. *)
Definition cell_at (row : list string) (p : Z) : option string :=
  if (0 <=? p - 1) && (p - 1 <? Z.of_nat (length row))
  then row !! Z.to_nat (p - 1) else None.

(** The tolerant comparison of a cell with the normalized course text. *)
Definition cell_matches (target cell : string) : bool :=
  PyStr.nonempty cell
  && let subj := PyStr.strip (PyStr.before " - " cell) in
     let subj_norm := _normalize_text subj in
     String.eqb subj_norm target
     || PyStr.contains target subj_norm
     || PyStr.contains subj_norm target.

(** The search loop: [found] after [for p in periods: ... break]. *)
Definition found_in (row : list string) (periods : list Z) (target : string)
  : bool :=
  existsb (fun p => match cell_at row p with
                    | Some cell => cell_matches target cell
                    | None => false
                    end) periods.

Definition present_in (row : list string) (periods : list Z) : list string :=
  omap (cell_at row) periods.

Section Validate.
Variable _last_section : string.

Definition v_course_name (c : Constraint) := PyStr.strip (cons_course_name c).
Definition v_section (c : Constraint) :=
  PyStr.strip (PyStr.or_else (cons_section c) "ALL").
Definition v_day (c : Constraint) := PyStr.capitalize (PyStr.strip (cons_day c)).
Definition v_pr (c : Constraint) := PyStr.strip (cons_period_range c).

(** The tests that leave an iteration through [continue] before the row
    is looked up. *)
Definition checked (c : Constraint) : bool :=
  let c_type := PyStr.strip (PyStr.or_else (cons_type c) "Hard") in
  (String.eqb (PyStr.upper c_type) "HARD" || String.eqb (PyStr.upper c_type) "EXACT")
  && PyStr.nonempty (v_course_name c) && PyStr.nonempty (v_day c)
  && PyStr.nonempty (v_pr c)
  && negb (negb (String.eqb (PyStr.upper (v_section c)) "ALL")
           && negb (String.eqb (v_section c) _last_section))
  && negb (bool_decide (_parse_period_range (v_pr c) = [])).

(** One iteration of the loop over the constraints; the state is
    [(ok, msgs)]. *)
Definition validate_step (grid : Grid) (st : bool * list Msg) (c : Constraint)
  : bool * list Msg :=
  if negb (checked c) then st
  else
    let periods := _parse_period_range (v_pr c) in
    match dict_get (grid_norm grid) (v_day c) with
    | None => (false, st.2 ++ [DayMissing (v_course_name c) (v_day c) (v_pr c)])
    | Some row =>
        if found_in row periods (_normalize_text (v_course_name c)) then st
        else (false, st.2 ++ [Violated (v_course_name c) (v_day c) (v_pr c)
                                (present_in row periods)])
    end.

(** [constraints] is what the DAO returns; [None] when there is no DAO or
    the call fails, and then the grid is accepted. *)
Definition _validate_grid_constraints
    (constraints : option (list Constraint)) (grid : Grid) : bool * list Msg :=
  match constraints with
  | None => (true, [])
  | Some cs => foldl (validate_step grid) (true, []) cs
  end.
End Validate.

(** [len(next(iter(grid.values()))) if grid else 0] *)
Definition grid_periods (grid : Grid) : nat :=
  match grid with
  | [] => 0
  | (_, row) :: _ => length row
  end.

(** The labels one column adds to [seen], in day order; [None] when a row
    is too short ([IndexError]). *)
Fixpoint column_labels (grid : Grid) (days : list string) (p : nat)
  : option (list string) :=
  match days with
  | [] => Some []
  | d :: days' =>
      val ← grid_get grid d p;
      rest ← column_labels grid days' p;
      Some (if negb (PyStr.nonempty val) then rest
            else if String.eqb (PyStr.upper (PyStr.strip val)) LUNCH then rest
            else PyStr.lower (PyStr.strip val) :: rest)
  end.

(** [len(seen)] is the number of distinct labels. *)
Fixpoint score_columns (grid : Grid) (days : list string) (ps : list nat)
  : option nat :=
  match ps with
  | [] => Some 0%nat
  | p :: ps' =>
      seen ← column_labels grid days p;
      rest ← score_columns grid days ps';
      Some (length (remove_dups seen) + rest)%nat
  end.

(** The score is a float holding a natural number; an exception gives 0.0. *)
Definition _diversity_score (grid : Grid) : nat :=
  default 0%nat
    (score_columns grid (dict_keys grid) (seq 0 (grid_periods grid))).

(** [random.sample(slots, 2)]: [j = randbelow(n)] picks the first element,
    the last element of the pool moves into its place, [randbelow(n - 1)]
    picks the second. (For long populations CPython draws positions until
    it finds a fresh one; the possible results are the same: two distinct
    positions.) *)
Definition sample2 {A} (r1 r2 : nat) (slots : list A) : option (A * A) :=
  let n := length slots in
  let j1 := (r1 mod n)%nat in
  a ← slots !! j1;
  last ← slots !! (n - 1)%nat;
  b ← (<[j1 := last]> slots) !! (r2 mod (n - 1))%nat;
  Some (a, b).

(** The outcome of one iteration of the improvement loop. *)
Inductive Outcome :=
| Continue (best : Grid) (best_score : nat)
| Break (best : Grid)
| Raise.

Section Improve.
Variable validate : Grid -> bool * list Msg.
(** [best_score >= periods * len(days) * 0.7], a comparison of floats. *)
Variable high_water : nat -> nat -> nat -> bool.
Variable draw : nat -> nat.

Definition slots_of (ndays periods : nat) (lunch_idx : option Z)
  : list (nat * nat) :=
  di ← seq 0 ndays; p ← seq 0 periods;
  if bool_decide (lunch_idx = Some (Z.of_nat p)) then [] else [(di, p)].

(** [candidate[day_a][pa], candidate[day_b][pb] =
     candidate[day_b][pb], candidate[day_a][pa]] on a copy of [best],
    given the two cells read before. *)
Definition swap_cells (best : Grid) (day_a : string) (pa : nat)
    (day_b : string) (pb : nat) (va vb : string) : Grid :=
  grid_set (grid_set best day_a pa vb) day_b pb va.

Definition improve_iter (days : list string) (periods : nat)
    (slots : list (nat * nat)) (k : nat) (best : Grid) (best_score : nat)
  : Outcome :=
  match sample2 (draw (2 * k)) (draw (2 * k + 1)) slots with
  | None => Raise
  | Some ((da, pa), (db, pb)) =>
      match days !! da, days !! db with
      | Some day_a, Some day_b =>
          match grid_get best day_a pa, grid_get best day_b pb with
          | Some va, Some vb =>
              if String.eqb va vb then Continue best best_score
              else
                let candidate := swap_cells best day_a pa day_b pb va vb in
                if negb (validate candidate).1 then Continue best best_score
                else
                  let sc := _diversity_score candidate in
                  if (best_score <? sc)%nat then
                    if high_water sc periods (length days)
                    then Break candidate
                    else Continue candidate sc
                  else Continue best best_score
          | _, _ => Raise
          end
      | _, _ => Raise
      end
  end.

(** [for _ in range(max_iters)], from iteration [k] on; [None] when an
    exception leaves the loop. *)
Fixpoint improve_loop (days : list string) (periods : nat)
    (slots : list (nat * nat)) (iters k : nat) (best : Grid) (best_score : nat)
  : option Grid :=
  match iters with
  | O => Some best
  | S iters' =>
      match improve_iter days periods slots k best best_score with
      | Continue best' score' =>
          improve_loop days periods slots iters' (S k) best' score'
      | Break best' => Some best'
      | Raise => None
      end
  end.

Definition _improve_grid_via_swaps (grid : Grid) (max_iters : nat)
    (lunch_idx : option Z) : Grid :=
  let best := grid in
  let best_score := _diversity_score best in
  let days := dict_keys best in
  let periods := grid_periods best in
  let slots := slots_of (length days) periods lunch_idx in
  if (length slots <? 2)%nat then best
  else default grid (improve_loop days periods slots max_iters 0 best best_score).
End Improve.

(** *** The placeholder grid shown while the worker runs *)

(** [(c.get('course_name') or c.get('course_code') or f"C{c.get('id')}").strip()] *)
Definition placeholder_label (c : Course) : string :=
  PyStr.strip
    (PyStr.or_else (course_name c)
       (PyStr.or_else (course_code c)
          ("C" +:+ match id c with Some i => PyStr.of_int i | None => "None" end))).

(** [courses] is what the DAO or the service answers ([[]] without either);
    [None] when the [try] block raises. *)
Definition placeholder_labels (courses : option (list Course)) : list string :=
  match courses with
  | None => ["Free"]
  | Some cs =>
      match placeholder_label <$> cs with
      | [] => ["Free"]
      | labels => labels
      end
  end.

(** One iteration of [for p in range(periods)]; the state is [(row, idx)]. *)
Definition placeholder_cell (labels : list string) (lunch : Z)
    (st : list string * nat) (p : nat) : list string * nat :=
  if negb (lunch =? 0) && (Z.of_nat p + 1 =? lunch)
  then (st.1 ++ ["LUNCH"], st.2)
  else (st.1 ++ [default "" (labels !! (st.2 mod length labels)%nat)], S st.2).

Definition placeholder_row (labels : list string) (periods lunch : Z) (idx : nat)
  : list string * nat :=
  foldl (placeholder_cell labels lunch) ([], idx) (seq 0 (Z.to_nat periods)).

Definition _build_placeholder_grid (courses : option (list Course))
    (periods lunch : Z) : Grid :=
  let labels := placeholder_labels courses in
  (foldl (fun st d =>
            let r := placeholder_row labels periods lunch st.2 in
            (dict_set st.1 d r.1, r.2))
         ([], 0%nat) DAYS).1.

(** *** The labels of the grid the worker answers *)

(** The worker's grid as parsed from its JSON: a cell is a string or
    [None]. *)
Definition RawGrid := list (string * list (option string)).

Definition normalize_cell (cell : option string) : string :=
  match cell with
  | None => ""
  | Some s => if String.eqb (PyStr.upper (PyStr.strip s)) "LUNCH" then "LUNCH" else s
  end.

Definition _normalize_grid_labels (grid : RawGrid) : Grid :=
  foldl (fun normalized dr => dict_set normalized dr.1 (normalize_cell <$> dr.2))
        [] grid.

(** *** The grid [on_finished] displays *)

Section Finished.
Variable validate : Grid -> bool * list Msg.
Variable high_water : nat -> nat -> nat -> bool.
Variable draw : nat -> nat.

(** [final] in [on_finished]: the worker's grid with its labels normalized,
    or its improvement when that scores higher. *)
Definition on_finished_final (grid : RawGrid) (max_iters : nat)
    (lunch_idx : option Z) : Grid :=
  let grid := _normalize_grid_labels grid in
  let base_score := _diversity_score grid in
  let improved :=
    _improve_grid_via_swaps validate high_water draw grid max_iters lunch_idx in
  let improved_score := _diversity_score improved in
  if (base_score <? improved_score)%nat then improved else grid.
End Finished.

End Dashboard.

Definition grid_ex : Grid :=
  [("Monday", ["Math"; "English"; "LUNCH"]); ("Tuesday", ["Math"; "English"; "LUNCH"])].

(** ** Preparing the request: courses and synthetic courses

    [SERVICE/timetable_service.py] ([generate_for_teacher]) and
    [UI/teacher_dashboard.py] ([generate_preview]) load the courses and the
    constraints, add a synthetic course for every constraint whose course
    text is the label of no course, and hand the request to [run_solver]. *)

(** [(c.get("course_name") or c.get("course_code") or f"C{c.get('id')}").strip()] *)
Definition course_label (c : Course) : string :=
  PyStr.strip
    (PyStr.or_else (course_name c)
       (PyStr.or_else (course_code c)
          ("C" +:+ match id c with Some i => PyStr.of_int i | None => "None" end))).

(** [cons.get("period_range") or cons.get("periods") or ""] *)
Definition cons_range_text (cons : Constraint) : string :=
  PyStr.or_else (cons_period_range cons) (PyStr.or_else (cons_periods cons) "").

(** The loop that adds the synthetic courses. The two callers differ in
    what they store in the label map (the label, or the id of the course;
    the loop only asks for its keys) and in the credits they give a
    synthetic course. The credits are a parameter: [generate_for_teacher]
    computes them with [TimetableService.synthetic_credits] below;
    [generate_preview] reads [cons.get("type", "").strip()] outside any
    [try], which raises for a constraint whose type is [None], so for that
    caller the loop is the one below only on constraints that carry a type. *)
Section Synthetic.
Context {V : Type}.
Variable entry_of_course : Course -> V.
Variable entry_of_synthetic : string -> Z -> V.
Variable credits_of : Constraint -> Z.

(** The keys are [" ".join(label.split()).strip().lower()], the expression
    of [_normalize_text]. *)
Definition label_map_of (courses : list Course) : list (string * V) :=
  foldl (fun m c =>
           let label := course_label c in
           if PyStr.nonempty label
           then dict_set m (_normalize_text label) (entry_of_course c)
           else m)
        [] courses.

Definition synthetic_course (cons : Constraint) (cname : string)
    (synthetic_id : Z) : Course :=
  {| id := Some synthetic_id; course_name := cname; course_code := cname;
     credits := credits_of cons;
     section := PyStr.or_else (cons_section cons) "ALL";
     teacher_id := None |}.

Record SynthState := {
  sy_courses : list Course;
  sy_map : list (string * V);
  sy_next : Z
}.

Definition synthetic_step (st : SynthState) (cons : Constraint) : SynthState :=
  let cname := PyStr.strip (cons_course_name cons) in
  if negb (PyStr.nonempty cname) then st
  else
    let norm := _normalize_text cname in
    if bool_decide (norm ∈ dict_keys (sy_map st)) then st
    else
      {| sy_courses := sy_courses st ++ [synthetic_course cons cname (sy_next st)];
         sy_map := dict_set (sy_map st) norm (entry_of_synthetic cname (sy_next st));
         sy_next := sy_next st - 1 |}.

Definition synthetic_start (courses : list Course) : SynthState :=
  {| sy_courses := courses; sy_map := label_map_of courses; sy_next := -1 |}.

Definition add_synthetic (courses : list Course) (constraints : list Constraint)
  : SynthState :=
  foldl synthetic_step (synthetic_start courses) constraints.
End Synthetic.

Module TimetableService.

(** The courses of a teacher followed by the admin courses whose id is not
    among the teacher's ([existing_ids] is computed once, before the loop). *)
Definition merge_admin_courses (teacher_courses admin_courses : list Course)
  : list Course :=
  let existing_ids := omap id teacher_courses in
  teacher_courses
  ++ filter (fun c => id c ∉ Some <$> existing_ids) admin_courses.

(** [credits] of a synthetic course: the length of a range "Pa-Pb". *)
Definition synthetic_credits (cons : Constraint) : Z :=
  let pr := cons_range_text cons in
  match PyStr.split_once "-" pr with
  | Some (a, b) =>
      match PyStr.int (PyStr.lstrip_char "P" b), PyStr.int (PyStr.lstrip_char "P" a) with
      | Some eb, Some ea => Z.max 1 (eb - ea + 1)
      | _, _ => 1
      end
  | None => 1
  end.

(** The courses of the payload ([courses] after the loop). *)
Definition payload_courses (courses : list Course) (constraints : list Constraint)
  : list Course :=
  sy_courses (add_synthetic (fun c => course_label c) (fun cname _ => cname)
                synthetic_credits courses constraints).

(** [generate_for_teacher] from the loaded courses and constraints on, with
    the DAO of the repository (it has [list_by_owner]). [_build_payload]
    adds the keys [teacher_name] and [_weight], which the solver does not
    read. *)
Section Generate.
Context {Seconds : Type}.
Variable ORTOOLS_AVAILABLE : bool.
Variable cp_solve : Seconds -> CpModel.Model -> option CpModel.Assignment.
Variable draw : nat -> nat.

Definition generate_for_teacher (teacher_courses admin_courses : list Course)
    (constraints : list Constraint) (periods lunch : Z) (time_limit : Seconds)
    (include_admin : bool) : Grid :=
  let courses :=
    if include_admin then merge_admin_courses teacher_courses admin_courses
    else teacher_courses in
  run_solver ORTOOLS_AVAILABLE cp_solve draw
    {| pl_courses := payload_courses courses constraints;
       pl_constraints := constraints;
       pl_periods := periods; pl_lunch := lunch; pl_time_limit := time_limit |}.
End Generate.

End TimetableService.

Module Preview.

(** [combined] in [generate_preview]: the first course of every id, and of
    every (code, section) among the courses without id. (The key compares
    the two fields as stored; with the convention above a missing code and
    an empty code are the same key. The properties below are about the
    courses that carry an id.) *)
Definition combine_step (st : list Course * list Z * list (string * string))
    (c : Course) : list Course * list Z * list (string * string) :=
  let '(combined, seen_ids, seen_keys) := st in
  let key := (course_code c, section c) in
  match id c with
  | Some cid =>
      if bool_decide (cid ∈ seen_ids) then st
      else (combined ++ [c], seen_ids ++ [cid], seen_keys)
  | None =>
      if bool_decide (key ∈ seen_keys) then st
      else (combined ++ [c], seen_ids, seen_keys ++ [key])
  end.

Definition combine_courses (teacher_courses admin_courses : list Course)
  : list Course :=
  (foldl combine_step ([], [], []) (teacher_courses ++ admin_courses)).1.1.

End Preview.

(** ** SERVICE/constraints_service.py: constraints entered as text *)

Module ConstraintService.

(** [line.split(sep)] for a one-character [sep]. *)
Fixpoint split_on (sep : ascii) (s : string) : list string :=
  match s with
  | EmptyString => [EmptyString]
  | String c s' =>
      if Ascii.eqb c sep then EmptyString :: split_on sep s'
      else
        match split_on sep s' with
        | w :: ws => String c w :: ws
        | [] => [String c EmptyString]
        end
  end.

(** The arguments of [dao.add]. *)
Record Row := {
  row_course_name : string;
  row_section : string;
  row_day : string;
  row_period_range : string;
  row_type : string;
  row_description : option string;
  row_teacher_id : option Z;
  row_published : bool
}.

(** The tokens of a line as [(course_name, section, day, period_range,
    mode)]; [None] stands for [ValueError]. *)
Definition tokens (parts : list string)
  : option (string * string * string * string * option string) :=
  match parts with
  | [course_name; day; period_range] =>
      Some (course_name, "ALL", day, period_range, None)
  | [p0; p1; p2; p3] =>
      if bool_decide (PyStr.capitalize p1 ∈ DAYS)
      then Some (p0, "ALL", p1, p2, Some p3)
      else Some (p0, p1, p2, p3, None)
  | [course_name; section; day; period_range; mode] =>
      Some (course_name, section, day, period_range, Some mode)
  | _ => None
  end.

(** [day] after the two assignments: the second one reads the capitalized
    text of the first. *)
Definition stored_day (day : string) : string :=
  let day := PyStr.capitalize (PyStr.strip day) in
  if bool_decide (day ∈ DAYS) then day else PyStr.title (PyStr.strip day).

Definition stored_type (mode : option string) : string * option string :=
  match mode with
  | Some m =>
      if PyStr.nonempty m
         && bool_decide (PyStr.lower (PyStr.strip m) ∈ ["exact"; "block"; "full"])
      then ("Exact", Some (PyStr.strip m))
      else ("Hard", None)
  | None => ("Hard", None)
  end.

(** [add_from_text] up to the call of the DAO: the row it hands over. *)
Definition add_from_text (line owner_type : string) (owner_id : option Z)
    (published : bool) : option Row :=
  let parts := PyStr.strip <$> split_on "," line in
  match tokens parts with
  | None => None
  | Some (course_name, section, day, period_range, mode) =>
      let day := stored_day day in
      let '(type_, description) := stored_type mode in
      let teacher_id := if String.eqb owner_type "teacher" then owner_id else None in
      Some {| row_course_name := PyStr.strip course_name;
              row_section := PyStr.or_else (PyStr.strip section) "ALL";
              row_day := day;
              row_period_range := PyStr.strip period_range;
              row_type := type_;
              row_description := description;
              row_teacher_id := teacher_id;
              row_published := published |}
  end.

(** [add_for_teacher] *)
Definition add_for_teacher (line : string) (teacher_id : Z) (published : bool)
  : option Row :=
  add_from_text line "teacher" (Some teacher_id) published.

(** The constraint the DAO lists for a row: the columns [course_name],
    [section], [day], [period_range], [type] as they were inserted (the
    column [description] holds the mode; the solvers do not read it). *)
Definition constraint_of_row (r : Row) : Constraint :=
  {| cons_course_name := row_course_name r; cons_section := row_section r;
     cons_day := row_day r; cons_period_range := row_period_range r;
     cons_periods := ""; cons_type := row_type r; cons_mode := "" |}.

End ConstraintService.

(** ** Saved timetables: DAL/timetable_dao.py and SERVICE/timetable_service.py *)

Module TimetableStore.

Record Entry := {
  e_day : string;
  e_period : Z;
  e_course_name : string;
  e_teacher_name : string;
  e_section : string
}.

(** [get_set_entries] from the stored grid on: one entry a cell, row after
    row ([section] is [payload.get("section") or ""]). *)
Definition get_set_entries (grid : Grid) (section : string) : list Entry :=
  dr ← grid;
  imap (fun idx txt =>
          {| e_day := dr.1; e_period := Z.of_nat idx + 1; e_course_name := txt;
             e_teacher_name := ""; e_section := section |}) dr.2.

(** One iteration of the grouping loop of [get_timetable_set]; the state is
    [(by_day, max_period)]. *)
Definition group_step (st : list (string * list (Z * string)) * Z) (r : Entry)
  : list (string * list (Z * string)) * Z :=
  let day := e_day r in
  let p := e_period r in
  (dict_set st.1 day (dict_set (default [] (dict_get st.1 day)) p (e_course_name r)),
   Z.max st.2 p).

(** [[mp.get(i, "") for i in range(1, max_p + 1)]] *)
Definition row_of (mp : list (Z * string)) (max_p : Z) : list string :=
  (fun i => default "" (dict_get mp i)) <$> zrange 1 max_p.

Definition by_weekday (by_day : list (string * list (Z * string)))
    (max_period : Z) : Grid :=
  foldl (fun result day =>
           match dict_get by_day day with
           | Some mp => dict_set result day (row_of mp max_period)
           | None => result
           end)
        []
        ["Monday"; "Tuesday"; "Wednesday"; "Thursday"; "Friday"; "Saturday"].

(** The order of [sorted] on strings. *)
Definition str_le (a b : string) : Prop := String.leb a b = true.

#[local] Instance str_le_dec : RelDecision str_le :=
  fun a b => decide (String.leb a b = true).

(** [max(mp.keys()) if mp else 0] *)
Definition max_key (mp : list (Z * string)) : Z :=
  match dict_keys mp with
  | [] => 0
  | k :: ks => foldl Z.max k ks
  end.

(** The fallback: the days that occur, sorted, each with its own length. *)
Definition by_present_day (rows : list Entry) : Grid :=
  let days_present := merge_sort str_le (remove_dups (e_day <$> rows)) in
  foldl (fun result day =>
           let mp :=
             foldl (fun m r => dict_set m (e_period r) (e_course_name r)) []
                   (filter (fun r => e_day r = day) rows) in
           dict_set result day (row_of mp (max_key mp)))
        [] days_present.

Definition get_timetable_set (rows : list Entry) : Grid :=
  let st := foldl group_step ([], 0) rows in
  let result := by_weekday st.1 st.2 in
  if bool_decide (result = []) && negb (bool_decide (rows = []))
  then by_present_day rows
  else result.

End TimetableStore.

(** ** Vocabulary of the properties *)

(** The shape of a week of [P] periods. *)
Definition shape (P : Z) (g : Grid) : Prop :=
  dict_keys g = DAYS /\ Forall (fun dr => length dr.2 = Z.to_nat P) g.

(** Between [g] and [g'] a cell changed only on [day], only into [label], and
    only if it was empty or is the cell [tgt] of the forced write. *)
Definition changed_ok (g g' : Grid) (day label : string) (tgt : option nat) : Prop :=
  forall d q,
    grid_get g' d q = grid_get g d q \/
    (grid_get g' d q = Some label /\ d = day /\
     (grid_get g d q = Some "" \/ tgt = Some q)).

(** The label a constraint writes in the greedy solver. *)
Definition written_label (idx : CourseIndex) (c : Constraint) : string :=
  match _match_constraint_to_cids c (cid_to_course idx) with
  | [] => PyStr.or_else (cons_course_name c) ""
  | rep_cid :: _ => Greedy.rep_label idx rep_cid
  end.

(** The cell of its day a constraint may overwrite: its first allowed index. *)
Definition forced_target (P : Z) (lunch_idx : option Z) (c : Constraint) : option nat :=
  Z.to_nat <$> head (Greedy.cons_indices P lunch_idx c).

(** What the filling loops may do to the cells of [g0]: leave a cell, fill
    an empty cell from [shuffled], or write the lunch token in the lunch
    column. *)
Definition filled_from (lunch_idx : option Z) (shuffled : list string)
    (g0 g : Grid) : Prop :=
  forall d q,
    grid_get g d q = grid_get g0 d q \/
    (grid_get g0 d q = Some "" /\ exists v, grid_get g d q = Some v /\ v ∈ shuffled) \/
    (lunch_idx = Some (Z.of_nat q) /\ grid_get g d q = Some LUNCH).

(** [b] is [best] with the contents of two different-valued cells outside
    the lunch column exchanged. *)
Definition is_swap_of (lunch_idx : option Z) (best b : Grid) : Prop :=
  exists day_a pa day_b pb va vb,
    grid_get best day_a pa = Some va /\ grid_get best day_b pb = Some vb /\
    va ≠ vb /\
    lunch_idx ≠ Some (Z.of_nat pa) /\ lunch_idx ≠ Some (Z.of_nat pb) /\
    b = Dashboard.swap_cells best day_a pa day_b pb va vb.

(** What one iteration of the improvement loop may answer: the grid it was
    given with its score (the swap is reverted), or a swap of it that is
    valid and scores strictly higher (the swap is kept). *)
Definition kept_or_reverted (validate : Grid -> bool * list Dashboard.Msg)
    (lunch_idx : option Z) (best : Grid) (best_score : nat)
    (o : Dashboard.Outcome) : Prop :=
  match o with
  | Dashboard.Continue b s =>
      (b = best /\ s = best_score) \/
      (is_swap_of lunch_idx best b /\ (validate b).1 = true
       /\ s = Dashboard._diversity_score b /\ (best_score < s)%nat)
  | Dashboard.Break b =>
      is_swap_of lunch_idx best b /\ (validate b).1 = true
      /\ (best_score < Dashboard._diversity_score b)%nat
  | Dashboard.Raise => True
  end.










(** ** Vocabulary of the validator *)

(** Some required period of the constraint holds a non-empty cell that
    matches the course text by normalized containment. *)
Definition satisfied_any (grid : Grid) (c : Constraint) : Prop :=
  exists row p cell,
    dict_get (Dashboard.grid_norm grid) (Dashboard.v_day c) = Some row
    /\ p ∈ Dashboard._parse_period_range (Dashboard.v_pr c)
    /\ Dashboard.cell_at row p = Some cell
    /\ Dashboard.cell_matches (_normalize_text (Dashboard.v_course_name c)) cell = true.

(** Every required period of the constraint holds a matching cell: what an
    Exact constraint asks for. *)
Definition satisfied_all (grid : Grid) (c : Constraint) : Prop :=
  exists row,
    dict_get (Dashboard.grid_norm grid) (Dashboard.v_day c) = Some row
    /\ forall p, p ∈ Dashboard._parse_period_range (Dashboard.v_pr c) ->
         exists cell, Dashboard.cell_at row p = Some cell
           /\ Dashboard.cell_matches (_normalize_text (Dashboard.v_course_name c)) cell
              = true.

(** The constraint, the day and the range a message names. *)
Definition msg_key (m : Dashboard.Msg) : string * string * string :=
  match m with
  | Dashboard.DayMissing n d pr => (n, d, pr)
  | Dashboard.Violated n d pr _ => (n, d, pr)
  end.

Definition cons_key (c : Constraint) : string * string * string :=
  (Dashboard.v_course_name c, Dashboard.v_day c, Dashboard.v_pr c).

Definition with_type (c : Constraint) (ty : string) : Constraint :=
  {| cons_course_name := cons_course_name c; cons_section := cons_section c;
     cons_day := cons_day c; cons_period_range := cons_period_range c;
     cons_periods := cons_periods c; cons_type := ty; cons_mode := cons_mode c |}.

(** ** Vocabulary of malformed constraints *)

(** The day of the constraint is none of the five weekday names, neither
    capitalized nor in title case. *)
Definition bad_day (c : Constraint) : Prop :=
  (PyStr.capitalize (PyStr.strip (cons_day c)) ∉ DAYS)
  /\ (PyStr.title (PyStr.strip (cons_day c)) ∉ DAYS).



(** ** Vocabulary of the dashboard helpers *)

(** The number of lunch cells among the first [k] periods of a row. *)
Definition lunch_in (lunch : Z) (k : nat) : nat :=
  if (1 <=? lunch) && (lunch <=? Z.of_nat k) then 1%nat else 0%nat.

(** All cells of a grid, row after row. *)
Definition cells (g : Grid) : list string :=
  g ≫= (fun dr : string * list string => dr.2).

(** A grid of strings as a worker's grid. *)
Definition as_raw (g : Grid) : Dashboard.RawGrid :=
  (fun dr : string * list string => (dr.1, Some <$> dr.2)) <$> g.

Definition raw_ex : Dashboard.RawGrid :=
  [("Monday", [Some "Math"; Some " lunch "; None]);
   ("Tuesday", [Some "Art"; Some "LUNCH"; Some "Math"])].

(** Two strings of the same length with whitespace at the same positions. *)
Inductive same_spaces : string -> string -> Prop :=
| same_spaces_nil : same_spaces "" ""
| same_spaces_cons c d s t :
    PyStr.is_space c = PyStr.is_space d -> same_spaces s t ->
    same_spaces (String c s) (String d t).

(** ** Vocabulary of period ranges *)

Definition is_digit (c : ascii) : bool :=
  match PyStr.digit_val c with Some _ => true | None => false end.

Fixpoint all_digits (s : string) : bool :=
  match s with
  | EmptyString => true
  | String c s' => is_digit c && all_digits s'
  end.

Fixpoint no_space (s : string) : bool :=
  match s with
  | EmptyString => true
  | String c s' => negb (PyStr.is_space c) && no_space s'
  end.

(** The range text "P<a>-P<b>" for two digit strings. *)
Definition range_text (da db : string) : string :=
  String "P" (da +:+ String "-" (String "P" db)).





(** ** UI/admin_dashboard.py: resolving the course text of a constraint *)

Module Admin.

(** [any(ch.isdigit() for ch in s)] *)
Definition has_digit (s : string) : bool :=
  existsb is_digit (String.list_ascii_of_string s).

(** [norm in k or k in norm] *)
Definition related (norm k : string) : bool :=
  PyStr.contains norm k || PyStr.contains k norm.

Definition _resolve_constraint_course_name (constraint : Constraint)
    (course_label_map : list (string * string)) : option string :=
  let cname := PyStr.strip (cons_course_name constraint) in
  if negb (PyStr.nonempty cname) then None
  else
    let norm := _normalize_text cname in
    match dict_get course_label_map norm with
    | Some v => Some v
    | None =>
        match find (fun kv => related norm kv.1) course_label_map with
        | Some kv => Some kv.2
        | None =>
            if has_digit norm then
              match find (fun kv => has_digit kv.1 && related norm kv.1)
                         course_label_map with
              | Some kv => Some kv.2
              | None => None
              end
            else None
        end
    end.

End Admin.

(** ** Vocabulary of constraint lines *)

Fixpoint comma_free (s : string) : bool :=
  match s with
  | EmptyString => true
  | String c s' => negb (Ascii.eqb c ",") && comma_free s'
  end.

(** The type and the description a mode token stands for. *)
Definition typed_by (mode : option string) (row : ConstraintService.Row) : Prop :=
  match mode with
  | Some m =>
      if bool_decide (PyStr.lower (PyStr.strip m) ∈ ["exact"; "block"; "full"])
      then ConstraintService.row_type row = "Exact"
           /\ ConstraintService.row_description row = Some (PyStr.strip m)
      else ConstraintService.row_type row = "Hard"
           /\ ConstraintService.row_description row = None
  | None =>
      ConstraintService.row_type row = "Hard"
      /\ ConstraintService.row_description row = None
  end.

(** The tokens of a line of [parts] as the service reads them: course
    name, section, day, period range and mode. *)
Definition read_as (parts : list string) (name sec day pr : string)
    (mode : option string) : Prop :=
  (parts = [name; day; pr] /\ sec = "ALL" /\ mode = None)
  \/ (exists m, parts = [name; day; pr; m]
                /\ PyStr.capitalize (PyStr.strip day) ∈ DAYS
                /\ sec = "ALL" /\ mode = Some m)
  \/ (parts = [name; sec; day; pr]
      /\ (PyStr.capitalize (PyStr.strip sec) ∉ DAYS) /\ mode = None)
  \/ (exists m, parts = [name; sec; day; pr; m] /\ mode = Some m).

(** An admin course is kept next to the courses of a teacher when it has
    no id or its id is the id of none of them. *)
Definition is_kept (teacher_courses : list Course) (c : Course) : bool :=
  match id c with
  | None => true
  | Some i =>
      negb (existsb (fun c' => match id c' with
                               | Some j => Z.eqb j i
                               | None => false
                               end) teacher_courses)
  end.

(** ** Concrete inputs and a reference solver *)

Definition payload_ex : Payload (Seconds := Z) :=
  {| pl_courses := courses_ex; pl_constraints := cons_ex;
     pl_periods := 4; pl_lunch := 3; pl_time_limit := 10 |}.


(** A reference solver for the examples: it tries every assignment of the
    keys of the model. *)
Fixpoint all_subsets (vars : list CpModel.Var) : list (list CpModel.Var) :=
  match vars with
  | [] => [[]]
  | v :: vs => all_subsets vs ++ (cons v <$> all_subsets vs)
  end.

Definition as_assignment (on : list CpModel.Var) : CpModel.Assignment :=
  fun v => bool_decide (v ∈ on).

Definition exhaustive_solve (_ : Z) (m : CpModel.Model) : option CpModel.Assignment :=
  as_assignment <$>
    find (fun on => CpModel.sat (as_assignment on) m) (all_subsets (CpModel.keys m)).

Definition payload_block : Payload (Seconds := Z) :=
  {| pl_courses := [mkCourse 1 "Math" 2 "A"];
     pl_constraints := [mkCons "Math" "Monday" "P1-P2" "Exact"];
     pl_periods := 2; pl_lunch := 0; pl_time_limit := 10 |}.




Definition cons_block : Constraint := mkCons "Math" "Monday" "P1-P2" "Exact".

(** A solution of a model with the courses Math and Physics of one teacher
    and one section, two periods a day: Math first, Physics second. *)
Definition course_math7 : Course :=
  {| id := Some 1; course_name := "Math"; course_code := "M1"; credits := 1;
     section := "A"; teacher_id := Some 7 |}.

Definition course_physics7 : Course :=
  {| id := Some 2; course_name := "Physics"; course_code := "P1"; credits := 1;
     section := "A"; teacher_id := Some 7 |}.

Definition courses_shared : list Course := [course_math7; course_physics7].

Definition assignment_shared : CpModel.Assignment :=
  fun v => match v with
           | (1, _, 0) => true
           | (2, _, 1) => true
           | _ => false
           end.

Definition cons_hard_physics : Constraint := mkCons "Physics" "Monday" "P2" "Hard".



(** * Properties *)

(** ** The embedding on concrete inputs *)

Example strip_ex : PyStr.strip "  P1 - P3 " = "P1 - P3". Proof. reflexivity. Qed.
Example split_ex : PyStr.split " a  b c " = ["a"; "b"; "c"]. Proof. reflexivity. Qed.
Example int_ex1 : PyStr.int " 12 " = Some 12. Proof. reflexivity. Qed.
Example int_ex2 : PyStr.int "-3" = Some (-3). Proof. reflexivity. Qed.
Example int_ex3 : PyStr.int "1_0" = Some 10. Proof. reflexivity. Qed.
Example int_ex4 : PyStr.int "" = None. Proof. reflexivity. Qed.
Example int_ex5 : PyStr.int "1__0" = None. Proof. reflexivity. Qed.
Example int_ex6 : PyStr.int (String "2" (String (ascii_of_nat 28) "")) = None.
Proof. reflexivity. Qed.
Example int_ex7 : PyStr.int (String (ascii_of_nat 9) " 2 ") = Some 2.
Proof. reflexivity. Qed.
Example cap_ex : PyStr.capitalize "mONDAY" = "Monday". Proof. reflexivity. Qed.
Example title_ex : PyStr.title "mon day" = "Mon Day". Proof. reflexivity. Qed.
Example contains_ex : PyStr.contains "at" "math" = true. Proof. reflexivity. Qed.
Example ends_ex : PyStr.endswith "math" "th" = true. Proof. reflexivity. Qed.
Example before_ex : PyStr.before " - " "Math - Rao" = "Math". Proof. reflexivity. Qed.
Example of_int_ex : PyStr.of_int (-12) = "-12". Proof. reflexivity. Qed.
Example of_int_ex0 : PyStr.of_int 0 = "0". Proof. reflexivity. Qed.
Example parse_ex1 : _parse_period_token "P1-P3" = (0, 2). Proof. reflexivity. Qed.
Example parse_ex2 : _parse_period_token " p2 " = (1, 1). Proof. reflexivity. Qed.
Example parse_ex3 : _parse_period_token "lunch" = (0, 0). Proof. reflexivity. Qed.
Example parse_ex4 : _parse_period_token "-3" = (0, 0). Proof. reflexivity. Qed.
Example match_ex1 :
  _match_constraint_to_cids (mkCons "math" "Monday" "P1" "Hard")
    (cid_to_course (index_courses [mkCourse 1 "Math" 2 "A"; mkCourse 2 "Mathematics" 1 "A"]))
  = [1].
Proof. vm_compute. reflexivity. Qed.
Example period_ex : period_indices 4 (Some 2) 0 3 = [0; 1; 3]. Proof. reflexivity. Qed.
Example greedy_ex :
  greedy_csp_solver (fun _ => 0%nat) courses_ex cons_ex 4 3 =
  [("Monday", ["Math"; "Math"; "LUNCH"; "English"]);
   ("Tuesday", ["English"; "English"; "LUNCH"; "Math"]);
   ("Wednesday", ["Math"; "Math"; "LUNCH"; "English"]);
   ("Thursday", ["English"; "English"; "LUNCH"; "Math"]);
   ("Friday", ["Math"; "Math"; "LUNCH"; "English"])].
Proof. vm_compute. reflexivity. Qed.
Example range_ex1 : Dashboard._parse_period_range "P1-P3" = [1; 2; 3]. Proof. reflexivity. Qed.
Example range_ex2 : Dashboard._parse_period_range "p3 - p1" = [1; 2; 3]. Proof. reflexivity. Qed.
Example range_ex3 : Dashboard._parse_period_range "soon" = []. Proof. reflexivity. Qed.
Example score_ex : Dashboard._diversity_score grid_ex = 2%nat. Proof. reflexivity. Qed.
Example validate_ex :
  Dashboard._validate_grid_constraints "A"
    (Some [mkCons "Math" "Monday" "P1-P2" "Exact"; mkCons "Art" "Monday" "P1-P2" "Hard"])
    grid_ex
  = (false, [Dashboard.Violated "Art" "Monday" "P1-P2" ["Math"; "English"]]).
Proof. vm_compute. reflexivity. Qed.
Example improve_ex :
  Dashboard._improve_grid_via_swaps
    (Dashboard._validate_grid_constraints "A" (Some []))
    (fun _ _ _ => false) (fun k => k) grid_ex 3 (Some 2)
  = [("Monday", ["English"; "Math"; "LUNCH"]); ("Tuesday", ["Math"; "English"; "LUNCH"])].
Proof. vm_compute. reflexivity. Qed.

(** ** Folds *)

(** A property that one element of the list establishes, and that the steps
    for all elements keep, holds after the fold; [I] is an invariant of the
    state the steps may rely on. *)
Lemma foldl_invariant {S X} (f : S -> X -> S) (I : S -> Prop) (l : list X) (s : S) :
  I s -> (forall s y, y ∈ l -> I s -> I (f s y)) -> I (foldl f s l).
Proof.
  revert s. induction l as [|y l IH]; simpl; intros s Hs Hstep; [done|].
  apply IH.
  - apply Hstep; [left | done].
  - intros s' y' Hy'. apply Hstep. by right.
Qed.

Lemma foldl_establish {S X} (f : S -> X -> S) (I Q : S -> Prop) (x : X) (l : list X) (s : S) :
  x ∈ l ->
  I s ->
  (forall s y, y ∈ l -> I s -> I (f s y)) ->
  (forall s, I s -> Q (f s x)) ->
  (forall s y, y ∈ l -> I s -> Q s -> Q (f s y)) ->
  Q (foldl f s l).
Proof.
  intros Hin Hs HI Hx Hkeep.
  apply list_elem_of_split in Hin as (l1 & l2 & ->).
  rewrite foldl_app. simpl.
  assert (HI1 : I (foldl f s l1)).
  { apply foldl_invariant; [done|]. intros s' y Hy. apply HI.
    apply elem_of_app. by left. }
  apply (foldl_invariant f (fun s => I s /\ Q s)).
  - split; [|by apply Hx]. apply HI; [|done].
    apply elem_of_app. right. left.
  - intros s' y Hy [HIs HQs].
    assert (y ∈ l1 ++ x :: l2) by (apply elem_of_app; right; by right).
    split; [by apply HI | by apply Hkeep].
Qed.

(** ** Ranges *)

Lemma elem_of_zrange (s e p : Z) : p ∈ zrange s e <-> s <= p <= e.
Proof.
  unfold zrange. rewrite list_elem_of_fmap. split.
  - intros (i & -> & Hi). apply elem_of_seq in Hi. lia.
  - intros Hp. exists (Z.to_nat (p - s)). split; [lia|].
    apply elem_of_seq. lia.
Qed.

Lemma length_zrange (s e : Z) : length (zrange s e) = Z.to_nat (e + 1 - s).
Proof. unfold zrange. by rewrite length_fmap, length_seq. Qed.

Lemma NoDup_zrange (s e : Z) : NoDup (zrange s e).
Proof.
  unfold zrange. apply NoDup_fmap_2; [|apply NoDup_seq].
  intros i j Hij. lia.
Qed.

Lemma elem_of_periods_range (P p : Z) : p ∈ periods_range P <-> 0 <= p < P.
Proof. unfold periods_range. rewrite elem_of_zrange. lia. Qed.

(** Every allowed period index is a position of a row of [P] cells, and is
    not the lunch index. *)
Lemma period_indices_bound (P : Z) (lunch_idx : option Z) (s e p : Z) :
  p ∈ period_indices P lunch_idx s e ->
  0 <= p < P /\ s <= p <= e /\ lunch_idx <> Some p.
Proof.
  unfold period_indices. rewrite list_elem_of_filter, elem_of_zrange. tauto.
Qed.

Lemma NoDup_period_indices (P : Z) (lunch_idx : option Z) (s e : Z) :
  NoDup (period_indices P lunch_idx s e).
Proof. apply NoDup_filter, NoDup_zrange. Qed.

Lemma lunch_idx_of_Some (P lunch l : Z) :
  lunch_idx_of P lunch = Some l <-> 1 <= lunch <= P /\ l = lunch - 1.
Proof.
  unfold lunch_idx_of.
  destruct (lunch =? 0) eqn:E0; destruct (1 <=? lunch) eqn:E1;
    destruct (lunch <=? P) eqn:E2; simpl; split; intros H;
    try discriminate; try (injection H as <-); try lia;
    try (destruct H as [? ->]; f_equal; lia); split; lia.
Qed.

(** ** Grids *)

Section GridFacts.
Implicit Types (g : Grid) (d day : string) (p q : nat) (v : string).

Lemma grid_set_keys g d p v : dict_keys (grid_set g d p v) = dict_keys g.
Proof.
  unfold grid_set, dict_keys. rewrite <- list_fmap_compose.
  apply list_fmap_ext. intros i [k r] _. simpl. by case_decide.
Qed.

Lemma dict_get_grid_set g d p v d' :
  dict_get (grid_set g d p v) d' =
  (fun row => if decide (d' = d) then <[p := v]> row else row) <$> dict_get g d'.
Proof.
  unfold grid_set. induction g as [|[k r] g IH]; simpl; [done|].
  destruct (decide (k = d)) as [->|Hk]; simpl.
  - destruct (decide (d = d')) as [->|Hd]; simpl.
    + by rewrite decide_True.
    + done.
  - destruct (decide (k = d')) as [->|Hd]; simpl.
    + by rewrite decide_False.
    + done.
Qed.

Lemma grid_get_set g d p v d' q :
  grid_get (grid_set g d p v) d' q =
  if decide (d' = d /\ q = p) then (fun _ => v) <$> grid_get g d p
  else grid_get g d' q.
Proof.
  unfold grid_get. rewrite dict_get_grid_set.
  destruct (dict_get g d') as [row|] eqn:Hrow; simpl.
  - destruct (decide (d' = d)) as [->|Hd].
    + rewrite Hrow. simpl. destruct (decide (q = p)) as [->|Hq].
      * rewrite decide_True by done.
        destruct (decide (p < length row)%nat).
        -- rewrite list_lookup_insert_eq by done.
           destruct (lookup_lt_is_Some_2 row p) as [w ->]; done.
        -- rewrite list_insert_ge by lia.
           rewrite (lookup_ge_None_2 row p) by lia. done.
      * rewrite decide_False by tauto.
        by rewrite list_lookup_insert_ne.
    + rewrite decide_False by tauto. done.
  - case_decide as H; [|done]. destruct H as [-> ->]. by rewrite Hrow.
Qed.

Lemma grid_get_set_other g d p v d' q :
  (d', q) <> (d, p) -> grid_get (grid_set g d p v) d' q = grid_get g d' q.
Proof.
  intros Hne. rewrite grid_get_set. rewrite decide_False; [done|].
  intros [-> ->]. done.
Qed.

Lemma grid_get_set_same g d p v :
  is_Some (grid_get g d p) -> grid_get (grid_set g d p v) d p = Some v.
Proof.
  intros [w Hw]. rewrite grid_get_set, decide_True by done. by rewrite Hw.
Qed.

Lemma shape_empty_grid P : shape P (empty_grid P).
Proof.
  split; [reflexivity|]. unfold empty_grid.
  apply Forall_fmap, Forall_forall. intros d _. simpl. apply length_replicate.
Qed.

Lemma shape_grid_set P g d p v : shape P g -> shape P (grid_set g d p v).
Proof.
  intros [Hk Hl]. split; [by rewrite grid_set_keys|].
  unfold grid_set. apply Forall_fmap. eapply Forall_impl; [exact Hl|].
  intros [k r] Hr; simpl in *. case_decide; simpl; [|done].
  by rewrite length_insert.
Qed.

Lemma dict_get_Some_elem {V} (m : list (string * V)) d r :
  dict_get m d = Some r -> (d, r) ∈ m.
Proof.
  induction m as [|[k w] m IH]; simpl; [done|].
  case_decide; [intros [= ->]; subst; left | intros; right; auto].
Qed.

Lemma dict_get_elem {V} (m : list (string * V)) d r :
  NoDup (dict_keys m) -> (d, r) ∈ m -> dict_get m d = Some r.
Proof.
  unfold dict_keys. induction m as [|[k w] m IH]; simpl; intros Hnd Hin.
  - by apply elem_of_nil in Hin.
  - apply NoDup_cons in Hnd as [Hk Hnd].
    apply elem_of_cons in Hin as [[= <- <-]|Hin].
    + by rewrite decide_True.
    + case_decide as Hkd; [|by apply IH].
      subst. exfalso. apply Hk. apply list_elem_of_fmap. by exists (d, r).
Qed.

Lemma dict_get_is_Some {V} (m : list (string * V)) d :
  d ∈ dict_keys m -> is_Some (dict_get m d).
Proof.
  unfold dict_keys. induction m as [|[k w] m IH]; simpl; intros Hin.
  - by apply elem_of_nil in Hin.
  - case_decide; [by eexists|]. apply IH.
    apply elem_of_cons in Hin as [->|]; done.
Qed.

Lemma NoDup_DAYS : NoDup DAYS.
Proof. compute_done. Qed.

(** In a grid of the right shape every cell of a weekday exists. *)
Lemma shape_cell P g d (p : Z) :
  shape P g -> d ∈ DAYS -> 0 <= p < P -> is_Some (grid_get g d (Z.to_nat p)).
Proof.
  intros [Hk Hl] Hd Hp. unfold grid_get.
  destruct (dict_get_is_Some g d) as [row Hrow]; [by rewrite Hk|].
  rewrite Hrow. simpl. apply lookup_lt_is_Some_2.
  apply dict_get_Some_elem in Hrow.
  rewrite Forall_forall in Hl. specialize (Hl _ Hrow). simpl in Hl. lia.
Qed.

Lemma shape_row P g d row :
  shape P g -> (d, row) ∈ g ->
  d ∈ DAYS /\ length row = Z.to_nat P /\ dict_get g d = Some row.
Proof.
  intros [Hk Hl] Hin. split_and!.
  - rewrite <- Hk. unfold dict_keys. apply list_elem_of_fmap. by exists (d, row).
  - rewrite Forall_forall in Hl. apply (Hl _ Hin).
  - apply dict_get_elem; [|done]. rewrite Hk. apply NoDup_DAYS.
Qed.
End GridFacts.

(** ** The shuffle *)

Section ShuffleFacts.
Context {A : Type}.
Implicit Types (x : list A).

Lemma length_list_swap x i j : length (list_swap x i j) = length x.
Proof.
  unfold list_swap. destruct (x !! i), (x !! j); try done.
  by rewrite !length_insert.
Qed.

Lemma list_swap_perm x i j : list_swap x i j ≡ₚ x.
Proof.
  unfold list_swap.
  destruct (x !! i) as [xi|] eqn:Hi; [|done].
  destruct (x !! j) as [xj|] eqn:Hj; [|done].
  destruct (decide (i = j)) as [->|Hij].
  - assert (xi = xj) as -> by congruence.
    rewrite list_insert_insert_eq. by rewrite list_insert_id.
  - apply Permutation_inj. split; [by rewrite !length_insert|].
    exists (fun k => if decide (k = i) then j
                     else if decide (k = j) then i else k).
    split.
    + intros a b Hab. repeat case_decide; subst; congruence.
    + intros k. cbv beta.
      destruct (decide (k = i)) as [->|Hki];
        [|destruct (decide (k = j)) as [->|Hkj]].
      * rewrite list_lookup_insert_ne by done.
        rewrite list_lookup_insert_eq by (by eapply lookup_lt_Some).
        congruence.
      * rewrite list_lookup_insert_eq
          by (rewrite length_insert; by eapply lookup_lt_Some).
        congruence.
      * by rewrite !list_lookup_insert_ne.
Qed.

Lemma shuffle_go_perm draw k i x : shuffle_go draw k i x ≡ₚ x.
Proof.
  revert k x. induction i as [|i IH]; intros k x; simpl; [done|].
  rewrite IH. apply list_swap_perm.
Qed.

(** The shuffled list is a permutation of the labels. *)
Lemma shuffle_perm draw x : shuffle draw x ≡ₚ x.
Proof. apply shuffle_go_perm. Qed.
End ShuffleFacts.

(** ** The greedy solver: what a placement may change *)

Lemma changed_ok_refl g day label tgt : changed_ok g g day label tgt.
Proof. intros d q. by left. Qed.

Lemma changed_ok_trans g1 g2 g3 day label tgt :
  changed_ok g1 g2 day label tgt -> changed_ok g2 g3 day label tgt ->
  changed_ok g1 g3 day label tgt.
Proof.
  intros H12 H23 d q.
  destruct (H23 d q) as [E|(E & -> & [E2|Ht])].
  - rewrite E. apply H12.
  - right. split_and!; [done..|].
    destruct (H12 day q) as [E1|(E1 & _ & H)]; [left; congruence | done].
  - right. split_and!; [done..|]. by right.
Qed.

Lemma changed_ok_set_empty g day p label tgt :
  cell_empty g day p = true ->
  changed_ok g (grid_set g day p label) day label tgt.
Proof.
  intros He d q. apply bool_decide_eq_true in He.
  rewrite grid_get_set. case_decide as Hc; [|by left].
  destruct Hc as [-> ->]. right. rewrite He. simpl. auto.
Qed.

Lemma changed_ok_set_forced g day p label :
  changed_ok g (grid_set g day p label) day label (Some p).
Proof.
  intros d q. rewrite grid_get_set. case_decide as Hc; [|by left].
  destruct Hc as [-> ->].
  destruct (grid_get g day p) eqn:E; simpl; [|by left].
  right. auto.
Qed.

Section GreedyFacts.
Variables (idx : CourseIndex) (P : Z) (lunch_idx : option Z).

Lemma place_first_ok g day pis label tgt g' :
  Greedy.place_first g day pis label = Some g' ->
  shape P g -> shape P g' /\ changed_ok g g' day label tgt.
Proof.
  induction pis as [|p pis IH]; simpl; [done|].
  destruct (cell_empty g day (Z.to_nat p)) eqn:He; [|done].
  intros [= <-] Hs. split; [by apply shape_grid_set|].
  by apply changed_ok_set_empty.
Qed.

Lemma fill_empty_ok g day pis label tgt :
  shape P g ->
  shape P (Greedy.fill_empty g day pis label) /\
  changed_ok g (Greedy.fill_empty g day pis label) day label tgt.
Proof.
  unfold Greedy.fill_empty. revert g.
  induction pis as [|p pis IH]; simpl; intros g Hs.
  - split; [done|apply changed_ok_refl].
  - destruct (cell_empty g day (Z.to_nat p)) eqn:He.
    + destruct (IH (grid_set g day (Z.to_nat p) label)) as [Hs' Hc];
        [by apply shape_grid_set|].
      split; [done|]. eapply changed_ok_trans; [|exact Hc].
      by apply changed_ok_set_empty.
    + by apply IH.
Qed.

Lemma force_first_ok g day pis label :
  shape P g ->
  shape P (Greedy.force_first g day pis label) /\
  changed_ok g (Greedy.force_first g day pis label) day label
    (Z.to_nat <$> head pis).
Proof.
  destruct pis as [|p pis]; simpl; intros Hs.
  - split; [done|apply changed_ok_refl].
  - split; [by apply shape_grid_set|apply changed_ok_set_forced].
Qed.

Lemma place_one_ok g day pis label :
  shape P g ->
  shape P (Greedy.place_one g day pis label) /\
  changed_ok g (Greedy.place_one g day pis label) day label
    (Z.to_nat <$> head pis).
Proof.
  unfold Greedy.place_one. intros Hs.
  destruct (Greedy.place_first g day pis label) as [g'|] eqn:E.
  - by eapply place_first_ok.
  - by apply force_first_ok.
Qed.

Lemma place_constraint_ok g c :
  shape P g ->
  shape P (Greedy.place_constraint idx P lunch_idx g c) /\
  changed_ok g (Greedy.place_constraint idx P lunch_idx g c)
    (Greedy.cons_day_name c) (written_label idx c)
    (forced_target P lunch_idx c).
Proof.
  intros Hs. unfold Greedy.place_constraint, written_label, forced_target.
  repeat (case_match; try (split; [done|apply changed_ok_refl])).
  - by apply place_one_ok.
  - by apply fill_empty_ok.
  - by apply place_one_ok.
Qed.

Lemma shape_place_constraints g cs :
  shape P g -> shape P (Greedy.place_constraints idx P lunch_idx g cs).
Proof.
  intros Hs. unfold Greedy.place_constraints.
  apply foldl_invariant; [done|]. intros g' c _ Hg'.
  by apply place_constraint_ok.
Qed.
End GreedyFacts.

(** ** The greedy solver: the filling loops *)

Section FillFacts.
Variables (P : Z) (lunch_idx : option Z) (shuffled : list string).
Hypothesis shuffled_ne : shuffled ≠ [].
Hypothesis shuffled_lab : forall v, v ∈ shuffled -> v ≠ "".

Lemma shuffled_pick (i : nat) :
  default "" (shuffled !! (i mod length shuffled)%nat) ∈ shuffled.
Proof using shuffled_ne.
  destruct (lookup_lt_is_Some_2 shuffled (i mod length shuffled)%nat) as [v Hv].
  - apply Nat.mod_upper_bound. intros H0. by apply shuffled_ne, nil_length_inv.
  - rewrite Hv. simpl. by eapply list_elem_of_lookup_2.
Qed.

Lemma shape_fill_cell st pd :
  shape P st.1 -> shape P (Greedy.fill_cell lunch_idx shuffled st pd).1.
Proof using Type.
  destruct st as [g i], pd as [p d]. unfold Greedy.fill_cell. simpl.
  intros Hs. repeat case_match; simpl; try done; by apply shape_grid_set.
Qed.

Lemma fill_cell_filled g0 st pd :
  0 <= pd.1 ->
  filled_from lunch_idx shuffled g0 st.1 ->
  filled_from lunch_idx shuffled g0 (Greedy.fill_cell lunch_idx shuffled st pd).1.
Proof using shuffled_ne.
  destruct st as [g i], pd as [p d]. unfold Greedy.fill_cell. simpl.
  intros Hp HJ.
  destruct (bool_decide (lunch_idx = Some p)) eqn:Hl; simpl.
  - apply bool_decide_eq_true in Hl. intros d' q. rewrite grid_get_set.
    case_decide as Hc; [|apply HJ]. destruct Hc as [-> ->].
    destruct (grid_get g d (Z.to_nat p)) eqn:E; simpl.
    + right; right. split; [|done]. rewrite Hl. f_equal. lia.
    + rewrite <- E. apply HJ.
  - apply bool_decide_eq_false in Hl.
    destruct (cell_empty g d (Z.to_nat p)) eqn:He; simpl; [|done].
    apply bool_decide_eq_true in He.
    intros d' q. rewrite grid_get_set.
    case_decide as Hc; [|apply HJ]. destruct Hc as [-> ->].
    rewrite He. simpl. right; left. split.
    + destruct (HJ d (Z.to_nat p)) as [E|[[E _]|[E _]]].
      * congruence.
      * done.
      * exfalso. apply Hl. rewrite E. f_equal. lia.
    + eexists. split; [done|]. apply shuffled_pick.
Qed.

Lemma elem_of_fill_order (p : Z) (d : string) :
  (p, d) ∈ (p ← periods_range P; d ← DAYS; [(p, d)]) <->
  0 <= p < P /\ d ∈ DAYS.
Proof using Type.
  rewrite list_elem_of_bind. split.
  - intros (p' & Hin & Hp'). apply elem_of_periods_range in Hp'.
    apply list_elem_of_bind in Hin as (d' & Hin & Hd').
    apply list_elem_of_singleton in Hin as [= -> ->]. done.
  - intros [Hp Hd]. exists p. split; [|by apply elem_of_periods_range].
    apply list_elem_of_bind. exists d. split; [|done].
    by apply list_elem_of_singleton.
Qed.

Lemma shape_fill_rest g :
  shape P g -> shape P (Greedy.fill_rest P lunch_idx shuffled g).
Proof using Type.
  intros Hs. unfold Greedy.fill_rest.
  apply (foldl_invariant _ (fun st => shape P st.1)); [done|].
  intros st pd _. apply shape_fill_cell.
Qed.

Lemma fill_rest_filled g :
  filled_from lunch_idx shuffled g (Greedy.fill_rest P lunch_idx shuffled g).
Proof using shuffled_ne.
  unfold Greedy.fill_rest.
  apply (foldl_invariant _ (fun st => filled_from lunch_idx shuffled g st.1)).
  - intros d q. by left.
  - intros st [p d] Hin. apply elem_of_fill_order in Hin.
    apply fill_cell_filled. simpl. lia.
Qed.

(** After the filling loops every cell of the week holds a non-empty
    string, the lunch token in the lunch column. *)
Lemma fill_rest_cell g d (p : Z) :
  shape P g -> d ∈ DAYS -> 0 <= p < P ->
  exists v, grid_get (Greedy.fill_rest P lunch_idx shuffled g) d (Z.to_nat p) = Some v
            /\ v ≠ "" /\ (lunch_idx = Some p -> v = LUNCH).
Proof using shuffled_ne shuffled_lab.
  intros Hs Hd Hp. unfold Greedy.fill_rest.
  apply (foldl_establish _ (fun st => shape P st.1)
           (fun st => exists v, grid_get st.1 d (Z.to_nat p) = Some v
                                /\ v ≠ "" /\ (lunch_idx = Some p -> v = LUNCH))
           (p, d)).
  - by apply elem_of_fill_order.
  - done.
  - intros st pd _. apply shape_fill_cell.
  - intros [g' i] Hs'. simpl in Hs'. unfold Greedy.fill_cell.
    destruct (shape_cell P g' d p Hs' Hd Hp) as [w Hw].
    destruct (bool_decide (lunch_idx = Some p)) eqn:Hl; simpl.
    + exists LUNCH. split_and!; [|done..].
      apply grid_get_set_same. by eexists.
    + apply bool_decide_eq_false in Hl.
      destruct (cell_empty g' d (Z.to_nat p)) eqn:He; simpl.
      * eexists. split_and!; [apply grid_get_set_same; by eexists| |done].
        apply shuffled_lab, shuffled_pick.
      * exists w. split_and!; [done| |done].
        intros ->. apply bool_decide_eq_false in He. done.
  - intros [g' i] [p' d'] _ _ (v & Hv & Hne & Hlv). simpl in *.
    unfold Greedy.fill_cell.
    destruct (bool_decide (lunch_idx = Some p')) eqn:Hl; simpl.
    + apply bool_decide_eq_true in Hl. rewrite grid_get_set.
      case_decide as Hc; [|by exists v]. destruct Hc as [-> Hc].
      rewrite <- Hc, Hv. simpl. exists LUNCH. done.
    + destruct (cell_empty g' d' (Z.to_nat p')) eqn:He; simpl; [|by exists v].
      apply bool_decide_eq_true in He. clear Hl. rewrite grid_get_set.
      case_decide as Hc; [|by exists v]. destruct Hc as [-> Hc].
      rewrite <- Hc in He. congruence.
Qed.
End FillFacts.

(** ** The greedy solver as a whole *)

Lemma or_else_nonempty (a b : string) : b ≠ "" -> PyStr.or_else a b ≠ "".
Proof. unfold PyStr.or_else. destruct a; simpl; done. Qed.

Lemma or_else_empty_r (a : string) : PyStr.or_else a "" = a.
Proof. by destruct a. Qed.

Lemma filler_label_nonempty (c : Course) : Greedy.filler_label c ≠ "".
Proof. unfold Greedy.filler_label. by do 2 apply or_else_nonempty. Qed.

Lemma filler_labels_ne (courses : list Course) : Greedy.filler_labels courses ≠ [].
Proof. unfold Greedy.filler_labels. by destruct courses. Qed.

Lemma filler_labels_nonempty (courses : list Course) (v : string) :
  v ∈ Greedy.filler_labels courses -> v ≠ "".
Proof.
  unfold Greedy.filler_labels. destruct courses as [|c cs].
  - simpl. intros ->%list_elem_of_singleton. done.
  - simpl. intros [->|(c' & -> & _)%list_elem_of_fmap]%elem_of_cons;
      apply filler_label_nonempty.
Qed.

Section GreedySolverFacts.
Variables (draw : nat -> nat) (courses : list Course)
          (constraints : list Constraint) (P lunch : Z).

Local Abbreviation shuffled := (shuffle draw (Greedy.filler_labels courses)).

Lemma shuffled_ne : shuffled ≠ [].
Proof.
  intros H. apply (filler_labels_ne courses).
  apply Permutation_nil_r. rewrite <- H. symmetry. apply shuffle_perm.
Qed.

Lemma shuffled_nonempty v : v ∈ shuffled -> v ≠ "".
Proof.
  intros Hv. apply (filler_labels_nonempty courses).
  by rewrite <- (shuffle_perm draw).
Qed.

Lemma greedy_shape : shape P (greedy_csp_solver draw courses constraints P lunch).
Proof.
  unfold greedy_csp_solver.
  apply shape_fill_rest, shape_place_constraints, shape_empty_grid.
Qed.

Lemma greedy_cell d (p : Z) :
  d ∈ DAYS -> 0 <= p < P ->
  exists v,
    grid_get (greedy_csp_solver draw courses constraints P lunch) d (Z.to_nat p)
      = Some v
    /\ v ≠ "" /\ (lunch_idx_of P lunch = Some p -> v = LUNCH).
Proof.
  intros Hd Hp. unfold greedy_csp_solver.
  apply fill_rest_cell; try done.
  - apply shuffled_ne.
  - apply shuffled_nonempty.
  - apply shape_place_constraints, shape_empty_grid.
Qed.

Lemma greedy_filled :
  filled_from (lunch_idx_of P lunch) shuffled
    (Greedy.place_constraints (index_courses courses) P (lunch_idx_of P lunch)
       (empty_grid P) constraints)
    (greedy_csp_solver draw courses constraints P lunch).
Proof. apply fill_rest_filled, shuffled_ne. Qed.
End GreedySolverFacts.

(** Rows and cells of a grid of the right shape, read through [grid_get]. *)
Lemma shape_row_cell (P : Z) (g : Grid) (day : string) (row : list string)
    (q : nat) (cell : string) :
  shape P g -> (day, row) ∈ g -> row !! q = Some cell ->
  day ∈ DAYS /\ 0 <= Z.of_nat q < P /\ grid_get g day q = Some cell.
Proof.
  intros Hs Hin Hq. destruct (shape_row P g day row Hs Hin) as (Hd & Hlen & Hget).
  split_and!; [done|lia| |].
  - apply lookup_lt_Some in Hq. lia.
  - unfold grid_get. rewrite Hget. done.
Qed.

Lemma shape_row_length (P : Z) (g : Grid) (day : string) (row : list string) :
  0 <= P -> shape P g -> (day, row) ∈ g -> Z.of_nat (length row) = P.
Proof.
  intros HP Hs Hin. destruct (shape_row P g day row Hs Hin) as (_ & Hlen & _). lia.
Qed.

(** ** Decoding a solution of the exact solver *)

Section DecodeFacts.
Variables (idx : CourseIndex) (P : Z) (lunch_idx : option Z)
          (a : CpModel.Assignment).

Lemma shape_decode : shape P (CpModel.decode idx P lunch_idx a).
Proof.
  unfold CpModel.decode.
  apply foldl_invariant; [apply shape_empty_grid|].
  intros g dday _ Hg. apply foldl_invariant; [done|].
  intros g' p _ Hg'. by apply shape_grid_set.
Qed.

Lemma elem_of_enumerate_days d :
  d ∈ DAYS -> exists i, (i, d) ∈ imap (fun i day => (i, day)) DAYS.
Proof.
  intros (i & Hi)%list_elem_of_lookup_1. exists i.
  apply elem_of_lookup_imap. by exists i, d.
Qed.

(** Every cell of the lunch column is written with the lunch token. *)
Lemma decode_lunch d (l : Z) :
  lunch_idx = Some l -> 0 <= l < P -> d ∈ DAYS ->
  grid_get (CpModel.decode idx P lunch_idx a) d (Z.to_nat l) = Some LUNCH.
Proof.
  intros Hl Hlp Hd. unfold CpModel.decode.
  destruct (elem_of_enumerate_days d Hd) as [i Hi].
  assert (Hcell : forall g day' i' p,
    p ∈ periods_range P ->
    grid_get g d (Z.to_nat l) = Some LUNCH ->
    grid_get (grid_set g day' (Z.to_nat p)
                (CpModel.decode_cell idx lunch_idx a i' p)) d (Z.to_nat l)
    = Some LUNCH).
  { intros g day' i' p Hp Hg. apply elem_of_periods_range in Hp.
    rewrite grid_get_set. case_decide as Hc; [|done].
    destruct Hc as [-> Hc]. rewrite <- Hc, Hg. simpl.
    assert (p = l) as -> by lia.
    unfold CpModel.decode_cell. by rewrite bool_decide_eq_true_2. }
  assert (Hshape : forall g dday,
    shape P g ->
    shape P (foldl (fun g p => grid_set g dday.2 (Z.to_nat p)
                                 (CpModel.decode_cell idx lunch_idx a dday.1 p))
               g (periods_range P))).
  { intros g dday Hg. apply foldl_invariant; [done|].
    intros g' p _ Hg'. by apply shape_grid_set. }
  apply (foldl_establish _ (shape P)
           (fun g => grid_get g d (Z.to_nat l) = Some LUNCH) (i, d)).
  - done.
  - apply shape_empty_grid.
  - intros g dday _. apply Hshape.
  - intros g Hg. simpl.
    apply (foldl_establish _ (shape P)
             (fun g => grid_get g d (Z.to_nat l) = Some LUNCH) l).
    + by apply elem_of_periods_range.
    + done.
    + intros g' p _ Hg'. by apply shape_grid_set.
    + intros g' Hg'. rewrite grid_get_set_same by (by apply (shape_cell P)).
      unfold CpModel.decode_cell. by rewrite bool_decide_eq_true_2.
    + intros g' p Hp _ Hg'. by apply Hcell.
  - intros g dday _ Hs Hg.
    apply (foldl_invariant _
             (fun g => grid_get g d (Z.to_nat l) = Some LUNCH)); [done|].
    intros g' p Hp Hg'. by apply Hcell.
Qed.
End DecodeFacts.

(** ** Local improvement *)

Lemma elem_of_list_insert_inv {A} (l : list A) (i : nat) (x y : A) :
  y ∈ <[i := x]> l -> y = x \/ y ∈ l.
Proof.
  intros (k & Hk)%list_elem_of_lookup_1.
  apply list_lookup_insert_Some in Hk as [(-> & -> & _)|[_ Hk]]; [by left|].
  right. by eapply list_elem_of_lookup_2.
Qed.

Lemma sample2_elem {A} (r1 r2 : nat) (slots : list A) (a b : A) :
  Dashboard.sample2 r1 r2 slots = Some (a, b) -> a ∈ slots /\ b ∈ slots.
Proof.
  unfold Dashboard.sample2. intros H.
  destruct (slots !! (r1 mod length slots)%nat) as [a'|] eqn:Ha; [|done].
  destruct (slots !! (length slots - 1)%nat) as [lst|] eqn:Hlast; [|done].
  simpl in H.
  destruct (<[(r1 mod length slots)%nat := lst]> slots
              !! (r2 mod (length slots - 1))%nat) as [b'|] eqn:Hb; [|done].
  simpl in H. injection H as <- <-. split.
  - by eapply list_elem_of_lookup_2.
  - apply list_elem_of_lookup_2 in Hb.
    apply elem_of_list_insert_inv in Hb as [->|Hb]; [|done].
    by eapply list_elem_of_lookup_2.
Qed.

(** [random.sample] succeeds on two slots or more. *)
Lemma sample2_is_Some {A} (r1 r2 : nat) (slots : list A) :
  (2 <= length slots)%nat -> is_Some (Dashboard.sample2 r1 r2 slots).
Proof.
  intros Hlen. unfold Dashboard.sample2.
  destruct (lookup_lt_is_Some_2 slots (r1 mod length slots)%nat) as [a ->].
  { apply Nat.mod_upper_bound. lia. }
  destruct (lookup_lt_is_Some_2 slots (length slots - 1)%nat) as [lst ->]; [lia|].
  simpl.
  destruct (lookup_lt_is_Some_2 (<[(r1 mod length slots)%nat := lst]> slots)
              (r2 mod (length slots - 1))%nat) as [b ->].
  { rewrite length_insert.
    assert ((r2 mod (length slots - 1)) < length slots - 1)%nat
      by (apply Nat.mod_upper_bound; lia). lia. }
  simpl. by eexists.
Qed.

Lemma elem_of_slots_of (ndays periods : nat) (lunch_idx : option Z) (di p : nat) :
  (di, p) ∈ Dashboard.slots_of ndays periods lunch_idx <->
  (di < ndays)%nat /\ (p < periods)%nat /\ lunch_idx ≠ Some (Z.of_nat p).
Proof.
  unfold Dashboard.slots_of. rewrite list_elem_of_bind. split.
  - intros (di' & Hin & Hdi). apply elem_of_seq in Hdi.
    apply list_elem_of_bind in Hin as (p' & Hin & Hp). apply elem_of_seq in Hp.
    case_bool_decide as Hl; [by apply elem_of_nil in Hin|].
    apply list_elem_of_singleton in Hin as [= -> ->]. split_and!; [lia..|done].
  - intros (Hdi & Hp & Hl). exists di. split; [|apply elem_of_seq; lia].
    apply list_elem_of_bind. exists p. split; [|apply elem_of_seq; lia].
    rewrite bool_decide_eq_false_2 by done. by apply list_elem_of_singleton.
Qed.

Lemma swap_cells_get_other best day_a pa day_b pb va vb d q :
  q ≠ pa -> q ≠ pb ->
  grid_get (Dashboard.swap_cells best day_a pa day_b pb va vb) d q
  = grid_get best d q.
Proof.
  intros Ha Hb. unfold Dashboard.swap_cells.
  rewrite !grid_get_set_other; [done|congruence..].
Qed.

Lemma is_swap_of_column lunch_idx best b d q :
  is_swap_of lunch_idx best b -> lunch_idx = Some (Z.of_nat q) ->
  grid_get b d q = grid_get best d q.
Proof.
  intros (day_a & pa & day_b & pb & va & vb & _ & _ & _ & Ha & Hb & ->) Hl.
  apply swap_cells_get_other; intros ->; congruence.
Qed.

Lemma is_swap_of_shape lunch_idx best b P :
  is_swap_of lunch_idx best b -> shape P best -> shape P b.
Proof.
  intros (day_a & pa & day_b & pb & va & vb & _ & _ & _ & _ & _ & ->) Hs.
  unfold Dashboard.swap_cells. by do 2 apply shape_grid_set.
Qed.

Section ImproveFacts.
Variable validate : Grid -> bool * list Dashboard.Msg.
Variable high_water : nat -> nat -> nat -> bool.
Variable draw : nat -> nat.
Variable lunch_idx : option Z.

Local Abbreviation improve_iter := (Dashboard.improve_iter validate high_water draw).
Local Abbreviation improve_loop := (Dashboard.improve_loop validate high_water draw).

Lemma improve_iter_kept days periods slots k best best_score :
  (forall s, s ∈ slots -> lunch_idx ≠ Some (Z.of_nat s.2)) ->
  kept_or_reverted validate lunch_idx best best_score
    (improve_iter days periods slots k best best_score).
Proof.
  intros Hslots. unfold Dashboard.improve_iter.
  destruct (Dashboard.sample2 _ _ slots) as [[[da pa] [db pb]]|] eqn:Hs; [|done].
  apply sample2_elem in Hs as [Ha Hb].
  apply Hslots in Ha, Hb. simpl in Ha, Hb.
  destruct (days !! da) as [day_a|]; [|done].
  destruct (days !! db) as [day_b|]; [|done].
  destruct (grid_get best day_a pa) as [va|] eqn:Hva; [|done].
  destruct (grid_get best day_b pb) as [vb|] eqn:Hvb; [|done].
  destruct (String.eqb va vb) eqn:Heq; [by left|].
  apply String.eqb_neq in Heq.
  assert (is_swap_of lunch_idx best
            (Dashboard.swap_cells best day_a pa day_b pb va vb)) as Hswap.
  { exists day_a, pa, day_b, pb, va, vb. done. }
  destruct (validate _).1 eqn:Hv; simpl; [|by left].
  destruct (Nat.ltb_spec best_score
              (Dashboard._diversity_score
                 (Dashboard.swap_cells best day_a pa day_b pb va vb)));
    [|by left].
  destruct (high_water _ _ _); simpl; [done|]. right. done.
Qed.

(** The loop never lowers the score, answers the grid it started from or a
    valid grid, and leaves the lunch column as it was. *)
Lemma improve_loop_inv days periods slots iters k best best_score r :
  (forall s, s ∈ slots -> lunch_idx ≠ Some (Z.of_nat s.2)) ->
  best_score = Dashboard._diversity_score best ->
  improve_loop days periods slots iters k best best_score = Some r ->
  (best_score <= Dashboard._diversity_score r)%nat
  /\ (r = best \/ (validate r).1 = true)
  /\ (forall d q, lunch_idx = Some (Z.of_nat q) ->
                  grid_get r d q = grid_get best d q)
  /\ (forall P, shape P best -> shape P r).
Proof.
  intros Hslots. revert k best best_score.
  induction iters as [|iters IH]; intros k best best_score Hsc; simpl.
  - intros [= <-]. subst. split_and!; [lia|by left|done|done].
  - pose proof (improve_iter_kept days periods slots k best best_score Hslots) as Hk.
    destruct (Dashboard.improve_iter validate high_water draw
                days periods slots k best best_score)
      as [b s|b|]; simpl in Hk; [| |done].
    + intros Hr. destruct Hk as [[-> ->]|(Hsw & Hv & -> & Hlt)].
      * by apply (IH (S k)).
      * apply (IH (S k)) in Hr as (Hle & Hor & Hcol & Hsh); [|done].
        split_and!; [lia| | |].
        -- right. destruct Hor as [->|]; done.
        -- intros d q Hl. rewrite Hcol by done. by eapply is_swap_of_column.
        -- intros P HP. apply Hsh. by eapply is_swap_of_shape.
    + intros [= <-]. destruct Hk as (Hsw & Hv & Hlt).
      split_and!; [lia|by right| |].
      * intros d q Hl. by eapply is_swap_of_column.
      * intros P HP. by eapply is_swap_of_shape.
Qed.

Lemma improve_result grid max_iters :
  let r := Dashboard._improve_grid_via_swaps validate high_water draw
             grid max_iters lunch_idx in
  (Dashboard._diversity_score grid <= Dashboard._diversity_score r)%nat
  /\ (r = grid \/ (validate r).1 = true)
  /\ (forall d q, lunch_idx = Some (Z.of_nat q) ->
                  grid_get r d q = grid_get grid d q)
  /\ (forall P, shape P grid -> shape P r).
Proof.
  unfold Dashboard._improve_grid_via_swaps.
  destruct (_ <? 2)%nat; [split_and!; [lia|by left|done|done]|].
  destruct (Dashboard.improve_loop _ _ _ _ _ _ _ _ _ _) as [r|] eqn:Hr; simpl;
    [|split_and!; [lia|by left|done|done]].
  eapply improve_loop_inv; [|reflexivity|exact Hr].
  intros [di p] (_ & _ & Hl)%elem_of_slots_of. done.
Qed.
End ImproveFacts.

(** ** The orchestrator *)

Section RunSolverFacts.
Context {Seconds : Type}.
Variables (avail : bool)
          (cp_solve : Seconds -> CpModel.Model -> option CpModel.Assignment)
          (draw : nat -> nat) (payload : Payload (Seconds := Seconds)).

Lemma run_solver_cases :
  run_solver avail cp_solve draw payload
  = greedy_csp_solver draw (pl_courses payload) (pl_constraints payload)
      (pl_periods payload) (pl_lunch payload)
  \/ exists a,
      run_solver avail cp_solve draw payload
      = CpModel.decode (index_courses (pl_courses payload)) (pl_periods payload)
          (lunch_idx_of (pl_periods payload) (pl_lunch payload)) a.
Proof.
  unfold run_solver, run_ortools_solver. destruct avail; simpl; [|by left].
  destruct (cp_solve _ _) as [a|]; [|by left].
  case_bool_decide; [by left|]. right. by exists a.
Qed.

Lemma run_solver_shape :
  shape (pl_periods payload) (run_solver avail cp_solve draw payload).
Proof.
  destruct run_solver_cases as [->|[a ->]];
    [apply greedy_shape|apply shape_decode].
Qed.

Lemma run_solver_lunch d l :
  lunch_idx_of (pl_periods payload) (pl_lunch payload) = Some l ->
  d ∈ DAYS ->
  grid_get (run_solver avail cp_solve draw payload) d (Z.to_nat l) = Some LUNCH.
Proof.
  intros Hl Hd.
  assert (0 <= l < pl_periods payload) as Hrange
    by (apply lunch_idx_of_Some in Hl; lia).
  destruct run_solver_cases as [->|[a ->]].
  - destruct (greedy_cell draw (pl_courses payload) (pl_constraints payload)
                (pl_periods payload) (pl_lunch payload) d l Hd Hrange)
      as (v & Hv & _ & Hlv).
    rewrite Hv. f_equal. by apply Hlv.
  - by apply decode_lunch.
Qed.
End RunSolverFacts.

(** ** The shape of the response *)

(** C1. For every request with [periods > 0], the keys of the grid that
    [run_solver] returns are exactly Monday to Friday, every day's row has
    exactly [periods] cells (strings, [""] being a free cell), and with a
    lunch period configured every row holds ["LUNCH"] at that period. *)
Theorem C1_run_solver_grid_shape {Seconds : Type} (avail : bool)
    (cp_solve : Seconds -> CpModel.Model -> option CpModel.Assignment)
    (draw : nat -> nat) (payload : Payload (Seconds := Seconds)) :
  0 < pl_periods payload ->
  let grid := run_solver avail cp_solve draw payload in
  dict_keys grid = ["Monday"; "Tuesday"; "Wednesday"; "Thursday"; "Friday"]
  /\ (forall day row, (day, row) ∈ grid ->
        Z.of_nat (length row) = pl_periods payload)
  /\ (forall day row, (day, row) ∈ grid ->
        1 <= pl_lunch payload <= pl_periods payload ->
        row !! Z.to_nat (pl_lunch payload - 1) = Some "LUNCH").
Proof.
  intros HP grid.
  pose proof (run_solver_shape avail cp_solve draw payload) as Hs.
  fold grid in Hs. split_and!.
  - apply Hs.
  - intros day row Hin. eapply shape_row_length; [lia|exact Hs|exact Hin].
  - intros day row Hin Hl.
    destruct (shape_row _ _ _ _ Hs Hin) as (Hd & _ & Hget).
    pose proof (run_solver_lunch avail cp_solve draw payload day
                  (pl_lunch payload - 1)) as Hlunch.
    fold grid in Hlunch. unfold grid_get in Hlunch. rewrite Hget in Hlunch.
    apply Hlunch; [|done]. apply lunch_idx_of_Some. lia.
Qed.

Lemma C1_witness :
  let grid := run_solver false (fun _ _ => None) (fun _ => 0%nat) payload_ex in
  dict_keys grid = ["Monday"; "Tuesday"; "Wednesday"; "Thursday"; "Friday"]
  /\ (forall day row, (day, row) ∈ grid -> Z.of_nat (length row) = 4)
  /\ (forall day row, (day, row) ∈ grid -> 1 <= 3 <= 4 ->
        row !! Z.to_nat (3 - 1) = Some "LUNCH").
Proof.
  apply (C1_run_solver_grid_shape false (fun _ _ => None) (fun _ => 0%nat)
           payload_ex).
  simpl. lia.
Defined.

(** ** The lunch column *)

(** C2. When [lunch > 0], every cell at index [lunch - 1] of a row of the
    grid [run_solver] returns is ["LUNCH"], and so is every such cell of the
    grid after [_improve_grid_via_swaps]; when [lunch] is one of the periods,
    that cell exists on each of the five days, no slot of the sampling pool
    lies in the lunch column, so no sampled swap endpoint does, and the pass
    leaves the lunch column of any grid as it was. *)
Theorem C2_lunch_column {Seconds : Type} (avail : bool)
    (cp_solve : Seconds -> CpModel.Model -> option CpModel.Assignment)
    (draw : nat -> nat) (payload : Payload (Seconds := Seconds))
    (validate : Grid -> bool * list Dashboard.Msg)
    (high_water : nat -> nat -> nat -> bool) (draw' : nat -> nat)
    (max_iters : nat) :
  let P := pl_periods payload in
  let lunch := pl_lunch payload in
  let lunch_idx := lunch_idx_of P lunch in
  let improve g :=
    Dashboard._improve_grid_via_swaps validate high_water draw' g max_iters
      lunch_idx in
  let grid := run_solver avail cp_solve draw payload in
  0 < lunch ->
  (forall day row cell, (day, row) ∈ grid ->
     row !! Z.to_nat (lunch - 1) = Some cell -> cell = "LUNCH")
  /\ (forall day row cell, (day, row) ∈ improve grid ->
        row !! Z.to_nat (lunch - 1) = Some cell -> cell = "LUNCH")
  /\ (lunch <= P ->
      (forall day, day ∈ DAYS ->
         grid_get grid day (Z.to_nat (lunch - 1)) = Some "LUNCH"
         /\ grid_get (improve grid) day (Z.to_nat (lunch - 1)) = Some "LUNCH")
      /\ (forall ndays periods r1 r2 a b,
            Dashboard.sample2 r1 r2 (Dashboard.slots_of ndays periods lunch_idx)
            = Some (a, b) ->
            Z.of_nat a.2 ≠ lunch - 1 /\ Z.of_nat b.2 ≠ lunch - 1)
      /\ (forall g day,
            grid_get (improve g) day (Z.to_nat (lunch - 1))
            = grid_get g day (Z.to_nat (lunch - 1)))).
Proof.
  intros P lunch lunch_idx improve grid H0.
  assert (Hcol : lunch <= P -> forall g day,
            grid_get (improve g) day (Z.to_nat (lunch - 1))
            = grid_get g day (Z.to_nat (lunch - 1))).
  { intros HP g day.
    destruct (improve_result validate high_water draw' lunch_idx g max_iters)
      as (_ & _ & Hc & _).
    apply Hc. unfold lunch_idx. rewrite (proj2 (lunch_idx_of_Some P lunch (lunch - 1)))
      by lia. f_equal. lia. }
  assert (Hgrid : lunch <= P -> forall day, day ∈ DAYS ->
            grid_get grid day (Z.to_nat (lunch - 1)) = Some LUNCH).
  { intros HP day Hd. apply run_solver_lunch; [|done].
    apply lunch_idx_of_Some. fold P lunch. lia. }
  assert (Hs : shape P grid) by apply run_solver_shape.
  assert (Hs' : shape P (improve grid)).
  { destruct (improve_result validate high_water draw' lunch_idx grid max_iters)
      as (_ & _ & _ & Hsh). by apply Hsh. }
  assert (Hcells : forall g, shape P g ->
            (lunch <= P -> forall day, day ∈ DAYS ->
               grid_get g day (Z.to_nat (lunch - 1)) = Some LUNCH) ->
            forall day row cell, (day, row) ∈ g ->
              row !! Z.to_nat (lunch - 1) = Some cell -> cell = LUNCH).
  { intros g Hg Hl day row cell Hin Hq.
    destruct (shape_row_cell _ _ _ _ _ _ Hg Hin Hq) as (Hd & Hr & Hget).
    rewrite Hl in Hget; [congruence|lia|done]. }
  split_and!.
  - by apply Hcells.
  - apply Hcells; [done|]. intros HP day Hd. rewrite Hcol by done. by apply Hgrid.
  - intros HP. split_and!.
    + intros day Hd. split; [by apply Hgrid|]. rewrite Hcol by done. by apply Hgrid.
    + intros ndays periods r1 r2 [da pa] [db pb] Hsample.
      apply sample2_elem in Hsample as [Ha Hb].
      apply elem_of_slots_of in Ha as (_ & _ & Ha), Hb as (_ & _ & Hb).
      unfold lunch_idx in Ha, Hb.
      rewrite (proj2 (lunch_idx_of_Some P lunch (lunch - 1))) in Ha, Hb by lia.
      simpl. split; congruence.
    + by apply Hcol.
Qed.

Lemma C2_witness :
  grid_get (run_solver false (fun _ _ => None) (fun _ => 0%nat) payload_ex)
    "Monday" 2 = Some "LUNCH"
  /\ grid_get
       (Dashboard._improve_grid_via_swaps
          (Dashboard._validate_grid_constraints "A" (Some cons_ex))
          (fun _ _ _ => false) (fun k => k)
          (run_solver false (fun _ _ => None) (fun _ => 0%nat) payload_ex)
          5 (Some 2)) "Monday" 2
     = Some "LUNCH".
Proof.
  assert (H0 : 0 < pl_lunch payload_ex) by (simpl; lia).
  assert (HP : pl_lunch payload_ex <= pl_periods payload_ex) by (simpl; lia).
  assert (Hd : "Monday" ∈ DAYS) by left.
  exact (proj1 (proj2 (proj2
           (C2_lunch_column false (fun _ _ => None) (fun _ => 0%nat) payload_ex
              (Dashboard._validate_grid_constraints "A" (Some cons_ex))
              (fun _ _ _ => false) (fun k => k) 5 H0)) HP) "Monday" Hd).
Defined.

(** ** Local improvement keeps score and validity *)

(** C5. [_improve_grid_via_swaps] returns a grid whose diversity score is at
    least the score of its input, and a grid that passes validation whenever
    its input does; in every iteration the tentative swap is kept only if the
    swapped grid is valid and scores strictly higher, and otherwise the
    iteration goes on with the grid and score it started from. *)
Theorem C5_improve_monotone_valid (_last_section : string)
    (constraints : option (list Constraint))
    (high_water : nat -> nat -> nat -> bool) (draw : nat -> nat)
    (grid : Grid) (max_iters : nat) (lunch_idx : option Z) :
  let validate := Dashboard._validate_grid_constraints _last_section constraints in
  let improved :=
    Dashboard._improve_grid_via_swaps validate high_water draw grid max_iters
      lunch_idx in
  (Dashboard._diversity_score grid <= Dashboard._diversity_score improved)%nat
  /\ ((validate grid).1 = true -> (validate improved).1 = true)
  /\ (forall days periods k best best_score,
        kept_or_reverted validate lunch_idx best best_score
          (Dashboard.improve_iter validate high_water draw days periods
             (Dashboard.slots_of (length days) periods lunch_idx)
             k best best_score)).
Proof.
  intros validate improved.
  destruct (improve_result validate high_water draw lunch_idx grid max_iters)
    as (Hsc & Hv & _).
  fold improved in Hsc, Hv. split_and!.
  - exact Hsc.
  - intros Hg. destruct Hv as [->|Hv]; done.
  - intros days periods k best best_score. apply improve_iter_kept.
    intros [di p] (_ & _ & Hl)%elem_of_slots_of. done.
Qed.

Lemma C5_witness :
  let validate :=
    Dashboard._validate_grid_constraints "A"
      (Some [mkCons "Math" "Monday" "P1-P2" "Hard"]) in
  let improved :=
    Dashboard._improve_grid_via_swaps validate (fun _ _ _ => false) (fun k => k)
      grid_ex 3 (Some 2) in
  (validate grid_ex).1 = true
  /\ (Dashboard._diversity_score grid_ex < Dashboard._diversity_score improved)%nat
  /\ (validate improved).1 = true.
Proof.
  intros validate improved.
  assert (Hv : (validate grid_ex).1 = true) by (vm_compute; reflexivity).
  split_and!; [exact Hv|vm_compute; lia|].
  exact (proj1 (proj2 (C5_improve_monotone_valid "A"
                         (Some [mkCons "Math" "Monday" "P1-P2" "Hard"])
                         (fun _ _ _ => false) (fun k => k) grid_ex 3 (Some 2))) Hv).
Defined.

(** ** The greedy solver fills the grid *)

Lemma match_no_courses (c : Constraint) : _match_constraint_to_cids c [] = [].
Proof. unfold _match_constraint_to_cids. by case_match. Qed.

Lemma empty_grid_get (P : Z) d q v : grid_get (empty_grid P) d q = Some v -> v = "".
Proof.
  unfold grid_get. destruct (dict_get (empty_grid P) d) as [row|] eqn:Hrow; [|done].
  apply dict_get_Some_elem in Hrow. unfold empty_grid in Hrow.
  apply list_elem_of_fmap in Hrow as (d' & [= -> ->] & _). simpl.
  intros Hq. apply list_elem_of_lookup_2, elem_of_replicate in Hq as [-> _]. done.
Qed.

(** Without courses the constraint loop only writes course texts of the
    constraints. *)
Lemma place_constraints_no_courses (P : Z) (lunch_idx : option Z)
    (constraints : list Constraint) d q v :
  grid_get (Greedy.place_constraints (index_courses []) P lunch_idx
              (empty_grid P) constraints) d q = Some v ->
  v = "" \/ v ∈ cons_course_name <$> constraints.
Proof.
  revert d q v. unfold Greedy.place_constraints.
  apply (foldl_invariant _
    (fun g => shape P g /\ forall d q v, grid_get g d q = Some v ->
                v = "" \/ v ∈ cons_course_name <$> constraints)).
  - split; [apply shape_empty_grid|]. intros d q v Hv. left.
    by eapply empty_grid_get.
  - intros g c Hc [Hs Hg].
    destruct (place_constraint_ok (index_courses []) P lunch_idx g c Hs)
      as [Hs' Hch].
    split; [done|]. intros d q v Hv.
    destruct (Hch d q) as [E|(E & _)].
    + apply (Hg d q). congruence.
    + right. rewrite E in Hv. injection Hv as <-.
      unfold written_label. simpl. rewrite match_no_courses, or_else_empty_r.
      apply list_elem_of_fmap. by exists c.
Qed.

(** C6. [greedy_csp_solver] is a total function, and the grid it returns is
    fully populated, for every input: it has a row of [P] cells for each of
    the five days, no cell is the empty string, the cell of the lunch column
    (when a lunch period is configured) is ["LUNCH"]; and when no courses
    are supplied every cell is ["LUNCH"], ["Free"] or the course text of a
    constraint. *)
Theorem C6_greedy_fully_populated (draw : nat -> nat) (courses : list Course)
    (constraints : list Constraint) (P lunch : Z) :
  let grid := greedy_csp_solver draw courses constraints P lunch in
  (dict_keys grid = DAYS /\
   forall day row, (day, row) ∈ grid -> length row = Z.to_nat P)
  /\ (forall day row cell, (day, row) ∈ grid -> cell ∈ row -> cell ≠ "")
  /\ (forall day row l, (day, row) ∈ grid -> lunch_idx_of P lunch = Some l ->
        row !! Z.to_nat l = Some "LUNCH")
  /\ (forall day row cell,
        (day, row) ∈ greedy_csp_solver draw [] constraints P lunch ->
        cell ∈ row ->
        cell = "LUNCH" \/ cell = "Free"
        \/ cell ∈ cons_course_name <$> constraints).
Proof.
  intros grid.
  pose proof (greedy_shape draw courses constraints P lunch) as Hs.
  fold grid in Hs. split_and!.
  - exact (proj1 Hs).
  - intros day row Hin.
    by destruct (shape_row _ _ _ _ Hs Hin) as (_ & ? & _).
  - intros day row cell Hin (q & Hq)%list_elem_of_lookup_1.
    destruct (shape_row_cell _ _ _ _ _ _ Hs Hin Hq) as (Hd & Hrange & Hget).
    destruct (greedy_cell draw courses constraints P lunch day (Z.of_nat q) Hd Hrange)
      as (v & Hv & Hne & _).
    rewrite Nat2Z.id in Hv. fold grid in Hv. congruence.
  - intros day row l Hin Hl.
    destruct (shape_row _ _ _ _ Hs Hin) as (Hd & _ & Hget).
    assert (0 <= l < P) as Hrange by (apply lunch_idx_of_Some in Hl; lia).
    destruct (greedy_cell draw courses constraints P lunch day l Hd Hrange)
      as (v & Hv & _ & Hlv).
    fold grid in Hv. unfold grid_get in Hv. rewrite Hget in Hv. simpl in Hv.
    rewrite Hv. f_equal. by apply Hlv.
  - intros day row cell Hin (q & Hq)%list_elem_of_lookup_1.
    pose proof (greedy_shape draw [] constraints P lunch) as Hs0.
    destruct (shape_row_cell _ _ _ _ _ _ Hs0 Hin Hq) as (Hd & Hrange & Hget).
    destruct (greedy_cell draw [] constraints P lunch day (Z.of_nat q) Hd Hrange)
      as (v & Hv & Hne & _).
    rewrite Nat2Z.id in Hv. assert (v = cell) as -> by congruence.
    destruct (greedy_filled draw [] constraints P lunch day q)
      as [E|[(_ & v & Hv' & Hin')|[_ E]]].
    + rewrite Hget in E. symmetry in E.
      apply place_constraints_no_courses in E as [->|E]; [done|]. auto.
    + right; left. assert (v = cell) as -> by congruence.
      by apply list_elem_of_singleton in Hin'.
    + left. unfold LUNCH in E. congruence.
Qed.

(** ** The tokens of a course text *)

Section TokenFacts.
Import PyStr.
Local Arguments String.append !_ _ / : simpl nomatch.

Local Abbreviation repl s :=
  (replace_char "-" " " (replace_char "/" " " s)).
Local Abbreviation bnd_r sp post :=
  (post = "" \/ exists c q, post = String c q /\ sp c = true).
























End TokenFacts.


(** ** The matcher *)

Section MatcherFacts.
Variables (cons : Constraint) (cid_to_course : list (Z * Course)).



Lemma target_tokens_nonempty tk :
  tk ∈ Matcher.target_tokens cons -> PyStr.nonempty tk = true.
Proof. unfold Matcher.target_tokens. by intros [? _]%list_elem_of_filter. Qed.



Lemma elem_of_select test cid :
  cid ∈ Matcher.select test cid_to_course <->
  exists c, (cid, c) ∈ cid_to_course /\ test c = true.
Proof.
  unfold Matcher.select. rewrite list_elem_of_fmap. split.
  - intros ([cid' c] & -> & [Ht Hin]%list_elem_of_filter). by exists c.
  - intros (c & Hin & Ht). exists (cid, c). split; [done|].
    by apply list_elem_of_filter.
Qed.





(** The matcher returns keys of the dict. *)
Lemma match_keys cid :
  cid ∈ _match_constraint_to_cids cons cid_to_course ->
  cid ∈ dict_keys cid_to_course.
Proof.
  unfold _match_constraint_to_cids.
  assert (forall test, cid ∈ Matcher.select test cid_to_course ->
                       cid ∈ dict_keys cid_to_course) as Hsel.
  { intros test (c & Hin & _)%elem_of_select. unfold dict_keys.
    apply list_elem_of_fmap. by exists (cid, c). }
  repeat case_match; try (by intros ?%elem_of_nil); apply Hsel.
Qed.
End MatcherFacts.



(** ** The validator *)

Section ValidatorFacts.
Variables (_last_section : string) (grid : Grid).

Lemma found_in_spec row periods target :
  Dashboard.found_in row periods target = true <->
  exists p cell, p ∈ periods /\ Dashboard.cell_at row p = Some cell
                 /\ Dashboard.cell_matches target cell = true.
Proof.
  unfold Dashboard.found_in. rewrite existsb_exists. split.
  - intros (p & Hin%list_elem_of_In & H).
    destruct (Dashboard.cell_at row p) as [cell|] eqn:E; [|done].
    by exists p, cell.
  - intros (p & cell & Hin & E & H). exists p.
    split; [by apply list_elem_of_In|]. by rewrite E.
Qed.

(** One iteration either leaves the state, for a constraint that is not
    checked or is satisfied, or records a message that names it. *)
Lemma validate_step_cases st c :
  (Dashboard.validate_step _last_section grid st c = st
   /\ (Dashboard.checked _last_section c = true -> satisfied_any grid c))
  \/ (exists m,
        Dashboard.validate_step _last_section grid st c = (false, st.2 ++ [m])
        /\ Dashboard.checked _last_section c = true
        /\ ~ satisfied_any grid c /\ msg_key m = cons_key c).
Proof.
  unfold Dashboard.validate_step.
  destruct (Dashboard.checked _last_section c) eqn:Hc; simpl; [|by left].
  destruct (dict_get (Dashboard.grid_norm grid) (Dashboard.v_day c))
    as [row|] eqn:Hrow.
  - destruct (Dashboard.found_in row _ _) eqn:Hf.
    + left. split; [done|]. intros _.
      apply found_in_spec in Hf as (p & cell & ? & ? & ?).
      by exists row, p, cell.
    + right. eexists. split_and!; [done..| |done].
      intros (row' & p & cell & Hrow' & ? & ? & ?).
      assert (row' = row) as -> by congruence.
      assert (Dashboard.found_in row
                (Dashboard._parse_period_range (Dashboard.v_pr c))
                (_normalize_text (Dashboard.v_course_name c)) = true) as Hf'
        by (apply found_in_spec; by exists p, cell).
      congruence.
  - right. eexists. split_and!; [done..| |done].
    intros (row' & _ & _ & Hrow' & _). congruence.
Qed.

(** The state after the loop over [cs], started in [(ok, msgs)]. *)
Lemma validate_fold cs st :
  let st' := foldl (Dashboard.validate_step _last_section grid) st cs in
  (st'.1 = true <->
     st.1 = true /\ forall c, c ∈ cs ->
       Dashboard.checked _last_section c = true -> satisfied_any grid c)
  /\ (st'.2 = st.2 \/ st'.1 = false)
  /\ (st.1 = false -> st'.1 = false)
  /\ (forall m, m ∈ st.2 -> m ∈ st'.2)
  /\ (forall c, c ∈ cs -> Dashboard.checked _last_section c = true ->
        ~ satisfied_any grid c -> exists m, m ∈ st'.2 /\ msg_key m = cons_key c)
  /\ (st.1 = true \/ st.2 ≠ [] -> st'.1 = true \/ st'.2 ≠ []).
Proof.
  revert st. induction cs as [|c cs IH]; intros st; simpl.
  - split_and!; [|by left|done|done|by intros c ?%elem_of_nil|done].
    split; [intros ?; split; [done|by intros c ?%elem_of_nil]|tauto].
  - destruct (IH (Dashboard.validate_step _last_section grid st c))
      as (H1 & H2 & H3 & H4 & H5 & H6).
    destruct (validate_step_cases st c) as [[E Hsat]|(m & E & Hc & Hns & Hk)];
      rewrite E in *; simpl in *.
    + split_and!; [|done..| |done].
      * rewrite H1. split.
        -- intros [? Hall]. split; [done|].
           intros c' [->|Hin]%elem_of_cons; [done|by apply Hall].
        -- intros [? Hall]. split; [done|]. intros c' Hin. apply Hall. by right.
      * intros c' [->|Hin]%elem_of_cons Hc' Hns; [tauto|by apply H5].
    + split_and!.
      * split.
        -- intros Ht. rewrite H3 in Ht; done.
        -- intros [_ Hall]. exfalso. apply Hns, Hall; [left|done].
      * right. by apply H3.
      * intros _. by apply H3.
      * intros m' Hm'. apply H4. apply elem_of_app. by left.
      * intros c' [->|Hin]%elem_of_cons Hc' Hns'; [|by apply H5].
        exists m. split; [|done]. apply H4. apply elem_of_app. right. left.
      * intros _. apply H6. right. by destruct (st.2).
Qed.

(** The verdict does not look at the kind of a Hard or Exact constraint. *)
Lemma validate_step_type st c :
  (let ty := PyStr.upper (PyStr.strip (PyStr.or_else (cons_type c) "Hard")) in
   ty = "HARD" \/ ty = "EXACT") ->
  Dashboard.validate_step _last_section grid st c
  = Dashboard.validate_step _last_section grid st (with_type c "Hard").
Proof.
  intros Hty. unfold Dashboard.validate_step.
  assert (Dashboard.checked _last_section c
          = Dashboard.checked _last_section (with_type c "Hard")) as ->; [|done].
  unfold Dashboard.checked. simpl in Hty. destruct Hty as [->| ->]; reflexivity.
Qed.
End ValidatorFacts.

(** C3 (as the code has it). The validator judges a constraint of kind Hard
    and one of kind Exact alike: the constraint is satisfied as soon as one
    required period index of its range holds a non-empty cell that matches
    the course text by normalized substring containment. The verdict is
    [ok] exactly when every checked constraint is satisfied in this sense and
    exactly when no message was accumulated, and every failed constraint has
    a message naming it. The validator only reads the grid: it is a function
    of it. *)
Theorem C3_validator_any_index (_last_section : string) (cs : list Constraint)
    (grid : Grid) :
  let r := Dashboard._validate_grid_constraints _last_section (Some cs) grid in
  (r.1 = true <->
     forall c, c ∈ cs -> Dashboard.checked _last_section c = true ->
               satisfied_any grid c)
  /\ (r.1 = true <-> r.2 = [])
  /\ (forall c, c ∈ cs -> Dashboard.checked _last_section c = true ->
        ~ satisfied_any grid c -> exists m, m ∈ r.2 /\ msg_key m = cons_key c)
  /\ (forall st c,
        (let ty := PyStr.upper (PyStr.strip (PyStr.or_else (cons_type c) "Hard")) in
         ty = "HARD" \/ ty = "EXACT") ->
        Dashboard.validate_step _last_section grid st c
        = Dashboard.validate_step _last_section grid st (with_type c "Hard")).
Proof.
  intros r. subst r. simpl.
  destruct (validate_fold _last_section grid cs (true, []))
    as (H1 & H2 & _ & _ & H5 & H6). simpl in *.
  split_and!.
  - rewrite H1. split; [tauto|done].
  - split.
    + intros Ht. destruct H2 as [->|Hf]; [done|congruence].
    + intros Hnil. destruct H6 as [?|Hne]; [by left|done|]. by rewrite Hnil in Hne.
  - exact H5.
  - intros st c. apply validate_step_type.
Qed.

Lemma C3_witness :
  (Dashboard._validate_grid_constraints "A"
     (Some [mkCons "Math" "Monday" "P1-P2" "Hard"]) grid_ex).1 = true.
Proof.
  apply (proj1 (C3_validator_any_index "A" [mkCons "Math" "Monday" "P1-P2" "Hard"]
                  grid_ex)).
  intros c ->%list_elem_of_singleton _.
  exists ["Math"; "English"; "LUNCH"], 1, "Math". split_and!.
  - vm_compute. reflexivity.
  - vm_compute. left.
  - vm_compute. reflexivity.
  - vm_compute. reflexivity.
Defined.

(** C3, as stated, fails: an Exact constraint on P1-P2 is judged satisfied
    by a grid whose second period does not match. *)
Lemma C3_counterexample :
  let c := mkCons "Math" "Monday" "P1-P2" "Exact" in
  let grid := [("Monday", ["Math"; "English"])] in
  Dashboard.checked "A" c = true
  /\ Dashboard._validate_grid_constraints "A" (Some [c]) grid = (true, [])
  /\ ~ satisfied_all grid c.
Proof.
  split_and!; [vm_compute; reflexivity..|].
  intros (row & Hrow & Hall).
  vm_compute in Hrow. injection Hrow as <-.
  destruct (Hall 2) as (cell & Hc & Hm); [vm_compute; right; left|].
  vm_compute in Hc. injection Hc as <-. vm_compute in Hm. discriminate.
Qed.

(** ** String facts for the day name *)

Section StripFacts.
Import PyStr.

Lemma rev_snoc s c : rev (snoc s c) = String c (rev s).
Proof. induction s as [|a s IH]; simpl; [done|]. by rewrite IH. Qed.

Lemma rev_involutive s : rev (rev s) = s.
Proof. induction s as [|a s IH]; simpl; [done|]. by rewrite rev_snoc, IH. Qed.

Lemma lstrip_idemp s : lstrip (lstrip s) = lstrip s.
Proof.
  induction s as [|a s IH]; simpl; [done|].
  destruct (is_space a) eqn:E; [done|]. simpl. by rewrite E.
Qed.

Lemma lstrip_snoc s c : is_space c = false -> lstrip (snoc s c) = snoc (lstrip s) c.
Proof.
  intros Hc. induction s as [|a s IH]; simpl; [by rewrite Hc|].
  by destruct (is_space a).
Qed.

Lemma rstrip_idemp s : rstrip (rstrip s) = rstrip s.
Proof. unfold rstrip. by rewrite rev_involutive, lstrip_idemp. Qed.

Lemma rstrip_cons c s : is_space c = false -> rstrip (String c s) = String c (rstrip s).
Proof.
  intros Hc. unfold rstrip. simpl. by rewrite lstrip_snoc, rev_snoc.
Qed.

(** What [lstrip] answers is empty or starts with a non-space. *)
Lemma lstrip_head s :
  lstrip s = EmptyString \/ exists c t, lstrip s = String c t /\ is_space c = false.
Proof.
  induction s as [|a s IH]; simpl; [by left|].
  destruct (is_space a) eqn:E; [done|]. right. by exists a, s.
Qed.

Lemma strip_idemp s : strip (strip s) = strip s.
Proof.
  unfold strip. destruct (lstrip_head s) as [->|(c & t & -> & Hc)]; [done|].
  rewrite rstrip_cons by done. simpl. rewrite Hc.
  by rewrite rstrip_cons, rstrip_idemp.
Qed.
End StripFacts.

(** ** Malformed constraints *)

Section MalformedFacts.
Variables (idx : CourseIndex) (P : Z) (lunch_idx : option Z) (c : Constraint).

Lemma bad_day_place g :
  bad_day c -> Greedy.place_constraint idx P lunch_idx g c = g.
Proof.
  intros [Hcap _]. unfold Greedy.place_constraint.
  destruct (negb _ || negb _); [done|].
  unfold Greedy.cons_day_name. by rewrite bool_decide_eq_false_2.
Qed.

Lemma bad_day_rule : bad_day c -> CpModel.cons_rule idx P lunch_idx c = None.
Proof.
  intros [Hcap Htitle]. unfold CpModel.cons_rule.
  destruct (negb (PyStr.nonempty (cons_course_name c))); [done|].
  destruct (negb _ || negb _); [done|].
  unfold CpModel.cons_didx. rewrite strip_idemp.
  by rewrite !bool_decide_eq_false_2.
Qed.


End MalformedFacts.

(** ** Period ranges that do not parse *)

Section GarbledFacts.
Import PyStr.

Local Ltac by_cases c :=
  destruct c as [[] [] [] [] [] [] [] []]; vm_compute; reflexivity.















End GarbledFacts.








(** ** The exact-solver model *)

Section LinSum.
Import CpModel.
Variable a : Assignment.

Lemma lin_sum_app l1 l2 : lin_sum a (l1 ++ l2) = lin_sum a l1 + lin_sum a l2.
Proof. induction l1 as [|v l1 IH]; simpl; [done|]. rewrite IH. lia. Qed.

Lemma lin_sum_nonneg l : 0 <= lin_sum a l.
Proof. induction l as [|v l IH]; simpl; [done|]. destruct (a v); lia. Qed.

Lemma lin_sum_perm l1 l2 : l1 ≡ₚ l2 -> lin_sum a l1 = lin_sum a l2.
Proof. induction 1; simpl; lia. Qed.

(** A sum over distinct variables is bounded by the sum over any list that
    holds them all. *)
Lemma lin_sum_sub l1 l2 :
  NoDup l1 -> (forall v, v ∈ l1 -> v ∈ l2) -> lin_sum a l1 <= lin_sum a l2.
Proof.
  intros Hnd Hsub.
  destruct (submseteq_Permutation l1 l2) as [k Hk];
    [by apply NoDup_submseteq|].
  rewrite (lin_sum_perm _ _ Hk), lin_sum_app.
  pose proof (lin_sum_nonneg k). lia.
Qed.


End LinSum.

Lemma bind_singleton_fmap {A B} (f : A -> B) (l : list A) :
  (x ← l; [f x]) = f <$> l.
Proof. induction l as [|x l IH]; [done|]. by rewrite bind_cons, fmap_cons, IH. Qed.

Lemma index_of_lt (day : string) (l : list string) (i : nat) :
  index_of day l = Some i -> (i < length l)%nat.
Proof.
  revert i. induction l as [|d l IH]; intros i; simpl; [done|].
  case_decide; [intros [= <-]; lia|].
  destruct (index_of day l) as [j|]; simpl; [|done].
  intros [= <-]. specialize (IH j eq_refl). lia.
Qed.

(** The ids in [cid_list] are the keys of [cid_to_course]. *)
Lemma dict_keys_set {V} (m : list (Z * V)) (k : Z) (v : V) (x : Z) :
  x ∈ dict_keys (dict_set m k v) <-> x = k \/ x ∈ dict_keys m.
Proof.
  unfold dict_keys. induction m as [|[k' v'] m IH]; simpl.
  - rewrite list_elem_of_singleton. rewrite elem_of_nil. tauto.
  - case_decide as Hk; simpl; rewrite !elem_of_cons.
    + subst. tauto.
    + rewrite IH. tauto.
Qed.

Lemma index_courses_keys (courses : list Course) (x : Z) :
  x ∈ dict_keys (cid_to_course (index_courses courses))
  <-> x ∈ cid_list (index_courses courses).
Proof.
  unfold index_courses.
  apply (foldl_invariant index_step
           (fun st => x ∈ dict_keys (cid_to_course st) <-> x ∈ cid_list st)).
  - done.
  - intros st c _ IH. unfold index_step.
    destruct (id c) as [cid|]; simpl;
      rewrite dict_keys_set, elem_of_app, list_elem_of_singleton; tauto.
Qed.

(** Every id in [cid_list] has its course in the dict: the labels of
    [decode_label] and [rep_label] are never the unreachable default. *)
Lemma index_courses_get (courses : list Course) (cid : Z) :
  cid ∈ cid_list (index_courses courses) ->
  is_Some (dict_get (cid_to_course (index_courses courses)) cid).
Proof.
  intros Hin%index_courses_keys. revert Hin.
  generalize (cid_to_course (index_courses courses)). intros m.
  unfold dict_keys. induction m as [|[k c] m IH]; simpl.
  - by intros ?%elem_of_nil.
  - intros [->|Hin]%elem_of_cons; case_decide; try done; by eauto.
Qed.

Section ModelFacts.
Import CpModel.
Variables (courses : list Course) (constraints : list Constraint)
          (P : Z) (lunch_idx : option Z).
Local Abbreviation idx := (index_courses courses).
Local Abbreviation model := (build idx P lunch_idx constraints).

Lemma sat_holds a r : sat a model = true -> r ∈ rules model -> holds a r = true.
Proof.
  unfold sat. rewrite forallb_forall. intros Hall Hin.
  apply Hall. by apply list_elem_of_In.
Qed.

Lemma min_occurrence_in cid :
  cid ∈ cid_list idx ->
  {| lin_vars := d ← day_range; p ← periods_range P; [(cid, d, p)];
     lin_rel := Ge; lin_rhs := 1 |} ∈ rules model.
Proof.
  intros Hin. simpl. apply elem_of_app. left.
  unfold min_occurrence. apply list_elem_of_fmap. by exists cid.
Qed.

Lemma daily_unique_in cid d :
  cid ∈ cid_list idx -> d ∈ day_range ->
  daily_unique_rule P cid d ∈ rules model.
Proof.
  intros Hc Hd. simpl. apply elem_of_app. right. apply elem_of_app. left.
  unfold daily_unique. apply list_elem_of_bind. exists cid. split; [|done].
  apply list_elem_of_bind. exists d. split; [|done].
  by apply list_elem_of_singleton.
Qed.

Lemma cons_rule_in c r :
  c ∈ constraints -> cons_rule idx P lunch_idx c = Some r -> r ∈ rules model.
Proof.
  intros Hc Hr. simpl. do 5 (apply elem_of_app; right).
  unfold constraint_rules. apply list_elem_of_omap. by exists c.
Qed.

Lemma cons_indices_facts c p :
  p ∈ cons_indices P lunch_idx c -> 0 <= p < P.
Proof. unfold cons_indices. by intros (? & _)%period_indices_bound. Qed.

(** The rule of an Exact constraint with one matching course. *)
Lemma cons_rule_exact_single c cid :
  is_Some (cons_rule idx P lunch_idx c) ->
  enforce_exact c = true ->
  _match_constraint_to_cids c (cid_to_course idx) = [cid] ->
  exists didx,
    didx ∈ day_range
    /\ cons_rule idx P lunch_idx c
       = Some {| lin_vars := (fun p => (cid, didx, p)) <$> cons_indices P lunch_idx c;
                 lin_rel := Ge;
                 lin_rhs := Z.of_nat (length (cons_indices P lunch_idx c)) |}.
Proof.
  intros [r Hr] Hex Hm. unfold cons_rule in *.
  rewrite Hm, Hex in *.
  destruct (negb (PyStr.nonempty (cons_course_name c))); [done|].
  destruct (negb _ || negb _); [done|].
  destruct (cons_didx c) as [didx|] eqn:Hd; [|done].
  exists didx. split.
  - unfold cons_didx in Hd. apply elem_of_seq.
    repeat case_bool_decide; try done; apply index_of_lt in Hd; lia.
  - destruct (cons_range P c) as [s e]. destruct (e <? s); [done|].
    rewrite bool_decide_eq_false_2 in * by done.
    destruct (bool_decide (cons_indices P lunch_idx c = [])); [done|].
    simpl. rewrite app_nil_r, bind_singleton_fmap. done.
Qed.

(** Daily uniqueness and the Exact rule of a single course over two or
    more periods of one day are both in the model and cannot both hold. *)
Lemma exact_block_conflict c cid :
  c ∈ constraints ->
  is_Some (cons_rule idx P lunch_idx c) ->
  enforce_exact c = true ->
  _match_constraint_to_cids c (cid_to_course idx) = [cid] ->
  (2 <= length (cons_indices P lunch_idx c))%nat ->
  exists didx rule,
    cons_rule idx P lunch_idx c = Some rule
    /\ rule ∈ rules model
    /\ daily_unique_rule P cid didx ∈ rules model
    /\ forall a, ~ (holds a (daily_unique_rule P cid didx) = true
                    /\ holds a rule = true).
Proof.
  intros Hc Hsome Hex Hm Hlen.
  destruct (cons_rule_exact_single c cid Hsome Hex Hm) as (didx & Hd & Hr).
  assert (cid ∈ cid_list idx) as Hcid.
  { apply index_courses_keys. apply (match_keys c). rewrite Hm. left. }
  eexists didx, _. split_and!; [exact Hr|by eapply cons_rule_in|
                                by apply daily_unique_in|].
  intros a [H2 H1]. unfold holds in H1, H2. simpl in H1, H2.
  apply Z.leb_le in H1, H2.
  assert (lin_sum a ((fun p => (cid, didx, p)) <$> cons_indices P lunch_idx c)
          <= lin_sum a ((fun p => (cid, didx, p)) <$> periods_range P)) as Hsub.
  { apply lin_sum_sub.
    - apply NoDup_fmap_2; [by intros p q [= ->]|].
      unfold cons_indices. apply NoDup_period_indices.
    - intros v (p & -> & Hp)%list_elem_of_fmap.
      apply list_elem_of_fmap. exists p. split; [done|].
      apply elem_of_periods_range. by eapply cons_indices_facts. }
  lia.
Qed.

Lemma exact_block_unsat c cid a :
  c ∈ constraints ->
  is_Some (cons_rule idx P lunch_idx c) ->
  enforce_exact c = true ->
  _match_constraint_to_cids c (cid_to_course idx) = [cid] ->
  (2 <= length (cons_indices P lunch_idx c))%nat ->
  sat a model = false.
Proof.
  intros Hc Hsome Hex Hm Hlen.
  destruct (sat a model) eqn:Hsat; [|done]. exfalso.
  destruct (exact_block_conflict c cid Hc Hsome Hex Hm Hlen)
    as (didx & rule & _ & Hr & Hd & Hno).
  apply (Hno a). split; by apply sat_holds.
Qed.

End ModelFacts.

Lemma exhaustive_solve_sound t m a :
  exhaustive_solve t m = Some a -> CpModel.sat a m = true.
Proof.
  unfold exhaustive_solve.
  destruct (find _ _) as [on|] eqn:Hf; simpl; [|done].
  intros [= <-]. by apply find_some in Hf as [_ ?].
Qed.

(** ** Exact blocks make the exact-solver model infeasible *)

(** C10. Take a solver that reports a solution only when the assignment
    satisfies the model. If a request has a constraint that the model
    encodes as Exact, matched to a single course, with two or more allowed
    period indices, then the model holds both the daily-uniqueness rule of
    that course on that day and the Exact rule, no assignment satisfies
    both, no assignment satisfies the model, [run_ortools_solver] answers
    no result, and [run_solver] answers what [greedy_csp_solver] answers. *)
Theorem C10_exact_block_infeasible {Seconds : Type} (avail : bool)
    (cp_solve : Seconds -> CpModel.Model -> option CpModel.Assignment)
    (draw : nat -> nat) (payload : Payload (Seconds := Seconds))
    (c : Constraint) (cid : Z) :
  let idx := index_courses (pl_courses payload) in
  let P := pl_periods payload in
  let lunch_idx := lunch_idx_of P (pl_lunch payload) in
  let model := CpModel.build idx P lunch_idx (pl_constraints payload) in
  (forall t m a, cp_solve t m = Some a -> CpModel.sat a m = true) ->
  c ∈ pl_constraints payload ->
  is_Some (CpModel.cons_rule idx P lunch_idx c) ->
  CpModel.enforce_exact c = true ->
  _match_constraint_to_cids c (cid_to_course idx) = [cid] ->
  (2 <= length (CpModel.cons_indices P lunch_idx c))%nat ->
  (exists didx rule,
     CpModel.cons_rule idx P lunch_idx c = Some rule
     /\ rule ∈ CpModel.rules model
     /\ CpModel.daily_unique_rule P cid didx ∈ CpModel.rules model
     /\ forall a, ~ (CpModel.holds a (CpModel.daily_unique_rule P cid didx) = true
                     /\ CpModel.holds a rule = true))
  /\ (forall a, CpModel.sat a model = false)
  /\ run_ortools_solver avail cp_solve (pl_courses payload) (pl_constraints payload)
       P (pl_lunch payload) (pl_time_limit payload) = None
  /\ run_solver avail cp_solve draw payload
     = greedy_csp_solver draw (pl_courses payload) (pl_constraints payload)
         P (pl_lunch payload).
Proof.
  intros idx P lunch_idx model Hsound Hc Hsome Hex Hm Hlen.
  assert (Hunsat : forall a, CpModel.sat a model = false).
  { intros a. by eapply exact_block_unsat. }
  assert (Hnone : run_ortools_solver avail cp_solve (pl_courses payload)
                    (pl_constraints payload) P (pl_lunch payload)
                    (pl_time_limit payload) = None).
  { unfold run_ortools_solver. destruct avail; simpl; [|done].
    destruct (cp_solve _ _) as [a|] eqn:Hs; [|done].
    apply Hsound in Hs. fold idx P lunch_idx model in Hs.
    by rewrite Hunsat in Hs. }
  split_and!.
  - by eapply exact_block_conflict.
  - exact Hunsat.
  - exact Hnone.
  - unfold run_solver. fold P. rewrite Hnone. by destruct avail.
Qed.

Lemma C10_witness :
  run_solver true exhaustive_solve (fun _ => 0%nat) payload_block
  = greedy_csp_solver (fun _ => 0%nat) (pl_courses payload_block)
      (pl_constraints payload_block) 2 0.
Proof.
  apply (C10_exact_block_infeasible true exhaustive_solve (fun _ => 0%nat)
           payload_block (mkCons "Math" "Monday" "P1-P2" "Exact") 1).
  - apply exhaustive_solve_sound.
  - left.
  - vm_compute. by eexists.
  - vm_compute. reflexivity.
  - vm_compute. reflexivity.
  - vm_compute. lia.
Defined.

(** ** Credits in the exact-solver model *)




(** ** Exact constraints in the greedy solver *)

Lemma rep_label_nonempty (courses : list Course) (cid : Z) :
  cid ∈ dict_keys (cid_to_course (index_courses courses)) ->
  Greedy.rep_label (index_courses courses) cid ≠ "".
Proof.
  intros Hin%index_courses_keys. unfold Greedy.rep_label.
  destruct (index_courses_get courses cid Hin) as [c ->].
  by do 2 apply or_else_nonempty.
Qed.

Lemma weekday_nonempty (day : string) : day ∈ DAYS -> PyStr.nonempty day = true.
Proof.
  destruct day; [|done]. intros H. exfalso.
  repeat (apply elem_of_cons in H as [H|H]; [discriminate|]).
  by apply elem_of_nil in H.
Qed.

(** The Exact loop writes the label into every allowed cell that is free. *)
Lemma fill_empty_get (g : Grid) (day label : string) (pis : list Z) (p : Z) :
  p ∈ pis ->
  grid_get g day (Z.to_nat p) = Some "" ->
  grid_get (Greedy.fill_empty g day pis label) day (Z.to_nat p) = Some label.
Proof.
  intros Hp Hfree. unfold Greedy.fill_empty.
  apply (foldl_establish _
           (fun g => grid_get g day (Z.to_nat p) = Some ""
                     \/ grid_get g day (Z.to_nat p) = Some label)
           (fun g => grid_get g day (Z.to_nat p) = Some label) p).
  - done.
  - by left.
  - intros g' p' _ HI. destruct (cell_empty g' day (Z.to_nat p')); [|done].
    rewrite grid_get_set. case_decide as Hc; [|done].
    destruct Hc as [_ Hc]. rewrite <- Hc. right. by destruct HI as [->| ->].
  - intros g' HI. destruct (cell_empty g' day (Z.to_nat p)) eqn:He.
    + apply grid_get_set_same. destruct HI as [->| ->]; by eexists.
    + apply bool_decide_eq_false in He. by destruct HI.
  - intros g' p' _ _ HQ. destruct (cell_empty g' day (Z.to_nat p')); [|done].
    rewrite grid_get_set. case_decide as Hc; [|done].
    destruct Hc as [_ Hc]. rewrite <- Hc, HQ. done.
Qed.

(** C4 (as the code has it, on the greedy path). Let an Exact constraint
    with a weekday and a non-empty range be matched to exactly one course.
    At every allowed period index of its range (in range, not the lunch
    index) whose cell is still free when the constraint is processed, and
    which is not the first allowed index of a later constraint on the same
    day (where a forced write may land), the grid of [greedy_csp_solver]
    bears the label of that course; so does the grid of [run_solver] when
    the exact solver gives no result. *)
Theorem C4_exact_block_greedy {Seconds : Type} (avail : bool)
    (cp_solve : Seconds -> CpModel.Model -> option CpModel.Assignment)
    (draw : nat -> nat) (courses : list Course)
    (pre post : list Constraint) (c : Constraint) (P lunch : Z)
    (time_limit : Seconds) (cid p : Z) :
  let idx := index_courses courses in
  let lunch_idx := lunch_idx_of P lunch in
  let day := Greedy.cons_day_name c in
  let payload :=
    {| pl_courses := courses; pl_constraints := pre ++ c :: post;
       pl_periods := P; pl_lunch := lunch; pl_time_limit := time_limit |} in
  day ∈ DAYS ->
  Greedy.cons_pr c ≠ "" ->
  Greedy.cons_ctype c = "exact" ->
  _match_constraint_to_cids c (cid_to_course idx) = [cid] ->
  p ∈ Greedy.cons_indices P lunch_idx c ->
  grid_get (Greedy.place_constraints idx P lunch_idx (empty_grid P) pre)
    day (Z.to_nat p) = Some "" ->
  (forall c', c' ∈ post -> Greedy.cons_day_name c' = day ->
              forced_target P lunch_idx c' ≠ Some (Z.to_nat p)) ->
  grid_get (greedy_csp_solver draw courses (pre ++ c :: post) P lunch)
    day (Z.to_nat p) = Some (Greedy.rep_label idx cid)
  /\ (run_ortools_solver avail cp_solve courses (pre ++ c :: post) P lunch
        time_limit = None ->
      grid_get (run_solver avail cp_solve draw payload) day (Z.to_nat p)
      = Some (Greedy.rep_label idx cid)).
Proof.
  intros idx lunch_idx day payload Hday Hpr Hty Hm Hp Hfree Hpost.
  set (label := Greedy.rep_label idx cid).
  assert (Hlabel : label ≠ "").
  { apply rep_label_nonempty. fold idx. apply (match_keys c). rewrite Hm. left. }
  assert (Hgreedy :
    grid_get (greedy_csp_solver draw courses (pre ++ c :: post) P lunch)
      day (Z.to_nat p) = Some label).
  { (* the constraint loop *)
    set (g1 := Greedy.place_constraints idx P lunch_idx (empty_grid P) pre) in *.
    assert (Hs1 : shape P g1) by apply shape_place_constraints, shape_empty_grid.
    assert (H2 : grid_get (Greedy.place_constraint idx P lunch_idx g1 c)
                   day (Z.to_nat p) = Some label).
    { unfold Greedy.place_constraint. fold day.
      rewrite (weekday_nonempty day Hday). simpl.
      destruct (Greedy.cons_pr c) eqn:Epr; [done|]. simpl.
      rewrite bool_decide_eq_true_2 by done. simpl.
      rewrite bool_decide_eq_false_2
        by (intros E; rewrite E in Hp; by apply elem_of_nil in Hp).
      fold idx. rewrite Hm, Hty. simpl. by apply fill_empty_get. }
    assert (H3 : grid_get (Greedy.place_constraints idx P lunch_idx (empty_grid P)
                             (pre ++ c :: post)) day (Z.to_nat p) = Some label).
    { unfold Greedy.place_constraints. rewrite foldl_app. simpl.
      fold (Greedy.place_constraints idx P lunch_idx (empty_grid P) pre). fold g1.
      apply (foldl_invariant _
        (fun g => shape P g /\ grid_get g day (Z.to_nat p) = Some label)).
      - split; [by apply place_constraint_ok|done].
      - intros g c' Hc' [Hs Hg].
        destruct (place_constraint_ok idx P lunch_idx g c' Hs) as [Hs' Hch].
        split; [done|].
        destruct (Hch day (Z.to_nat p)) as [E|(_ & Hd & [E|E])].
        + congruence.
        + congruence.
        + exfalso. by apply (Hpost c'). }
    (* the filling loops *)
    destruct (greedy_filled draw courses (pre ++ c :: post) P lunch day (Z.to_nat p))
      as [E|[[E _]|[E _]]].
    - fold idx lunch_idx in E. by rewrite E.
    - fold idx lunch_idx in E. congruence.
    - exfalso. unfold Greedy.cons_indices in Hp.
      destruct (_parse_period_token _) as [s e].
      apply period_indices_bound in Hp as (Hr & _ & Hl).
      apply Hl. fold lunch_idx in E. rewrite E. f_equal. lia. }
  split; [exact Hgreedy|].
  intros Hnone. unfold run_solver. simpl. rewrite Hnone.
  destruct avail; exact Hgreedy.
Qed.

Lemma C4_witness :
  grid_get (greedy_csp_solver (fun _ => 0%nat) courses_ex ([] ++ cons_block :: []) 4 3)
    "Monday" (Z.to_nat 1) = Some "Math".
Proof.
  apply (C4_exact_block_greedy false (fun (_ : Z) _ => None) (fun _ => 0%nat)
           courses_ex [] [] cons_block 4 3 10 1 1).
  - vm_compute. left.
  - vm_compute. discriminate.
  - vm_compute. reflexivity.
  - vm_compute. reflexivity.
  - vm_compute. right. left.
  - vm_compute. reflexivity.
  - intros c' Hc'. by apply elem_of_nil in Hc'.
  - reflexivity.
Defined.

(** C4, as stated, fails: the request can be satisfied (Math in P2, English
    in P1), the Exact constraint is matched to the single course English,
    and the grid returned bears Math in its period. *)
Lemma C4_counterexample :
  let c := mkCons "English" "Monday" "P1" "Exact" in
  let payload : Payload (Seconds := Z) :=
    {| pl_courses := courses_ex;
       pl_constraints := [mkCons "Math" "Monday" "P1-P2" "Hard"; c];
       pl_periods := 4; pl_lunch := 3; pl_time_limit := 10 |} in
  _match_constraint_to_cids c (cid_to_course (index_courses courses_ex)) = [2]
  /\ Greedy.rep_label (index_courses courses_ex) 2 = "English"
  /\ Greedy.cons_indices 4 (lunch_idx_of 4 3) c = [0]
  /\ grid_get (run_solver false (fun _ _ => None) (fun _ => 0%nat) payload)
       "Monday" 0 = Some "Math".
Proof. split_and!; vm_compute; reflexivity. Qed.

(** * Further properties of the engine *)

(** ** Groups of courses in the exact-solver model *)

Section GroupFacts.
Context {K : Type} `{EqDecision K}.
Implicit Types (m : list (K * list Z)) (k : K) (v : Z).

Lemma group_add_new m k v :
  exists vs, (k, vs) ∈ CpModel.group_add m k v /\ v ∈ vs.
Proof.
  induction m as [|[k' vs'] m IH]; simpl.
  - exists [v]. split; [left|left].
  - case_decide as Hk.
    + subst. exists (vs' ++ [v]). split; [left|]. apply elem_of_app. right. left.
    + destruct IH as (vs & Hin & Hv). exists vs. split; [by right|done].
Qed.

Lemma group_add_mono m k v k0 vs0 :
  (k0, vs0) ∈ m ->
  exists vs, (k0, vs) ∈ CpModel.group_add m k v /\ (forall x, x ∈ vs0 -> x ∈ vs).
Proof.
  induction m as [|[k' vs'] m IH]; simpl; [by intros ?%elem_of_nil|].
  intros [[= -> ->]|Hin]%elem_of_cons.
  - case_decide as Hk.
    + exists (vs' ++ [v]). split; [left|]. intros x Hx. apply elem_of_app. by left.
    + exists vs'. split; [left|done].
  - destruct (IH Hin) as (vs & Hvs & Hsub).
    case_decide as Hk.
    + exists vs0. split; [by right|done].
    + exists vs. split; [by right|done].
Qed.

Lemma group_add_elem_keys m k v (x : K) :
  x ∈ (CpModel.group_add m k v).*1 -> x = k \/ x ∈ m.*1.
Proof.
  induction m as [|[k' vs'] m IH]; simpl.
  - intros ->%list_elem_of_singleton. by left.
  - case_decide as Hk; simpl.
    + intros H. by right.
    + intros [->|H]%elem_of_cons; [right; left|].
      destruct (IH H) as [->|?]; [by left|right; by right].
Qed.

Lemma group_add_keys m k v :
  NoDup m.*1 -> NoDup (CpModel.group_add m k v).*1.
Proof.
  induction m as [|[k' vs'] m IH]; simpl; intros Hnd.
  - apply NoDup_singleton.
  - apply NoDup_cons in Hnd as [Hk' Hnd]. case_decide as Hk; simpl.
    + by apply NoDup_cons.
    + apply NoDup_cons. split; [|by apply IH].
      intros [->|?]%group_add_elem_keys; done.
Qed.

(** After the grouping loop every course sits in the group of its key, and
    each key has one group. *)
Lemma group_by_spec (key : Course -> K) (dict : list (Z * Course)) :
  NoDup (CpModel.group_by key dict).*1
  /\ forall cid c, (cid, c) ∈ dict ->
       exists vs, (key c, vs) ∈ CpModel.group_by key dict /\ cid ∈ vs.
Proof.
  unfold CpModel.group_by.
  assert (forall l m0,
    NoDup m0.*1 ->
    let G := foldl (fun m kc => CpModel.group_add m (key kc.2) kc.1) m0 l in
    NoDup G.*1
    /\ (forall k0 vs0, (k0, vs0) ∈ m0 ->
          exists vs, (k0, vs) ∈ G /\ forall x, x ∈ vs0 -> x ∈ vs)
    /\ (forall cid c, (cid, c) ∈ l -> exists vs, (key c, vs) ∈ G /\ cid ∈ vs)) as H.
  { induction l as [|[cid0 c0] l IH]; intros m0 Hnd; simpl.
    - split_and!; [done| |by intros ? ? ?%elem_of_nil].
      intros k0 vs0 Hin. by exists vs0.
    - destruct (IH (CpModel.group_add m0 (key c0) cid0)) as (H1 & H2 & H3);
        [by apply group_add_keys|].
      split_and!; [done| |].
      + intros k0 vs0 Hin.
        destruct (group_add_mono m0 (key c0) cid0 k0 vs0 Hin) as (vs1 & Hvs1 & Hsub1).
        destruct (H2 k0 vs1 Hvs1) as (vs & Hvs & Hsub). exists vs. split; [done|].
        intros x Hx. by apply Hsub, Hsub1.
      + intros cid c [[= -> ->]|Hin]%elem_of_cons; [|by apply H3].
        destruct (group_add_new m0 (key c0) cid0) as (vs1 & Hvs1 & Hc).
        destruct (H2 _ _ Hvs1) as (vs & Hvs & Hsub). exists vs. split; [done|].
        by apply Hsub. }
  destruct (H dict []) as (H1 & _ & H3); [apply NoDup_nil_2|]. done.
Qed.

(** Two courses with the same key are in one group. *)
Lemma group_by_same (key : Course -> K) (dict : list (Z * Course)) cid1 c1 cid2 c2 :
  (cid1, c1) ∈ dict -> (cid2, c2) ∈ dict -> key c1 = key c2 ->
  exists vs, (key c1, vs) ∈ CpModel.group_by key dict /\ cid1 ∈ vs /\ cid2 ∈ vs.
Proof.
  intros H1 H2 Hk. destruct (group_by_spec key dict) as (Hnd & Hall).
  destruct (Hall _ _ H1) as (vs1 & Hvs1 & Hc1).
  destruct (Hall _ _ H2) as (vs2 & Hvs2 & Hc2).
  rewrite <- Hk in Hvs2.
  assert (vs1 = vs2) as <-.
  { clear -Hnd Hvs1 Hvs2. revert Hnd Hvs1 Hvs2.
    generalize (CpModel.group_by key dict). intros G.
    induction G as [|[k vs] G IH]; simpl; [by intros _ ?%elem_of_nil|].
    intros [Hk Hnd]%NoDup_cons [[= <- <-]|H1]%elem_of_cons [[= ?]|H2]%elem_of_cons.
    - done.
    - exfalso. apply Hk. apply list_elem_of_fmap. by eexists (_, _).
    - subst. exfalso. apply Hk. apply list_elem_of_fmap. by eexists (_, _).
    - by apply IH. }
  by exists vs1.
Qed.
End GroupFacts.

Lemma lin_sum_two (a : CpModel.Assignment) (l : list CpModel.Var) v1 v2 :
  v1 ∈ l -> v2 ∈ l -> v1 ≠ v2 -> a v1 = true -> a v2 = true ->
  2 <= CpModel.lin_sum a l.
Proof.
  intros H1 H2 Hne Ha1 Ha2.
  assert (CpModel.lin_sum a [v1; v2] <= CpModel.lin_sum a l) as Hsub.
  { apply lin_sum_sub.
    - apply NoDup_cons. split; [by intros ?%list_elem_of_singleton|].
      apply NoDup_singleton.
    - intros v [->|[->|?%elem_of_nil]%elem_of_cons]%elem_of_cons; done. }
  simpl in Hsub. rewrite Ha1, Ha2 in Hsub. lia.
Qed.

Lemma lin_sum_pos_exists (a : CpModel.Assignment) (l : list CpModel.Var) :
  1 <= CpModel.lin_sum a l -> exists v, v ∈ l /\ a v = true.
Proof.
  induction l as [|v l IH]; simpl; [lia|].
  destruct (a v) eqn:Hv.
  - intros _. exists v. split; [left|done].
  - intros H. destruct IH as (w & Hw & Haw); [lia|]. exists w. split; [by right|done].
Qed.

(** ** What a solution of the exact-solver model guarantees *)

Lemma dict_get_Some_in {K V} `{EqDecision K} (m : list (K * V)) (k : K) (v : V) :
  dict_get m k = Some v -> (k, v) ∈ m.
Proof.
  induction m as [|[k' v'] m IH]; simpl; [done|].
  case_decide; [intros [= ->]; subst; left | intros; right; auto].
Qed.

Lemma dict_set_elem {K V} `{EqDecision K} (m : list (K * V)) (k k' : K) (v v' : V) :
  (k', v') ∈ dict_set m k v -> (k', v') = (k, v) \/ (k', v') ∈ m.
Proof.
  induction m as [|[k0 v0] m IH]; simpl.
  - intros ->%list_elem_of_singleton. by left.
  - case_decide as Hk.
    + intros [->|H]%elem_of_cons; [by left|right; by right].
    + intros [->|H]%elem_of_cons; [right; left|].
      destruct (IH H) as [?|?]; [by left|right; by right].
Qed.

(** The courses of the dict are courses of the request. *)
Lemma index_courses_elem (courses : list Course) (cid : Z) (c : Course) :
  (cid, c) ∈ cid_to_course (index_courses courses) -> c ∈ courses.
Proof.
  unfold index_courses.
  apply (foldl_invariant index_step
           (fun st => (cid, c) ∈ cid_to_course st -> c ∈ courses)).
  - by intros ?%elem_of_nil.
  - intros st c0 Hc0 IH. unfold index_step.
    destruct (id c0) as [i|]; simpl;
      intros [[= _ ->]|H]%dict_set_elem; auto.
Qed.

Section SolutionFacts.
Import CpModel.
Variables (courses : list Course) (constraints : list Constraint)
          (P : Z) (lunch_idx : option Z) (a : Assignment).
Local Abbreviation idx := (index_courses courses).
Local Abbreviation model := (build idx P lunch_idx constraints).
Hypothesis Hsat : sat a model = true.

Lemma conflict_rule_holds (vs : list Z) cid1 cid2 d p :
  (forall r, r ∈ conflict_rules P vs -> r ∈ rules model) ->
  cid1 ∈ vs -> cid2 ∈ vs -> cid1 ≠ cid2 ->
  d ∈ day_range -> 0 <= p < P ->
  ~ (a (cid1, d, p) = true /\ a (cid2, d, p) = true).
Proof using Hsat.
  intros Hin H1 H2 Hne Hd Hp [Ha1 Ha2].
  assert ({| lin_vars := (fun cid => (cid, d, p)) <$> vs; lin_rel := Le;
             lin_rhs := 1 |} ∈ rules model) as Hr.
  { apply Hin. unfold conflict_rules. apply list_elem_of_bind. exists d.
    split; [|done]. apply list_elem_of_bind. exists p.
    split; [|by apply elem_of_periods_range]. by apply list_elem_of_singleton. }
  pose proof (sat_holds courses constraints P lunch_idx a _ Hsat Hr) as Hh.
  unfold holds in Hh. simpl in Hh. apply Z.leb_le in Hh.
  pose proof (lin_sum_two a ((fun cid => (cid, d, p)) <$> vs)
                (cid1, d, p) (cid2, d, p)) as H.
  assert (2 <= lin_sum a ((fun cid => (cid, d, p)) <$> vs)); [|lia].
  apply H; try done.
  - apply list_elem_of_fmap. by exists cid1.
  - apply list_elem_of_fmap. by exists cid2.
  - congruence.
Qed.

Lemma teacher_no_clash cid1 c1 cid2 c2 t d p :
  (cid1, c1) ∈ cid_to_course idx -> (cid2, c2) ∈ cid_to_course idx ->
  cid1 ≠ cid2 ->
  teacher_id c1 = Some t -> teacher_id c2 = Some t ->
  d ∈ day_range -> 0 <= p < P ->
  ~ (a (cid1, d, p) = true /\ a (cid2, d, p) = true).
Proof using Hsat.
  intros H1 H2 Hne Ht1 Ht2 Hd Hp.
  destruct (group_by_same teacher_id (cid_to_course idx) cid1 c1 cid2 c2)
    as (vs & Hvs & Hc1 & Hc2); [done|done|congruence|].
  apply (conflict_rule_holds vs); try done.
  intros r Hr. simpl. do 2 (apply elem_of_app; right). apply elem_of_app. left.
  unfold teacher_conflicts. apply list_elem_of_bind.
  exists (teacher_id c1, vs). split; [|done]. simpl. by rewrite Ht1.
Qed.

Lemma section_no_clash cid1 c1 cid2 c2 d p :
  (cid1, c1) ∈ cid_to_course idx -> (cid2, c2) ∈ cid_to_course idx ->
  cid1 ≠ cid2 ->
  PyStr.or_else (section c1) "A" = PyStr.or_else (section c2) "A" ->
  d ∈ day_range -> 0 <= p < P ->
  ~ (a (cid1, d, p) = true /\ a (cid2, d, p) = true).
Proof using Hsat.
  intros H1 H2 Hne Hs Hd Hp.
  destruct (group_by_same (fun c => PyStr.or_else (section c) "A")
              (cid_to_course idx) cid1 c1 cid2 c2)
    as (vs & Hvs & Hc1 & Hc2); [done..|].
  apply (conflict_rule_holds vs); try done.
  intros r Hr. simpl. do 3 (apply elem_of_app; right). apply elem_of_app. left.
  unfold section_conflicts. apply list_elem_of_bind.
  eexists (_, vs). split; [|exact Hvs]. done.
Qed.

Lemma lunch_var_false cid d l :
  lunch_idx = Some l -> cid ∈ cid_list idx -> d ∈ day_range ->
  a (cid, d, l) = false.
Proof using Hsat.
  intros Hl Hc Hd.
  assert ({| lin_vars := [(cid, d, l)]; lin_rel := Eq; lin_rhs := 0 |}
          ∈ rules model) as Hr.
  { simpl. do 4 (apply elem_of_app; right). apply elem_of_app. left.
    unfold lunch_block. rewrite Hl. apply list_elem_of_bind. exists cid.
    split; [|done]. apply list_elem_of_bind. exists d. split; [|done].
    by apply list_elem_of_singleton. }
  pose proof (sat_holds courses constraints P lunch_idx a _ Hsat Hr) as Hh.
  unfold holds in Hh. simpl in Hh. destruct (a (cid, d, l)); [|done].
  by apply Z.eqb_eq in Hh.
Qed.

(** Every course is scheduled at some slot that is not the lunch period. *)
Lemma course_has_slot cid :
  cid ∈ cid_list idx ->
  exists d p, d ∈ day_range /\ 0 <= p < P /\ lunch_idx ≠ Some p
              /\ a (cid, d, p) = true.
Proof using Hsat.
  intros Hc.
  pose proof (sat_holds courses constraints P lunch_idx a _ Hsat
                (min_occurrence_in courses constraints P lunch_idx cid Hc)) as Hh.
  unfold holds in Hh. cbn [lin_rel lin_rhs lin_vars] in Hh. apply Z.leb_le in Hh.
  apply lin_sum_pos_exists in Hh as (v & Hv & Hav).
  apply list_elem_of_bind in Hv as (d & Hv & Hd).
  apply list_elem_of_bind in Hv as (p & Hv & Hp).
  apply list_elem_of_singleton in Hv as ->.
  apply elem_of_periods_range in Hp.
  exists d, p. split_and!; [done|lia|lia| |done].
  intros Hl. rewrite (lunch_var_false cid d p) in Hav; done.
Qed.

(** The rule of a Hard constraint puts one of its candidates into one of
    its allowed periods on its day. *)
Lemma hard_rule_placed c :
  c ∈ constraints ->
  is_Some (cons_rule idx P lunch_idx c) ->
  enforce_exact c = false ->
  exists didx cid p,
    cons_didx c = Some didx
    /\ cid ∈ _match_constraint_to_cids c (cid_to_course idx)
    /\ p ∈ cons_indices P lunch_idx c
    /\ a (cid, didx, p) = true.
Proof using Hsat.
  intros Hc [r Hr] Hex.
  pose proof (sat_holds courses constraints P lunch_idx a _ Hsat
                (cons_rule_in courses constraints P lunch_idx c r Hc Hr)) as Hh.
  unfold cons_rule in Hr. rewrite Hex in Hr.
  destruct (negb (PyStr.nonempty (cons_course_name c))); [done|].
  destruct (negb _ || negb _); [done|].
  destruct (cons_didx c) as [didx|]; [|done].
  destruct (cons_range P c) as [s e]. destruct (e <? s); [done|].
  destruct (bool_decide (_match_constraint_to_cids c (cid_to_course idx) = []));
    [done|].
  destruct (bool_decide (cons_indices P lunch_idx c = [])); [done|].
  injection Hr as <-. unfold holds in Hh. cbn [lin_rel lin_rhs lin_vars] in Hh.
  apply Z.leb_le in Hh.
  apply lin_sum_pos_exists in Hh as (v & Hv & Hav).
  apply list_elem_of_bind in Hv as (cid & Hv & Hcid).
  apply list_elem_of_bind in Hv as (p & Hv & Hp).
  apply list_elem_of_singleton in Hv as ->.
  by exists didx, cid, p.
Qed.
End SolutionFacts.

(** ** Decoding, cell by cell *)

Lemma elem_of_enumerate (i : nat) (day : string) :
  (i, day) ∈ imap (fun i day => (i, day)) DAYS <-> DAYS !! i = Some day.
Proof.
  rewrite elem_of_lookup_imap. split.
  - intros (i' & d' & [= -> ->] & H). done.
  - intros H. by exists i, day.
Qed.

Lemma find_first {A} (f : A -> bool) (l : list A) (x : A) :
  x ∈ l -> f x = true -> exists y, find f l = Some y /\ y ∈ l /\ f y = true.
Proof.
  intros Hin Hf. destruct (find f l) as [y|] eqn:E.
  - apply find_some in E as [Hy Hfy]. exists y.
    split_and!; [done|by apply list_elem_of_In|done].
  - exfalso. apply list_elem_of_In in Hin.
    pose proof (find_none f l E x Hin). congruence.
Qed.

Section DecodeCells.
Variables (idx : CourseIndex) (P : Z) (lunch_idx : option Z)
          (a : CpModel.Assignment).

(** The decoding loops leave in every cell the value computed for it. *)
Lemma decode_get (i : nat) (day : string) (p : Z) :
  DAYS !! i = Some day -> 0 <= p < P ->
  grid_get (CpModel.decode idx P lunch_idx a) day (Z.to_nat p)
  = Some (CpModel.decode_cell idx lunch_idx a i p).
Proof.
  intros Hi Hp. unfold CpModel.decode.
  assert (Hd : day ∈ DAYS) by (by eapply list_elem_of_lookup_2).
  assert (Hcell : forall g i' day' p',
    (i', day') ∈ imap (fun i day => (i, day)) DAYS ->
    p' ∈ periods_range P ->
    grid_get g day (Z.to_nat p) = Some (CpModel.decode_cell idx lunch_idx a i p) ->
    grid_get (grid_set g day' (Z.to_nat p')
                (CpModel.decode_cell idx lunch_idx a i' p')) day (Z.to_nat p)
    = Some (CpModel.decode_cell idx lunch_idx a i p)).
  { intros g i' day' p' Hi' Hp' Hg. apply elem_of_periods_range in Hp'.
    apply elem_of_enumerate in Hi'.
    rewrite grid_get_set. case_decide as Hc; [|done].
    destruct Hc as [-> Hc]. assert (p' = p) as -> by lia.
    rewrite Hg. simpl.
    by rewrite (NoDup_lookup DAYS i i' day' NoDup_DAYS Hi Hi'). }
  assert (Hinner : forall g i' day',
    (i', day') ∈ imap (fun i day => (i, day)) DAYS ->
    grid_get g day (Z.to_nat p) = Some (CpModel.decode_cell idx lunch_idx a i p) ->
    grid_get (foldl (fun g p' => grid_set g day' (Z.to_nat p')
                                   (CpModel.decode_cell idx lunch_idx a i' p'))
                g (periods_range P)) day (Z.to_nat p)
    = Some (CpModel.decode_cell idx lunch_idx a i p)).
  { intros g i' day' Hi' Hg.
    apply (foldl_invariant _
      (fun g => grid_get g day (Z.to_nat p)
                = Some (CpModel.decode_cell idx lunch_idx a i p))); [done|].
    intros g' p' Hp' Hg'. by apply Hcell. }
  apply (foldl_establish _ (shape P)
    (fun g => grid_get g day (Z.to_nat p)
              = Some (CpModel.decode_cell idx lunch_idx a i p)) (i, day)).
  - by apply elem_of_enumerate.
  - apply shape_empty_grid.
  - intros g dday _ Hg. apply foldl_invariant; [done|].
    intros g' p' _ Hg'. by apply shape_grid_set.
  - intros g Hg. simpl.
    apply (foldl_establish _ (shape P)
      (fun g => grid_get g day (Z.to_nat p)
                = Some (CpModel.decode_cell idx lunch_idx a i p)) p).
    + by apply elem_of_periods_range.
    + done.
    + intros g' p' _ Hg'. by apply shape_grid_set.
    + intros g' Hg'. apply grid_get_set_same. by apply (shape_cell P).
    + intros g' p' Hp' _ Hg'. apply Hcell; [by apply elem_of_enumerate|done..].
  - intros g [i' day'] Hi' _ Hg. simpl. by apply Hinner.
Qed.
End DecodeCells.

Lemma day_range_lookup (d : nat) : d ∈ day_range -> exists day, DAYS !! d = Some day.
Proof.
  intros Hd%elem_of_seq. apply lookup_lt_is_Some_2. simpl in *. lia.
Qed.

(** X1. In every solution of the exact-solver model two different courses
    of the same teacher are never both scheduled in the same period of the
    same day. *)
Theorem X1_teacher_never_double_booked (courses : list Course)
    (constraints : list Constraint) (P lunch : Z) (a : CpModel.Assignment)
    (cid1 cid2 t : Z) (c1 c2 : Course) (d : nat) (p : Z) :
  let idx := index_courses courses in
  CpModel.sat a (CpModel.build idx P (lunch_idx_of P lunch) constraints) = true ->
  (cid1, c1) ∈ cid_to_course idx -> (cid2, c2) ∈ cid_to_course idx ->
  cid1 ≠ cid2 ->
  teacher_id c1 = Some t -> teacher_id c2 = Some t ->
  d ∈ day_range -> 0 <= p < P ->
  ~ (a (cid1, d, p) = true /\ a (cid2, d, p) = true).
Proof.
  intros idx Hsat.
  by apply (teacher_no_clash courses constraints P (lunch_idx_of P lunch) a Hsat).
Qed.

Lemma X1_witness :
  CpModel.sat assignment_shared
    (CpModel.build (index_courses courses_shared) 2 (lunch_idx_of 2 0) []) = true
  /\ ~ (assignment_shared (1, 0%nat, 0) = true
        /\ assignment_shared (2, 0%nat, 0) = true).
Proof.
  assert (Hsat : CpModel.sat assignment_shared
            (CpModel.build (index_courses courses_shared) 2 (lunch_idx_of 2 0) [])
          = true) by (vm_compute; reflexivity).
  split; [exact Hsat|].
  apply (X1_teacher_never_double_booked courses_shared [] 2 0 assignment_shared
           1 2 7 course_math7 course_physics7 0%nat 0 Hsat).
  - vm_compute. left.
  - vm_compute. right. left.
  - done.
  - reflexivity.
  - reflexivity.
  - vm_compute. left.
  - lia.
Defined.

(** X2. In every solution of the exact-solver model two different courses
    of the same section (a missing section counts as "A") are never both
    scheduled in the same period of the same day. *)
Theorem X2_section_never_double_booked (courses : list Course)
    (constraints : list Constraint) (P lunch : Z) (a : CpModel.Assignment)
    (cid1 cid2 : Z) (c1 c2 : Course) (d : nat) (p : Z) :
  let idx := index_courses courses in
  CpModel.sat a (CpModel.build idx P (lunch_idx_of P lunch) constraints) = true ->
  (cid1, c1) ∈ cid_to_course idx -> (cid2, c2) ∈ cid_to_course idx ->
  cid1 ≠ cid2 ->
  PyStr.or_else (section c1) "A" = PyStr.or_else (section c2) "A" ->
  d ∈ day_range -> 0 <= p < P ->
  ~ (a (cid1, d, p) = true /\ a (cid2, d, p) = true).
Proof.
  intros idx Hsat.
  by apply (section_no_clash courses constraints P (lunch_idx_of P lunch) a Hsat).
Qed.

Lemma X2_witness :
  CpModel.sat assignment_shared
    (CpModel.build (index_courses courses_shared) 2 (lunch_idx_of 2 0) []) = true
  /\ ~ (assignment_shared (1, 3%nat, 1) = true
        /\ assignment_shared (2, 3%nat, 1) = true).
Proof.
  assert (Hsat : CpModel.sat assignment_shared
            (CpModel.build (index_courses courses_shared) 2 (lunch_idx_of 2 0) [])
          = true) by (vm_compute; reflexivity).
  split; [exact Hsat|].
  apply (X2_section_never_double_booked courses_shared [] 2 0 assignment_shared
           1 2 course_math7 course_physics7 3%nat 1 Hsat).
  - vm_compute. left.
  - vm_compute. right. left.
  - done.
  - reflexivity.
  - vm_compute. do 3 right. left.
  - lia.
Defined.

(** X3. In every solution of the exact-solver model, a constraint that the
    model encodes as Hard has one of its matched courses scheduled in one of
    its allowed periods (in range, not the lunch period) on its day. *)
Theorem X3_hard_rule_places_a_candidate (courses : list Course)
    (constraints : list Constraint) (P lunch : Z) (a : CpModel.Assignment)
    (c : Constraint) :
  let idx := index_courses courses in
  let lunch_idx := lunch_idx_of P lunch in
  CpModel.sat a (CpModel.build idx P lunch_idx constraints) = true ->
  c ∈ constraints ->
  is_Some (CpModel.cons_rule idx P lunch_idx c) ->
  CpModel.enforce_exact c = false ->
  exists didx cid p,
    CpModel.cons_didx c = Some didx
    /\ cid ∈ _match_constraint_to_cids c (cid_to_course idx)
    /\ p ∈ CpModel.cons_indices P lunch_idx c
    /\ 0 <= p < P /\ lunch_idx ≠ Some p
    /\ a (cid, didx, p) = true.
Proof.
  intros idx lunch_idx Hsat Hc Hsome Hex.
  destruct (hard_rule_placed courses constraints P lunch_idx a Hsat c Hc Hsome Hex)
    as (didx & cid & p & Hd & Hcid & Hp & Ha).
  exists didx, cid, p. split_and!; try done;
    unfold CpModel.cons_indices in Hp;
    apply period_indices_bound in Hp as (? & _ & ?); [lia|lia|done].
Qed.

Lemma X3_witness :
  exists didx cid p,
    CpModel.cons_didx cons_hard_physics = Some didx
    /\ cid ∈ _match_constraint_to_cids cons_hard_physics
               (cid_to_course (index_courses courses_shared))
    /\ p ∈ CpModel.cons_indices 2 (lunch_idx_of 2 0) cons_hard_physics
    /\ 0 <= p < 2 /\ lunch_idx_of 2 0 ≠ Some p
    /\ assignment_shared (cid, didx, p) = true.
Proof.
  apply (X3_hard_rule_places_a_candidate courses_shared [cons_hard_physics] 2 0
           assignment_shared cons_hard_physics).
  - vm_compute. reflexivity.
  - left.
  - vm_compute. by eexists.
  - vm_compute. reflexivity.
Defined.

Section SingleSection.
Import CpModel.
Variables (courses : list Course) (constraints : list Constraint)
          (P : Z) (lunch_idx : option Z) (a : Assignment).
Local Abbreviation idx := (index_courses courses).
Hypothesis Hsat : sat a (build idx P lunch_idx constraints) = true.

(** A non-lunch cell in which some course is scheduled shows the label of a
    course scheduled there. *)
Lemma decode_cell_scheduled (i : nat) (p : Z) (cid : Z) :
  lunch_idx ≠ Some p -> cid ∈ cid_list idx -> a (cid, i, p) = true ->
  exists cid', cid' ∈ cid_list idx /\ a (cid', i, p) = true
               /\ decode_cell idx lunch_idx a i p = decode_label idx cid'.
Proof using Type.
  intros Hl Hc Ha. unfold decode_cell. rewrite bool_decide_eq_false_2 by done.
  destruct (find_first (fun cid => a (cid, i, p)) (cid_list idx) cid Hc Ha)
    as (cid' & -> & Hin & Hf).
  by exists cid'.
Qed.

Hypothesis one_section : forall c1 c2, c1 ∈ courses -> c2 ∈ courses ->
  PyStr.or_else (section c1) "A" = PyStr.or_else (section c2) "A".

Lemma single_section_shown (cid : Z) :
  cid ∈ cid_list idx ->
  exists day p, day ∈ DAYS /\ 0 <= p < P
    /\ grid_get (decode idx P lunch_idx a) day (Z.to_nat p)
       = Some (decode_label idx cid).
Proof using Hsat one_section.
  intros Hc.
  destruct (course_has_slot courses constraints P lunch_idx a Hsat cid Hc)
    as (d & p & Hd & Hp & Hl & Ha).
  destruct (day_range_lookup d Hd) as [day Hday].
  exists day, p. split_and!; [by eapply list_elem_of_lookup_2|lia|lia|].
  rewrite (decode_get idx P lunch_idx a d day p Hday Hp).
  destruct (decode_cell_scheduled d p cid Hl Hc Ha) as (cid' & Hc' & Ha' & ->).
  destruct (decide (cid' = cid)) as [->|Hne]; [done|]. exfalso.
  destruct (index_courses_get courses cid Hc) as [c Hg%dict_get_Some_in].
  destruct (index_courses_get courses cid' Hc') as [c' Hg'%dict_get_Some_in].
  apply (section_no_clash courses constraints P lunch_idx a Hsat
           cid' c' cid c d p Hg' Hg Hne); [|done..].
  apply one_section; by eapply index_courses_elem.
Qed.
End SingleSection.

(** X4. When all supplied courses are of one section, every grid decoded
    from a solution of the exact-solver model shows each course: some cell
    of the week bears the label of the course (its stripped name or code). *)
Theorem X4_single_section_every_course_shown (courses : list Course)
    (constraints : list Constraint) (P lunch : Z) (a : CpModel.Assignment)
    (cid : Z) :
  let idx := index_courses courses in
  let lunch_idx := lunch_idx_of P lunch in
  CpModel.sat a (CpModel.build idx P lunch_idx constraints) = true ->
  (forall c1 c2, c1 ∈ courses -> c2 ∈ courses ->
     PyStr.or_else (section c1) "A" = PyStr.or_else (section c2) "A") ->
  cid ∈ cid_list idx ->
  exists day p, day ∈ DAYS /\ 0 <= p < P
    /\ grid_get (CpModel.decode idx P lunch_idx a) day (Z.to_nat p)
       = Some (CpModel.decode_label idx cid).
Proof. intros idx lunch_idx Hsat Hone Hc. by eapply single_section_shown. Qed.

Lemma X4_witness :
  exists day p, day ∈ DAYS /\ 0 <= p < 2
    /\ grid_get (CpModel.decode (index_courses courses_shared) 2 (lunch_idx_of 2 0)
                   assignment_shared) day (Z.to_nat p)
       = Some (CpModel.decode_label (index_courses courses_shared) 2).
Proof.
  apply (X4_single_section_every_course_shown courses_shared [] 2 0
           assignment_shared 2).
  - vm_compute. reflexivity.
  - intros c1 c2 H1 H2.
    repeat (apply elem_of_cons in H1 as [->|H1]);
      repeat (apply elem_of_cons in H2 as [->|H2]);
      try reflexivity; try (by apply elem_of_nil in H1); by apply elem_of_nil in H2.
  - vm_compute. right. left.
Defined.

(** X5. Every cell of a grid decoded from the values of the exact solver is
    ["LUNCH"] in the lunch column; elsewhere it is empty when no course has
    value 1 at that day and period, and otherwise it is the label of a
    course that has value 1 there. *)
Theorem X5_decoded_cells_show_scheduled_courses (courses : list Course)
    (P lunch : Z) (a : CpModel.Assignment) (i : nat) (day : string) (p : Z) :
  let idx := index_courses courses in
  let lunch_idx := lunch_idx_of P lunch in
  DAYS !! i = Some day -> 0 <= p < P ->
  exists v,
    grid_get (CpModel.decode idx P lunch_idx a) day (Z.to_nat p) = Some v
    /\ (lunch_idx = Some p -> v = "LUNCH")
    /\ (lunch_idx ≠ Some p ->
        (v = "" /\ forall cid, cid ∈ cid_list idx -> a (cid, i, p) = false)
        \/ (exists cid, cid ∈ cid_list idx /\ a (cid, i, p) = true
                        /\ v = CpModel.decode_label idx cid)).
Proof.
  intros idx lunch_idx Hi Hp. eexists. split; [by apply decode_get|].
  unfold CpModel.decode_cell. split.
  - intros Hl. by rewrite bool_decide_eq_true_2.
  - intros Hl. rewrite bool_decide_eq_false_2 by done.
    destruct (find _ _) as [cid|] eqn:E.
    + right. apply find_some in E as [Hin Ha]. exists cid.
      split_and!; [by apply list_elem_of_In|done..].
    + left. split; [done|]. intros cid Hc%list_elem_of_In.
      by apply (find_none _ _ E).
Qed.

Lemma X5_witness :
  exists v,
    grid_get (CpModel.decode (index_courses courses_shared) 2 (lunch_idx_of 2 0)
                assignment_shared) "Tuesday" (Z.to_nat 1) = Some v
    /\ (lunch_idx_of 2 0 = Some 1 -> v = "LUNCH")
    /\ (lunch_idx_of 2 0 ≠ Some 1 ->
        (v = "" /\ forall cid, cid ∈ cid_list (index_courses courses_shared) ->
                               assignment_shared (cid, 1%nat, 1) = false)
        \/ (exists cid, cid ∈ cid_list (index_courses courses_shared)
                        /\ assignment_shared (cid, 1%nat, 1) = true
                        /\ v = CpModel.decode_label (index_courses courses_shared) cid)).
Proof.
  apply (X5_decoded_cells_show_scheduled_courses courses_shared 2 0
           assignment_shared 1 "Tuesday" 1); [reflexivity|lia].
Defined.

(** ** The course index and the order of the matcher's answer *)

Lemma dict_get_set_eq {K V} `{EqDecision K} (m : list (K * V)) (k : K) (v : V) :
  dict_get (dict_set m k v) k = Some v.
Proof.
  induction m as [|[k' v'] m IH]; simpl; [by rewrite decide_True|].
  case_decide as Hk; simpl.
  - by rewrite decide_True.
  - by rewrite decide_False.
Qed.

Lemma dict_get_set_ne {K V} `{EqDecision K} (m : list (K * V)) (k k' : K) (v : V) :
  k ≠ k' -> dict_get (dict_set m k v) k' = dict_get m k'.
Proof.
  intros Hne. induction m as [|[k0 v0] m IH]; simpl; [by rewrite decide_False|].
  case_decide as Hk; simpl.
  - subst. by rewrite !decide_False.
  - by rewrite IH.
Qed.

Lemma dict_set_NoDup {V} (m : list (Z * V)) (k : Z) (v : V) :
  NoDup (dict_keys m) -> NoDup (dict_keys (dict_set m k v)).
Proof.
  unfold dict_keys. induction m as [|[k' v'] m IH]; simpl; intros Hnd.
  - apply NoDup_singleton.
  - apply NoDup_cons in Hnd as [Hk' Hnd]. case_decide as Hk; simpl.
    + subst. by apply NoDup_cons.
    + apply NoDup_cons. split; [|by apply IH].
      intros [->|?]%(dict_keys_set m k v k'); done.
Qed.

Lemma index_courses_NoDup (courses : list Course) :
  NoDup (dict_keys (cid_to_course (index_courses courses))).
Proof.
  unfold index_courses.
  apply (foldl_invariant index_step (fun st => NoDup (dict_keys (cid_to_course st)))).
  - apply NoDup_nil_2.
  - intros st c _ Hnd. unfold index_step.
    destruct (id c); simpl; by apply dict_set_NoDup.
Qed.

Lemma next_synthetic_negative (courses : list Course) (st : CourseIndex) :
  next_synthetic st < 0 -> next_synthetic (foldl index_step st courses) < 0.
Proof.
  intros H. apply (foldl_invariant index_step (fun st => next_synthetic st < 0));
    [done|].
  intros st' c _ H'. unfold index_step. destruct (id c); simpl; lia.
Qed.

(** X6. The ids that [_match_constraint_to_cids] answers are keys of the
    course dict, in the order of the dict (the order in which the ids first
    appear in the request), each at most once. *)
Theorem X6_matcher_answers_in_dict_order (cons : Constraint) (courses : list Course) :
  let dict := cid_to_course (index_courses courses) in
  let r := _match_constraint_to_cids cons dict in
  r `sublist_of` dict_keys dict /\ NoDup r
  /\ forall cid, cid ∈ r -> cid ∈ cid_list (index_courses courses).
Proof.
  intros dict r.
  assert (Hsub : r `sublist_of` dict_keys dict).
  { subst r. unfold _match_constraint_to_cids.
    assert (forall test, Matcher.select test dict `sublist_of` dict_keys dict) as Hsel.
    { intros test. unfold Matcher.select, dict_keys.
      apply fmap_sublist, sublist_filter. }
    repeat case_match; try apply sublist_nil_l; apply Hsel. }
  split_and!.
  - exact Hsub.
  - eapply sublist_NoDup; [|exact Hsub]. apply index_courses_NoDup.
  - intros cid Hin. apply index_courses_keys.
    by apply (sublist_subseteq _ _ Hsub).
Qed.

(** X7. In the course dict the last course of the request that carries a
    given non-negative id is the one stored under that id. *)
Theorem X7_index_last_course_wins (l1 l2 : list Course) (c : Course) (i : Z) :
  id c = Some i -> 0 <= i ->
  (forall c', c' ∈ l2 -> id c' ≠ Some i) ->
  dict_get (cid_to_course (index_courses (l1 ++ c :: l2))) i = Some c.
Proof.
  intros Hid Hi Hl2. unfold index_courses. rewrite foldl_app. simpl.
  set (st1 := foldl index_step _ l1).
  assert (H1 : next_synthetic st1 < 0) by (by apply next_synthetic_negative).
  apply (foldl_invariant index_step
           (fun st => next_synthetic st < 0 /\ dict_get (cid_to_course st) i = Some c)).
  - unfold index_step. rewrite Hid. simpl. split; [done|apply dict_get_set_eq].
  - intros st c' Hc' [Hneg Hget]. unfold index_step.
    destruct (id c') as [i'|] eqn:Hid'; simpl.
    + split; [done|]. rewrite dict_get_set_ne; [done|].
      intros ->. by apply (Hl2 c').
    + split; [lia|]. rewrite dict_get_set_ne; [done|lia].
Qed.

Lemma X7_witness :
  dict_get (cid_to_course (index_courses
              ([mkCourse 1 "Math" 2 "A"] ++ mkCourse 1 "Maths" 3 "B"
                 :: [mkCourse 2 "English" 1 "A"]))) 1
  = Some (mkCourse 1 "Maths" 3 "B").
Proof.
  apply X7_index_last_course_wins; [reflexivity|lia|].
  intros c' ->%list_elem_of_singleton. discriminate.
Defined.

(** ** The placeholder grid *)

Lemma lunch_in_le (lunch : Z) (k : nat) :
  (lunch_in lunch k <= 1)%nat /\ (lunch_in lunch k <= k)%nat.
Proof.
  unfold lunch_in.
  destruct (Z.leb_spec 1 lunch), (Z.leb_spec lunch (Z.of_nat k)); simpl; lia.
Qed.

Lemma lunch_in_S (lunch : Z) (k : nat) :
  lunch_in lunch (S k)
  = if Z.of_nat k + 1 =? lunch then 1%nat else lunch_in lunch k.
Proof.
  unfold lunch_in.
  destruct (Z.eqb_spec (Z.of_nat k + 1) lunch),
    (Z.leb_spec 1 lunch), (Z.leb_spec lunch (Z.of_nat k)),
    (Z.leb_spec lunch (Z.of_nat (S k))); simpl; lia.
Qed.

Lemma placeholder_cell_lunch (labels : list string) (lunch : Z)
    (st : list string * nat) (p : nat) :
  Dashboard.placeholder_cell labels lunch st p
  = if Z.of_nat p + 1 =? lunch then (st.1 ++ ["LUNCH"], st.2)
    else (st.1 ++ [default "" (labels !! (st.2 mod length labels)%nat)], S st.2).
Proof.
  unfold Dashboard.placeholder_cell.
  destruct (Z.eqb_spec lunch 0), (Z.eqb_spec (Z.of_nat p + 1) lunch);
    simpl; try done; lia.
Qed.

Lemma placeholder_prefix (labels : list string) (lunch : Z) (idx k : nat) :
  let st := foldl (Dashboard.placeholder_cell labels lunch) ([], idx) (seq 0 k) in
  length st.1 = k
  /\ st.2 = (idx + k - lunch_in lunch k)%nat
  /\ forall p, (p < k)%nat ->
       st.1 !! p = Some (if Z.of_nat p + 1 =? lunch then "LUNCH"
                         else default ""
                                (labels !! ((idx + p - lunch_in lunch p)
                                              mod length labels)%nat)).
Proof.
  induction k as [|k IH]; cbv zeta.
  - simpl. split_and!; [done|unfold lunch_in;
      destruct (Z.leb_spec 1 lunch), (Z.leb_spec lunch (Z.of_nat 0)); simpl; lia|lia].
  - rewrite seq_S, foldl_app. cbn [foldl Nat.add].
    destruct IH as (Hlen & Hidx & Hcells).
    set (st := foldl _ _ (seq 0 k)) in *.
    rewrite placeholder_cell_lunch, lunch_in_S.
    pose proof (lunch_in_le lunch k) as [Hl1 Hlk].
    destruct (Z.eqb_spec (Z.of_nat k + 1) lunch) as [Hk|Hk]; simpl.
    + assert (lunch_in lunch k = 0%nat) as H0.
      { unfold lunch_in.
        destruct (Z.leb_spec 1 lunch), (Z.leb_spec lunch (Z.of_nat k)); simpl; lia. }
      split_and!.
      * rewrite length_app. simpl. lia.
      * lia.
      * intros p Hp. destruct (decide (p = k)) as [->|Hne].
        -- rewrite lookup_app_r by lia. rewrite Hlen, Nat.sub_diag. simpl.
           destruct (Z.eqb_spec (Z.of_nat k + 1) lunch); [done|lia].
        -- rewrite lookup_app_l by lia. apply Hcells. lia.
    + split_and!.
      * rewrite length_app. simpl. lia.
      * lia.
      * intros p Hp. destruct (decide (p = k)) as [->|Hne].
        -- rewrite lookup_app_r by lia. rewrite Hlen, Nat.sub_diag. simpl.
           destruct (Z.eqb_spec (Z.of_nat k + 1) lunch); [lia|].
           by rewrite Hidx.
        -- rewrite lookup_app_l by lia. apply Hcells. lia.
Qed.

Lemma placeholder_labels_ne (courses : option (list Course)) :
  Dashboard.placeholder_labels courses ≠ [].
Proof.
  unfold Dashboard.placeholder_labels.
  destruct courses as [cs|]; [|done]. by destruct (_ <$> cs).
Qed.

Lemma placeholder_grid_rows (courses : option (list Course)) (periods lunch : Z) :
  let labels := Dashboard.placeholder_labels courses in
  let m := (Z.to_nat periods - lunch_in lunch (Z.to_nat periods))%nat in
  Dashboard._build_placeholder_grid courses periods lunch
  = imap (fun i d => (d, (Dashboard.placeholder_row labels periods lunch (i * m)).1))
         DAYS.
Proof.
  intros labels m.
  assert (forall idx, (Dashboard.placeholder_row labels periods lunch idx).2
                      = (idx + m)%nat) as Hnext.
  { intros idx. unfold Dashboard.placeholder_row.
    pose proof (placeholder_prefix labels lunch idx (Z.to_nat periods))
      as (_ & -> & _).
    pose proof (lunch_in_le lunch (Z.to_nat periods)). subst m. lia. }
  unfold Dashboard._build_placeholder_grid, DAYS. fold labels.
  cbn [foldl fst snd]. rewrite !Hnext. simpl.
  by rewrite !Nat.add_0_r, !Nat.add_assoc.
Qed.

(** X8. The placeholder grid has the five weekdays and [periods] cells a
    day; the cell of the lunch period is "LUNCH", and the other cells run
    through the labels of the teacher's courses round robin, in reading
    order, the count carried on from one day to the next. *)
Theorem X8_placeholder_round_robin (courses : option (list Course))
    (periods lunch : Z) :
  let g := Dashboard._build_placeholder_grid courses periods lunch in
  let labels := Dashboard.placeholder_labels courses in
  let m := (Z.to_nat periods - lunch_in lunch (Z.to_nat periods))%nat in
  shape periods g /\ labels ≠ []
  /\ forall i day p, DAYS !! i = Some day -> (p < Z.to_nat periods)%nat ->
       grid_get g day p
       = Some (if Z.of_nat p + 1 =? lunch then "LUNCH"
               else default ""
                      (labels !! ((i * m + p - lunch_in lunch p)
                                    mod length labels)%nat)).
Proof.
  intros g labels m. subst g. rewrite placeholder_grid_rows. fold labels m.
  split_and!.
  - split; [reflexivity|].
    apply Forall_forall. intros [d r] Hin. simpl.
    apply list_elem_of_lookup_1 in Hin as [i Hi].
    apply list_lookup_imap_Some in Hi as (d' & _ & [= -> ->]).
    unfold Dashboard.placeholder_row.
    by pose proof (placeholder_prefix labels lunch (i * m) (Z.to_nat periods))
      as (-> & _ & _).
  - apply placeholder_labels_ne.
  - intros i day p Hday Hp.
    pose proof (placeholder_prefix labels lunch (i * m) (Z.to_nat periods))
      as (_ & _ & Hcells).
    specialize (Hcells p Hp). fold (Dashboard.placeholder_row labels periods lunch (i * m)) in Hcells.
    unfold DAYS in Hday. unfold grid_get.
    do 5 (destruct i as [|i]; [injection Hday as <-; exact Hcells|]).
    done.
Qed.

(** ** Normalizing the labels of the worker's grid *)

Lemma dict_set_fresh {K V} `{EqDecision K} (m : list (K * V)) (k : K) (v : V) :
  k ∉ dict_keys m -> dict_set m k v = m ++ [(k, v)].
Proof.
  unfold dict_keys. induction m as [|[k' v'] m IH]; simpl; [done|].
  intros Hk. apply not_elem_of_cons in Hk as [Hne Hk].
  rewrite decide_False by done. by rewrite IH.
Qed.

Lemma normalize_fold (acc : Grid) (raw : Dashboard.RawGrid) :
  NoDup (dict_keys acc ++ raw.*1) ->
  foldl (fun normalized dr =>
           dict_set normalized dr.1 (Dashboard.normalize_cell <$> dr.2)) acc raw
  = acc ++ ((fun dr : string * list (option string) =>
               (dr.1, Dashboard.normalize_cell <$> dr.2)) <$> raw).
Proof.
  revert acc. induction raw as [|[d r] raw IH]; intros acc Hnd; simpl.
  - by rewrite app_nil_r.
  - simpl in Hnd. apply NoDup_app in Hnd as (Hacc & Hdisj & Hraw).
    apply NoDup_cons in Hraw as [Hd Hraw].
    assert (d ∉ dict_keys acc) as Hfresh.
    { intros Hin. apply (Hdisj d Hin). left. }
    rewrite dict_set_fresh by done. rewrite IH.
    + by rewrite <- app_assoc.
    + unfold dict_keys. rewrite fmap_app. simpl.
      rewrite <- app_assoc. simpl.
      apply NoDup_app. split_and!; [done| |by apply NoDup_cons].
      intros x Hx [->|Hin]%elem_of_cons; [done|]. apply (Hdisj x Hx). by right.
Qed.

(** On a dict (distinct keys) the loop rewrites every row in place. *)
Lemma normalize_rows (raw : Dashboard.RawGrid) :
  NoDup raw.*1 ->
  Dashboard._normalize_grid_labels raw
  = (fun dr : string * list (option string) =>
       (dr.1, Dashboard.normalize_cell <$> dr.2)) <$> raw.
Proof.
  intros Hnd. unfold Dashboard._normalize_grid_labels.
  by rewrite normalize_fold.
Qed.

Lemma normalize_cell_idemp (cell : option string) :
  Dashboard.normalize_cell (Some (Dashboard.normalize_cell cell))
  = Dashboard.normalize_cell cell.
Proof.
  destruct cell as [s|]; [|reflexivity]. simpl.
  destruct (String.eqb (PyStr.upper (PyStr.strip s)) "LUNCH") eqn:E; [reflexivity|].
  simpl. by rewrite E.
Qed.

Lemma normalize_cell_canonical (cell : option string) :
  PyStr.upper (PyStr.strip (Dashboard.normalize_cell cell)) = "LUNCH" ->
  Dashboard.normalize_cell cell = "LUNCH".
Proof.
  destruct cell as [s|]; simpl; [|done].
  destruct (String.eqb (PyStr.upper (PyStr.strip s)) "LUNCH") eqn:E; [done|].
  intros H. rewrite H in E. done.
Qed.

(** What the loop keeps whatever the input: distinct keys, and rows of
    normalized cells. *)
Lemma normalize_inv (raw : Dashboard.RawGrid) :
  let n := Dashboard._normalize_grid_labels raw in
  NoDup (dict_keys n)
  /\ forall d r, (d, r) ∈ n ->
       exists r0, (d, r0) ∈ raw /\ r = Dashboard.normalize_cell <$> r0.
Proof.
  unfold Dashboard._normalize_grid_labels.
  apply (foldl_invariant
           (fun normalized (dr : string * list (option string)) =>
              dict_set normalized dr.1 (Dashboard.normalize_cell <$> dr.2))
           (fun n => NoDup (dict_keys n)
                     /\ forall d r, (d, r) ∈ n ->
                          exists r0, (d, r0) ∈ raw
                                     /\ r = Dashboard.normalize_cell <$> r0)).
  - split; [apply NoDup_nil_2|]. intros d r Hin. by apply elem_of_nil in Hin.
  - intros n [d r0] Hin [Hnd Hrows]. simpl. split.
    + clear Hrows. revert Hnd. unfold dict_keys.
      induction n as [|[k v] n IH]; simpl; intros Hnd.
      * apply NoDup_singleton.
      * apply NoDup_cons in Hnd as [Hk Hnd]. case_decide as Hkd; simpl.
        -- subst. by apply NoDup_cons.
        -- apply NoDup_cons. split; [|by apply IH].
           intros Hin'. apply list_elem_of_fmap in Hin' as [[k' v'] [-> Hin']].
           apply dict_set_elem in Hin' as [[= -> _]|Hin']; [done|].
           apply Hk. apply list_elem_of_fmap. by exists (k', v').
    + intros d' r Hdr. apply dict_set_elem in Hdr as [[= -> ->]|Hdr].
      * by exists r0.
      * by apply Hrows.
Qed.

Lemma as_raw_keys (g : Grid) : (as_raw g).*1 = dict_keys g.
Proof.
  unfold as_raw, dict_keys. rewrite <- list_fmap_compose. by apply list_fmap_ext.
Qed.

Lemma normalize_as_raw (g : Grid) :
  NoDup (dict_keys g) ->
  Dashboard._normalize_grid_labels (as_raw g)
  = (fun dr : string * list string =>
       (dr.1, (fun c => Dashboard.normalize_cell (Some c)) <$> dr.2)) <$> g.
Proof.
  intros Hnd. rewrite normalize_rows by (by rewrite as_raw_keys).
  unfold as_raw. rewrite <- list_fmap_compose.
  apply list_fmap_ext. intros i [d r] _. simpl.
  by rewrite <- list_fmap_compose.
Qed.

(** X9. Normalizing the labels a second time changes nothing, and in a
    normalized grid a cell that reads as lunch (after trimming, in any
    case) is exactly "LUNCH". *)
Theorem X9_normalize_labels_idempotent (raw : Dashboard.RawGrid) :
  let n := Dashboard._normalize_grid_labels raw in
  Dashboard._normalize_grid_labels (as_raw n) = n
  /\ forall d r c, (d, r) ∈ n -> c ∈ r ->
       PyStr.upper (PyStr.strip c) = "LUNCH" -> c = "LUNCH".
Proof.
  intros n. destruct (normalize_inv raw) as [Hnd Hrows]. fold n in Hnd, Hrows.
  split.
  - rewrite normalize_as_raw by done.
    rewrite <- (list_fmap_id n) at 2. apply list_fmap_ext.
    intros i [d r] Hi. simpl. f_equal.
    apply list_elem_of_lookup_2 in Hi. apply Hrows in Hi as (r0 & _ & ->).
    rewrite <- list_fmap_compose. apply list_fmap_ext.
    intros j c _. simpl. apply normalize_cell_idemp.
  - intros d r c Hr Hc Hl. apply Hrows in Hr as (r0 & _ & ->).
    apply list_elem_of_fmap in Hc as (c0 & -> & _).
    by apply normalize_cell_canonical.
Qed.

Lemma dict_get_fmap_rows {A B} (h : list A -> list B) (g : list (string * list A))
    (d : string) :
  dict_get ((fun dr : string * list A => (dr.1, h dr.2)) <$> g) d
  = h <$> dict_get g d.
Proof.
  induction g as [|[k r] g IH]; simpl; [done|].
  case_decide; simpl; done.
Qed.

Lemma column_labels_ext (g g' : Grid) (f : string -> string) (days : list string)
    (p : nat) :
  (forall d, grid_get g' d p = f <$> grid_get g d p) ->
  (forall c, PyStr.nonempty (f c) = PyStr.nonempty c) ->
  (forall c, String.eqb (PyStr.upper (PyStr.strip (f c))) LUNCH
             = String.eqb (PyStr.upper (PyStr.strip c)) LUNCH) ->
  (forall c, String.eqb (PyStr.upper (PyStr.strip c)) LUNCH = false -> f c = c) ->
  Dashboard.column_labels g' days p = Dashboard.column_labels g days p.
Proof.
  intros Hget Hne Hl Hid. induction days as [|d days IH]; simpl; [done|].
  rewrite Hget, IH. destruct (grid_get g d p) as [c|]; simpl; [|done].
  destruct (Dashboard.column_labels g days p) as [rest|]; simpl; [|done].
  rewrite Hne, Hl. destruct (PyStr.nonempty c); simpl; [|done].
  destruct (String.eqb (PyStr.upper (PyStr.strip c)) LUNCH) eqn:E; [done|].
  by rewrite Hid.
Qed.

Lemma score_columns_ext (g g' : Grid) (days : list string) (ps : list nat) :
  (forall p, Dashboard.column_labels g' days p = Dashboard.column_labels g days p) ->
  Dashboard.score_columns g' days ps = Dashboard.score_columns g days ps.
Proof.
  intros H. induction ps as [|p ps IH]; simpl; [done|]. by rewrite H, IH.
Qed.

Lemma normalize_some_facts (c : string) :
  let f := fun c => Dashboard.normalize_cell (Some c) in
  PyStr.nonempty (f c) = PyStr.nonempty c
  /\ String.eqb (PyStr.upper (PyStr.strip (f c))) LUNCH
     = String.eqb (PyStr.upper (PyStr.strip c)) LUNCH
  /\ (String.eqb (PyStr.upper (PyStr.strip c)) LUNCH = false -> f c = c).
Proof.
  simpl. unfold LUNCH.
  destruct (String.eqb (PyStr.upper (PyStr.strip c)) "LUNCH") eqn:E.
  - split_and!; [|done|done]. destruct c; [discriminate E|done].
  - by rewrite E.
Qed.

(** X10. On a grid of strings (a dict: distinct day names) the
    normalization keeps the days, the length of every row and the diversity
    score; it rewrites only the cells that read as lunch. *)
Theorem X10_normalize_keeps_shape_and_score (g : Grid) :
  NoDup (dict_keys g) ->
  let n := Dashboard._normalize_grid_labels (as_raw g) in
  dict_keys n = dict_keys g
  /\ (forall P, shape P g -> shape P n)
  /\ (forall d p, grid_get n d p
                  = (fun c => if String.eqb (PyStr.upper (PyStr.strip c)) "LUNCH"
                              then "LUNCH" else c) <$> grid_get g d p)
  /\ Dashboard._diversity_score n = Dashboard._diversity_score g.
Proof.
  intros Hnd n. subst n. rewrite normalize_as_raw by done.
  set (f := fun c => Dashboard.normalize_cell (Some c)).
  set (n := _ <$> g).
  assert (Hkeys : dict_keys n = dict_keys g).
  { subst n. unfold dict_keys. rewrite <- list_fmap_compose.
    by apply list_fmap_ext. }
  assert (Hget : forall d p, grid_get n d p = f <$> grid_get g d p).
  { intros d p. unfold grid_get. subst n.
    rewrite (dict_get_fmap_rows (fmap f)).
    destruct (dict_get g d) as [row|]; simpl; [|done].
    by rewrite list_lookup_fmap. }
  split_and!; [done| |exact Hget|].
  - intros P [HD Hlen]. split; [by rewrite Hkeys|].
    subst n. apply Forall_fmap. eapply Forall_impl; [exact Hlen|].
    intros [d r] Hr. simpl in *. by rewrite length_fmap.
  - unfold Dashboard._diversity_score. rewrite Hkeys.
    assert (Dashboard.grid_periods n = Dashboard.grid_periods g) as ->.
    { subst n. destruct g as [|[d r] g]; simpl; [done|]. by rewrite length_fmap. }
    f_equal. apply score_columns_ext. intros p.
    apply (column_labels_ext g n f); [done|..]; intros c;
      by destruct (normalize_some_facts c) as (? & ? & ?).
Qed.

Lemma X10_witness :
  NoDup (dict_keys grid_ex)
  /\ Dashboard._diversity_score (Dashboard._normalize_grid_labels (as_raw grid_ex))
     = Dashboard._diversity_score grid_ex.
Proof.
  assert (NoDup (dict_keys grid_ex)) as Hnd by compute_done.
  split; [exact Hnd|].
  exact (proj2 (proj2 (proj2 (X10_normalize_keeps_shape_and_score grid_ex Hnd)))).
Defined.

(** ** What the improvement loop answers, and what [on_finished] shows *)

Section ImproveAnswer.
Variable validate : Grid -> bool * list Dashboard.Msg.
Variable high_water : nat -> nat -> nat -> bool.
Variable draw : nat -> nat.
Variable lunch_idx : option Z.

(** A property of grids that every swap keeps holds of the loop's answer. *)
Lemma improve_loop_preserves (I : Grid -> Prop) days periods slots iters k
    best best_score r :
  (forall s, s ∈ slots -> lunch_idx ≠ Some (Z.of_nat s.2)) ->
  (forall g b, I g -> is_swap_of lunch_idx g b -> I b) ->
  I best ->
  Dashboard.improve_loop validate high_water draw days periods slots iters k
    best best_score = Some r ->
  I r.
Proof.
  intros Hslots HI. revert k best best_score.
  induction iters as [|iters IH]; intros k best best_score Hbest; simpl.
  - by intros [= <-].
  - pose proof (improve_iter_kept validate high_water draw lunch_idx
                  days periods slots k best best_score Hslots) as Hk.
    destruct (Dashboard.improve_iter validate high_water draw
                days periods slots k best best_score)
      as [b s|b|]; simpl in Hk; [| |done].
    + destruct Hk as [[-> ->]|(Hsw & _)]; apply IH; [done|by eapply HI].
    + intros [= <-]. destruct Hk as (Hsw & _). by eapply HI.
Qed.

Lemma improve_preserves (I : Grid -> Prop) grid max_iters :
  (forall g b, I g -> is_swap_of lunch_idx g b -> I b) ->
  I grid ->
  I (Dashboard._improve_grid_via_swaps validate high_water draw grid max_iters
       lunch_idx).
Proof.
  intros HI Hg. unfold Dashboard._improve_grid_via_swaps.
  destruct (_ <? 2)%nat; [done|].
  destruct (Dashboard.improve_loop _ _ _ _ _ _ _ _ _ _) as [r|] eqn:Hr; simpl;
    [|done].
  eapply improve_loop_preserves; [|exact HI|exact Hg|exact Hr].
  intros [di p] (_ & _ & Hl)%elem_of_slots_of. done.
Qed.

(** The loop answers the grid it started from or a grid that scores
    strictly higher. *)
Lemma improve_loop_same_or_better days periods slots iters k best best_score r :
  (forall s, s ∈ slots -> lunch_idx ≠ Some (Z.of_nat s.2)) ->
  best_score = Dashboard._diversity_score best ->
  Dashboard.improve_loop validate high_water draw days periods slots iters k
    best best_score = Some r ->
  r = best \/ (best_score < Dashboard._diversity_score r)%nat.
Proof.
  intros Hslots. revert k best best_score.
  induction iters as [|iters IH]; intros k best best_score Hsc; simpl.
  - intros [= <-]. by left.
  - pose proof (improve_iter_kept validate high_water draw lunch_idx
                  days periods slots k best best_score Hslots) as Hk.
    destruct (Dashboard.improve_iter validate high_water draw
                days periods slots k best best_score)
      as [b s|b|]; simpl in Hk; [| |done].
    + intros Hr. destruct Hk as [[-> ->]|(Hsw & Hv & -> & Hlt)].
      * by apply (IH (S k)).
      * apply (IH (S k)) in Hr as [->|Hlt']; [|lia|done]. right. lia.
    + intros [= <-]. destruct Hk as (_ & _ & Hlt). by right.
Qed.

Lemma improve_same_or_better grid max_iters :
  let r := Dashboard._improve_grid_via_swaps validate high_water draw
             grid max_iters lunch_idx in
  r = grid \/ (Dashboard._diversity_score grid < Dashboard._diversity_score r)%nat.
Proof.
  unfold Dashboard._improve_grid_via_swaps.
  destruct (_ <? 2)%nat; [by left|].
  destruct (Dashboard.improve_loop _ _ _ _ _ _ _ _ _ _) as [r|] eqn:Hr; simpl;
    [|by left].
  eapply improve_loop_same_or_better; [|reflexivity|exact Hr].
  intros [di p] (_ & _ & Hl)%elem_of_slots_of. done.
Qed.
End ImproveAnswer.

(** X11. [on_finished] always shows the answer of the improvement loop: its
    choice between the improved grid and the normalized one never falls on
    a grid the loop did not answer. The grid shown scores at least as high
    as the normalized grid and is valid when that one is. *)
Theorem X11_on_finished_shows_improved (_last_section : string)
    (constraints : option (list Constraint))
    (high_water : nat -> nat -> nat -> bool) (draw : nat -> nat)
    (raw : Dashboard.RawGrid) (max_iters : nat) (lunch_idx : option Z) :
  let validate := Dashboard._validate_grid_constraints _last_section constraints in
  let grid := Dashboard._normalize_grid_labels raw in
  let final :=
    Dashboard.on_finished_final validate high_water draw raw max_iters lunch_idx in
  final = Dashboard._improve_grid_via_swaps validate high_water draw grid
            max_iters lunch_idx
  /\ (Dashboard._diversity_score grid <= Dashboard._diversity_score final)%nat
  /\ ((validate grid).1 = true -> (validate final).1 = true).
Proof.
  intros validate grid final.
  assert (Hfinal : final = Dashboard._improve_grid_via_swaps validate high_water
                             draw grid max_iters lunch_idx).
  { subst final. unfold Dashboard.on_finished_final. fold grid.
    destruct (improve_same_or_better validate high_water draw lunch_idx
                grid max_iters) as [->|Hlt].
    - by destruct (_ <? _)%nat.
    - apply Nat.ltb_lt in Hlt. by rewrite Hlt. }
  rewrite Hfinal.
  destruct (improve_result validate high_water draw lunch_idx grid max_iters)
    as (Hsc & Hv & _).
  split_and!; [done|exact Hsc|].
  intros Hg. destruct Hv as [->|Hv]; done.
Qed.

(** ** The validator on a list of constraints in two parts *)

Lemma validate_step_from (sec : string) (grid : Grid) (st : bool * list Dashboard.Msg)
    (c : Constraint) :
  let r := Dashboard.validate_step sec grid (true, []) c in
  Dashboard.validate_step sec grid st c = (st.1 && r.1, st.2 ++ r.2).
Proof.
  destruct st as [ok msgs]. unfold Dashboard.validate_step. simpl.
  destruct (negb (Dashboard.checked sec c)); simpl.
  { by rewrite andb_true_r, app_nil_r. }
  destruct (dict_get _ _) as [row|]; simpl.
  - destruct (Dashboard.found_in _ _ _); simpl.
    + by rewrite andb_true_r, app_nil_r.
    + by rewrite andb_false_r.
  - by rewrite andb_false_r.
Qed.

Lemma validate_fold_from (sec : string) (grid : Grid) (cs : list Constraint)
    (st : bool * list Dashboard.Msg) :
  let r := foldl (Dashboard.validate_step sec grid) (true, []) cs in
  foldl (Dashboard.validate_step sec grid) st cs = (st.1 && r.1, st.2 ++ r.2).
Proof.
  revert st. induction cs as [|c cs IH] using rev_ind; intros st; simpl.
  - rewrite andb_true_r, app_nil_r. by destruct st.
  - rewrite !foldl_app. simpl. rewrite IH.
    rewrite validate_step_from. simpl.
    rewrite (validate_step_from sec grid (foldl _ (true, []) cs)). simpl.
    by rewrite andb_assoc, app_assoc.
Qed.

(** X12. Validating a list of constraints in two parts gives the same
    verdict and the same messages as validating it whole: the verdict is
    the conjunction of the two verdicts, the messages are those of the first
    part followed by those of the second. *)
Theorem X12_validator_of_two_parts (_last_section : string)
    (cs1 cs2 : list Constraint) (grid : Grid) :
  let validate cs :=
    Dashboard._validate_grid_constraints _last_section (Some cs) grid in
  validate (cs1 ++ cs2)
  = ((validate cs1).1 && (validate cs2).1, (validate cs1).2 ++ (validate cs2).2).
Proof.
  simpl. rewrite foldl_app. by rewrite validate_fold_from.
Qed.

(** ** A bound on the diversity score *)

Lemma column_labels_length (g : Grid) (days : list string) (p : nat)
    (seen : list string) :
  Dashboard.column_labels g days p = Some seen -> (length seen <= length days)%nat.
Proof.
  revert seen. induction days as [|d days IH]; intros seen; simpl.
  - by intros [= <-].
  - destruct (grid_get g d p) as [val|]; simpl; [|done].
    destruct (Dashboard.column_labels g days p) as [rest|]; simpl; [|done].
    specialize (IH rest eq_refl).
    intros [= <-]. repeat case_match; simpl; lia.
Qed.

Lemma score_columns_bound (g : Grid) (days : list string) (ps : list nat) (n : nat) :
  Dashboard.score_columns g days ps = Some n ->
  (n <= length ps * length days)%nat.
Proof.
  revert n. induction ps as [|p ps IH]; intros n; simpl.
  - intros [= <-]. lia.
  - destruct (Dashboard.column_labels g days p) as [seen|] eqn:Hseen; simpl; [|done].
    destruct (Dashboard.score_columns g days ps) as [rest|]; simpl; [|done].
    intros [= <-]. specialize (IH rest eq_refl).
    apply column_labels_length in Hseen.
    assert (length (remove_dups seen) <= length seen)%nat.
    { apply submseteq_length, NoDup_submseteq; [apply NoDup_remove_dups|].
      intros x. by rewrite elem_of_remove_dups. }
    lia.
Qed.

(** X13. The diversity score of a grid is at most the number of its cells
    (periods of the first row times days), so at most one point a cell. *)
Theorem X13_diversity_score_bound (grid : Grid) :
  (Dashboard._diversity_score grid
   <= Dashboard.grid_periods grid * length grid)%nat.
Proof.
  unfold Dashboard._diversity_score.
  destruct (Dashboard.score_columns _ _ _) as [n|] eqn:Hn; simpl; [|lia].
  apply score_columns_bound in Hn.
  rewrite length_seq in Hn. unfold dict_keys in Hn. by rewrite length_fmap in Hn.
Qed.

(** ** The improvement loop moves labels, it neither adds nor drops one *)

Lemma insert_perm {A} (row : list A) (p : nat) (old v : A) :
  row !! p = Some old -> old :: <[p := v]> row ≡ₚ v :: row.
Proof.
  revert p. induction row as [|x row IH]; intros p; [done|].
  destruct p as [|p]; simpl.
  - intros [= ->]. apply perm_swap.
  - intros Hp. rewrite (perm_swap x old), (IH p Hp). apply perm_swap.
Qed.

Lemma grid_set_notin (g : Grid) (d : string) (p : nat) (v : string) :
  d ∉ dict_keys g -> grid_set g d p v = g.
Proof.
  intros Hd. unfold grid_set. rewrite <- (list_fmap_id g) at 2.
  apply list_fmap_ext. intros i [k r] Hi. simpl.
  case_decide as Hk; [|done]. subst. exfalso. apply Hd.
  apply list_elem_of_fmap. exists (d, r). split; [done|].
  by eapply list_elem_of_lookup_2.
Qed.

Lemma cells_grid_set (g : Grid) (d : string) (p : nat) (old v : string) :
  NoDup (dict_keys g) -> grid_get g d p = Some old ->
  old :: cells (grid_set g d p v) ≡ₚ v :: cells g.
Proof.
  unfold cells, grid_get.
  induction g as [|[k r] g IH]; simpl; [done|]. intros Hnd.
  apply NoDup_cons in Hnd as [Hk Hnd].
  destruct (decide (k = d)) as [->|Hne]; simpl.
  - intros Hp. fold (grid_set g d p v). rewrite grid_set_notin by done.
    rewrite !app_comm_cons. by rewrite (insert_perm r p old v Hp).
  - intros Hp. fold (grid_set g d p v).
    rewrite (Permutation_middle r _ old), (Permutation_middle r _ v).
    apply Permutation_app_head. by apply IH.
Qed.

Lemma is_swap_of_cells (lunch_idx : option Z) (best b : Grid) :
  NoDup (dict_keys best) -> is_swap_of lunch_idx best b ->
  cells b ≡ₚ cells best.
Proof.
  intros Hnd (day_a & pa & day_b & pb & va & vb & Ha & Hb & _ & _ & _ & ->).
  unfold Dashboard.swap_cells.
  set (g1 := grid_set best day_a pa vb).
  assert (grid_get g1 day_b pb = Some vb) as Hb1.
  { subst g1. rewrite grid_get_set. case_decide as Hsame.
    - by rewrite Ha.
    - done. }
  pose proof (cells_grid_set best day_a pa va vb Hnd Ha) as H1. fold g1 in H1.
  assert (NoDup (dict_keys g1)) as Hnd1 by (subst g1; by rewrite grid_set_keys).
  pose proof (cells_grid_set g1 day_b pb vb va Hnd1 Hb1) as H2.
  apply (Permutation_cons_inv (a := vb)).
  by rewrite H2, <- H1.
Qed.

(** X14. The improved grid holds the same labels as the grid it started
    from, each as many times (the loop only exchanges cells), under the
    same day names. *)
Theorem X14_improve_keeps_the_cells (validate : Grid -> bool * list Dashboard.Msg)
    (high_water : nat -> nat -> nat -> bool) (draw : nat -> nat)
    (grid : Grid) (max_iters : nat) (lunch_idx : option Z) :
  NoDup (dict_keys grid) ->
  let improved :=
    Dashboard._improve_grid_via_swaps validate high_water draw grid max_iters
      lunch_idx in
  dict_keys improved = dict_keys grid /\ cells improved ≡ₚ cells grid.
Proof.
  intros Hnd improved.
  apply (improve_preserves validate high_water draw lunch_idx
           (fun g => dict_keys g = dict_keys grid /\ cells g ≡ₚ cells grid)).
  - intros g b [Hk Hc] Hsw. split.
    + destruct Hsw as (? & ? & ? & ? & ? & ? & _ & _ & _ & _ & _ & ->).
      unfold Dashboard.swap_cells. by rewrite !grid_set_keys.
    + rewrite <- Hc. apply (is_swap_of_cells lunch_idx); [by rewrite Hk|done].
  - done.
Qed.

Lemma X14_witness :
  let validate :=
    Dashboard._validate_grid_constraints "A"
      (Some [mkCons "Math" "Monday" "P1-P2" "Hard"]) in
  let improved :=
    Dashboard._improve_grid_via_swaps validate (fun _ _ _ => false) (fun k => k)
      grid_ex 3 (Some 2) in
  NoDup (dict_keys grid_ex) /\ improved ≠ grid_ex
  /\ cells improved ≡ₚ cells grid_ex.
Proof.
  intros validate improved.
  assert (NoDup (dict_keys grid_ex)) as Hnd by compute_done.
  split_and!; [exact Hnd|by vm_compute|].
  exact (proj2 (X14_improve_keeps_the_cells validate (fun _ _ _ => false)
                  (fun k => k) grid_ex 3 (Some 2) Hnd)).
Defined.

(** ** Synthetic courses *)

Lemma dict_keys_dict_set {K V} `{EqDecision K} (m : list (K * V)) (k : K) (v : V)
    (x : K) :
  x ∈ dict_keys (dict_set m k v) <-> x = k \/ x ∈ dict_keys m.
Proof.
  unfold dict_keys. induction m as [|[k' v'] m IH]; simpl.
  - rewrite list_elem_of_singleton. rewrite elem_of_nil. tauto.
  - case_decide as Hk; simpl; rewrite !elem_of_cons.
    + subst. tauto.
    + rewrite IH. tauto.
Qed.

(** The course stored under an id is the last one that carries it, when
    every later course has an id of its own. *)
Lemma index_courses_stored (l1 l2 : list Course) (c : Course) (i : Z) :
  id c = Some i ->
  (forall c', c' ∈ l2 -> exists j, id c' = Some j /\ j ≠ i) ->
  dict_get (cid_to_course (index_courses (l1 ++ c :: l2))) i = Some c.
Proof.
  intros Hid Hl2. unfold index_courses. rewrite foldl_app. simpl.
  apply (foldl_invariant index_step
           (fun st => dict_get (cid_to_course st) i = Some c)).
  - unfold index_step. rewrite Hid. simpl. apply dict_get_set_eq.
  - intros st c' Hc' Hget. unfold index_step.
    destruct (Hl2 c' Hc') as (j & -> & Hj). simpl.
    by rewrite dict_get_set_ne.
Qed.

Section SyntheticFacts.
Context {V : Type}.
Variable entry_of_course : Course -> V.
Variable entry_of_synthetic : string -> Z -> V.
Variable credits_of : Constraint -> Z.

Local Abbreviation step := (synthetic_step entry_of_synthetic credits_of).
Local Abbreviation synth := (synthetic_course credits_of).

Lemma synthetic_label (cons : Constraint) (sid : Z) :
  let cname := PyStr.strip (cons_course_name cons) in
  PyStr.nonempty cname = true ->
  course_label (synth cons cname sid) = cname.
Proof.
  intros cname Hne. unfold course_label. simpl. unfold PyStr.or_else at 1.
  rewrite Hne. apply strip_idemp.
Qed.

Lemma synthetic_step_cases (st : SynthState) (cons : Constraint) :
  let cname := PyStr.strip (cons_course_name cons) in
  step st cons = st
  \/ (PyStr.nonempty cname = true
      /\ (_normalize_text cname ∉ dict_keys (sy_map st))
      /\ step st cons
         = {| sy_courses := sy_courses st ++ [synth cons cname (sy_next st)];
              sy_map := dict_set (sy_map st) (_normalize_text cname)
                          (entry_of_synthetic cname (sy_next st));
              sy_next := sy_next st - 1 |}).
Proof.
  intros cname. unfold synthetic_step. fold cname.
  destruct (PyStr.nonempty cname); simpl; [|by left].
  case_bool_decide; [by left|by right].
Qed.

(** What a run of the loop appends: courses with the ids
    [sy_next], [sy_next - 1], ... *)
Lemma synthetic_fold_from (cs : list Constraint) (st : SynthState) :
  exists more,
    sy_courses (foldl step st cs) = sy_courses st ++ more
    /\ sy_next (foldl step st cs) = sy_next st - Z.of_nat (length more)
    /\ id <$> more = (fun k => Some (sy_next st - Z.of_nat k)) <$> seq 0 (length more)
    /\ (length more <= length cs)%nat.
Proof.
  revert st. induction cs as [|cons cs IH]; intros st; simpl.
  - exists []. simpl. rewrite app_nil_r. split_and!; [done|lia|done|lia].
  - destruct (IH (step st cons)) as (more & Hc & Hn & Hid & Hlen).
    destruct (synthetic_step_cases st cons) as [Heq|(_ & _ & Heq)].
    + rewrite Heq in *. exists more. split_and!; [done|done|done|lia].
    + rewrite Hc, Hn, Heq. rewrite Heq in Hid. simpl in *.
      exists (synth cons (PyStr.strip (cons_course_name cons)) (sy_next st) :: more).
      split_and!.
      * by rewrite <- app_assoc.
      * simpl. lia.
      * cbn [length seq]. rewrite !fmap_cons. f_equal.
        { simpl. f_equal. lia. }
        rewrite Hid, <- fmap_S_seq, <- list_fmap_compose.
        apply list_fmap_ext. intros i k _. simpl. f_equal. lia.
      * simpl. lia.
Qed.

Lemma label_map_keys (courses : list Course) (key : string) :
  key ∈ dict_keys (label_map_of entry_of_course courses) ->
  exists c, c ∈ courses /\ _normalize_text (course_label c) = key.
Proof.
  unfold label_map_of.
  apply (foldl_invariant _
           (fun m => key ∈ dict_keys m ->
                     exists c, c ∈ courses /\ _normalize_text (course_label c) = key)).
  - by intros ?%elem_of_nil.
  - intros m c Hc IH. simpl. destruct (PyStr.nonempty (course_label c)); [|done].
    intros [->|Hin]%dict_keys_dict_set; [by exists c|by apply IH].
Qed.

(** Every key of the label map is the normalized label of a course of the
    list. *)
Lemma synthetic_keys (courses : list Course) (cs : list Constraint) (key : string) :
  let st := add_synthetic entry_of_course entry_of_synthetic credits_of courses cs in
  key ∈ dict_keys (sy_map st) ->
  exists c, c ∈ sy_courses st /\ _normalize_text (course_label c) = key.
Proof.
  unfold add_synthetic.
  apply (foldl_invariant step
           (fun st => key ∈ dict_keys (sy_map st) ->
                      exists c, c ∈ sy_courses st
                                /\ _normalize_text (course_label c) = key)).
  - simpl. apply label_map_keys.
  - intros st cons _ IH.
    destruct (synthetic_step_cases st cons) as [->|(Hne & _ & ->)]; [done|]. simpl.
    intros [->|Hin]%dict_keys_dict_set.
    + eexists. split; [apply elem_of_app; right; left|].
      by rewrite synthetic_label.
    + destruct (IH Hin) as (c & Hc & Hk). exists c. split; [|done].
      apply elem_of_app. by left.
Qed.

Lemma synthetic_key_added (cs : list Constraint) (st : SynthState) (cons : Constraint) :
  cons ∈ cs ->
  PyStr.nonempty (PyStr.strip (cons_course_name cons)) = true ->
  _normalize_text (PyStr.strip (cons_course_name cons))
    ∈ dict_keys (sy_map (foldl step st cs)).
Proof.
  intros Hin Hne.
  apply (foldl_establish step (fun _ => True)
           (fun st => _normalize_text (PyStr.strip (cons_course_name cons))
                        ∈ dict_keys (sy_map st)) cons); [done|done|done| |].
  - intros s _. unfold synthetic_step. rewrite Hne. simpl.
    case_bool_decide; [done|]. simpl. apply dict_keys_dict_set. by left.
  - intros s y _ _ Hk.
    destruct (synthetic_step_cases s y) as [->|(_ & _ & ->)]; [done|]. simpl.
    apply dict_keys_dict_set. by right.
Qed.
End SyntheticFacts.

(** X15. The loop that adds synthetic courses (in [generate_for_teacher]
    and in [generate_preview]) appends to the courses it was given, the
    appended courses bear the ids -1, -2, ... in order, at most one a
    constraint, and afterwards every constraint with a course text has a
    course whose normalized label is its normalized course text. *)
Theorem X15_synthetic_courses_cover_constraints {V : Type}
    (entry_of_course : Course -> V) (entry_of_synthetic : string -> Z -> V)
    (credits_of : Constraint -> Z)
    (courses : list Course) (constraints : list Constraint) :
  let courses' :=
    sy_courses (add_synthetic entry_of_course entry_of_synthetic credits_of
                  courses constraints) in
  (exists extra,
      courses' = courses ++ extra
      /\ id <$> extra = (fun k => Some (-1 - Z.of_nat k)) <$> seq 0 (length extra)
      /\ (length extra <= length constraints)%nat)
  /\ forall cons, cons ∈ constraints ->
       PyStr.nonempty (PyStr.strip (cons_course_name cons)) = true ->
       exists c, c ∈ courses'
                 /\ _normalize_text (course_label c)
                    = _normalize_text (PyStr.strip (cons_course_name cons)).
Proof.
  intros courses'. split.
  - destruct (synthetic_fold_from entry_of_synthetic credits_of constraints
                (synthetic_start entry_of_course courses))
      as (more & Hc & _ & Hid & Hlen).
    exists more. done.
  - intros cons Hin Hne.
    apply (synthetic_keys entry_of_course entry_of_synthetic credits_of).
    by apply synthetic_key_added.
Qed.

Lemma normalize_text_empty : _normalize_text "" = "".
Proof. reflexivity. Qed.

(** A synthetic course passes the first rule of the matcher for the
    constraint it was made for. *)
Lemma synthetic_exact (credits_of : Constraint -> Z) (cons : Constraint) (sid : Z) :
  let s := synthetic_course credits_of cons
             (PyStr.strip (cons_course_name cons)) sid in
  Matcher.exact_match cons s && Matcher.section_ok cons s = true.
Proof.
  intros s. apply andb_true_iff. split.
  - unfold Matcher.exact_match, Matcher.name, Matcher.target. simpl.
    by rewrite String.eqb_refl.
  - unfold Matcher.section_ok, Matcher.csec. simpl.
    assert (PyStr.or_else (PyStr.or_else (cons_section cons) "ALL") "ALL"
            = PyStr.or_else (cons_section cons) "ALL") as ->.
    { unfold PyStr.or_else.
      destruct (PyStr.nonempty (cons_section cons)) eqn:E; [by rewrite E|done]. }
    rewrite String.eqb_refl. simpl. by rewrite andb_false_r.
Qed.

(** X16. The constraint that makes the loop add a synthetic course is
    resolved by the matcher of the solvers on the courses of the payload:
    the synthetic course is in the course dict under its negative id, and
    that id is among the ids the matcher answers. *)
Theorem X16_synthetic_course_is_matched {V : Type}
    (entry_of_course : Course -> V) (entry_of_synthetic : string -> Z -> V)
    (credits_of : Constraint -> Z)
    (courses : list Course) (cs1 cs2 : list Constraint) (cons : Constraint) :
  let add := add_synthetic entry_of_course entry_of_synthetic credits_of courses in
  let cname := PyStr.strip (cons_course_name cons) in
  PyStr.nonempty (Matcher.target cons) = true ->
  _normalize_text cname ∉ dict_keys (sy_map (add cs1)) ->
  let dict := cid_to_course (index_courses (sy_courses (add (cs1 ++ cons :: cs2)))) in
  exists sid,
    sid < 0
    /\ dict_get dict sid = Some (synthetic_course credits_of cons cname sid)
    /\ sid ∈ _match_constraint_to_cids cons dict.
Proof.
  intros add cname Htarget Hnew dict.
  assert (Hne : PyStr.nonempty cname = true).
  { destruct cname eqn:E; [|done]. unfold Matcher.target in Htarget.
    fold cname in Htarget. by rewrite E in Htarget. }
  set (st1 := add cs1) in *. set (sid := sy_next st1).
  assert (Hstep : synthetic_step entry_of_synthetic credits_of st1 cons
                  = {| sy_courses := sy_courses st1
                                     ++ [synthetic_course credits_of cons cname sid];
                       sy_map := dict_set (sy_map st1) (_normalize_text cname)
                                   (entry_of_synthetic cname sid);
                       sy_next := sid - 1 |}).
  { unfold synthetic_step. fold cname. rewrite Hne. simpl.
    by rewrite bool_decide_eq_false_2. }
  destruct (synthetic_fold_from entry_of_synthetic credits_of cs1
              (synthetic_start entry_of_course courses))
    as (more1 & _ & Hn1 & _ & _).
  fold (add_synthetic entry_of_course entry_of_synthetic credits_of courses cs1)
    in Hn1.
  fold add st1 in Hn1. simpl in Hn1.
  destruct (synthetic_fold_from entry_of_synthetic credits_of cs2
              (synthetic_step entry_of_synthetic credits_of st1 cons))
    as (more2 & Hc2 & _ & Hid2 & _).
  assert (Hcourses : sy_courses (add (cs1 ++ cons :: cs2))
                     = sy_courses st1
                       ++ synthetic_course credits_of cons cname sid :: more2).
  { transitivity
      (sy_courses (synthetic_step entry_of_synthetic credits_of st1 cons) ++ more2).
    - rewrite <- Hc2. unfold add, add_synthetic. by rewrite foldl_app.
    - rewrite Hstep. simpl. by rewrite <- app_assoc. }
  rewrite Hstep in Hid2. simpl in Hid2.
  assert (Hget : dict_get dict sid
                 = Some (synthetic_course credits_of cons cname sid)).
  { subst dict. rewrite Hcourses. apply index_courses_stored; [done|].
    intros c' Hc'. apply list_elem_of_lookup_1 in Hc' as [k Hk].
    assert ((id <$> more2) !! k = Some (id c')) as Hidk
      by (by rewrite list_lookup_fmap, Hk).
    rewrite Hid2, list_lookup_fmap in Hidk.
    destruct (seq 0 (length more2) !! k) as [k'|] eqn:Hk'; [|done].
    simpl in Hidk. injection Hidk as Hidk.
    exists (sid - 1 - Z.of_nat k'). split; [done|lia]. }
  exists sid. split_and!; [subst sid; lia|exact Hget|].
  apply dict_get_Some_in in Hget.
  assert (sid ∈ Matcher.tier1 cons dict) as H1.
  { unfold Matcher.tier1. apply elem_of_select. eexists. split; [exact Hget|].
    apply synthetic_exact. }
  unfold _match_constraint_to_cids. rewrite Htarget. simpl.
  case_bool_decide as Hnil; simpl; [|done].
  rewrite Hnil in H1. by apply elem_of_nil in H1.
Qed.

Lemma X16_witness :
  let cons := mkCons "Physics" "Monday" "P1" "Hard" in
  let dict :=
    cid_to_course
      (index_courses (TimetableService.payload_courses courses_ex [cons])) in
  PyStr.nonempty (Matcher.target cons) = true
  /\ exists sid,
       sid < 0
       /\ dict_get dict sid
          = Some (synthetic_course TimetableService.synthetic_credits cons
                    "Physics" sid)
       /\ sid ∈ _match_constraint_to_cids cons dict.
Proof.
  intros cons dict. split; [reflexivity|].
  apply (X16_synthetic_course_is_matched (fun c => course_label c)
           (fun cname _ => cname) TimetableService.synthetic_credits
           courses_ex [] [] cons); [reflexivity|].
  compute_done.
Defined.

(** ** The courses of the preview request *)

Lemma combine_step_cases (st : list Course * list Z * list (string * string))
    (c : Course) :
  let st' := Preview.combine_step st c in
  (st' = st /\ (exists i, id c = Some i /\ i ∈ st.1.2)
   \/ (st' = st /\ id c = None))
  \/ (st'.1.1 = st.1.1 ++ [c]
      /\ st'.1.2 = st.1.2 ++ from_option (fun i => [i]) [] (id c)
      /\ forall i, id c = Some i -> i ∉ st.1.2).
Proof.
  destruct st as [[combined seen_ids] seen_keys]. unfold Preview.combine_step.
  destruct (id c) as [i|] eqn:Hid; simpl.
  - case_bool_decide as Hin; simpl.
    + left. left. split; [done|]. by exists i.
    + right. split_and!; [done|done|]. by intros ? [= <-].
  - case_bool_decide as Hin; simpl.
    + left. by right.
    + right. split_and!; [done|by rewrite app_nil_r|done].
Qed.

Lemma combine_fold (l : list Course)
    (st : list Course * list Z * list (string * string)) :
  st.1.2 = omap id st.1.1 -> NoDup st.1.2 ->
  let st' := foldl Preview.combine_step st l in
  st'.1.2 = omap id st'.1.1 /\ NoDup st'.1.2
  /\ exists extra, st'.1.1 = st.1.1 ++ extra /\ extra `sublist_of` l.
Proof.
  revert st. induction l as [|c l IH]; intros st Hids Hnd; simpl.
  - split_and!; [done..|]. exists []. by rewrite app_nil_r.
  - destruct (combine_step_cases st c) as [[[Heq _]|[Heq _]]|(Hc & Hs & Hfresh)].
    + rewrite Heq. destruct (IH st Hids Hnd) as (? & ? & extra & ? & ?).
      split_and!; [done..|]. exists extra. split; [done|]. by apply sublist_cons.
    + rewrite Heq. destruct (IH st Hids Hnd) as (? & ? & extra & ? & ?).
      split_and!; [done..|]. exists extra. split; [done|]. by apply sublist_cons.
    + destruct (IH (Preview.combine_step st c)) as (H1 & H2 & extra & H3 & H4).
      * rewrite Hc, Hs, omap_app, Hids. simpl. by destruct (id c).
      * rewrite Hs. destruct (id c) as [i|]; simpl; [|by rewrite app_nil_r].
        apply NoDup_app. split_and!; [done| |apply NoDup_singleton].
        intros x Hx Hx'%list_elem_of_singleton. subst x. by apply (Hfresh i).
      * split_and!; [done..|]. exists (c :: extra). rewrite H3, Hc.
        split; [by rewrite <- app_assoc|]. by apply sublist_skip.
Qed.

(** The combined list only grows along the loop. *)
Lemma combine_fold_mono (l : list Course)
    (st : list Course * list Z * list (string * string)) (c : Course) :
  c ∈ st.1.1 -> c ∈ (foldl Preview.combine_step st l).1.1.
Proof.
  intros Hc. apply (foldl_invariant Preview.combine_step (fun st => c ∈ st.1.1));
    [done|].
  intros st' c' _ Hin.
  destruct (combine_step_cases st' c') as [[[-> _]|[-> _]]|(-> & _)]; [done..|].
  apply elem_of_app. by left.
Qed.

(** X17. The course list of the preview request ([combined]) is a sublist
    of the teacher's courses followed by the admin courses, no two of its
    courses carry the same id, and of the courses that carry a given id it
    keeps the first. *)
Theorem X17_combined_courses_keep_first (teacher_courses admin_courses : list Course) :
  let combined := Preview.combine_courses teacher_courses admin_courses in
  combined `sublist_of` teacher_courses ++ admin_courses
  /\ NoDup (omap id combined)
  /\ forall l1 c l2 i,
       teacher_courses ++ admin_courses = l1 ++ c :: l2 ->
       id c = Some i -> (forall c', c' ∈ l1 -> id c' ≠ Some i) ->
       c ∈ combined.
Proof.
  intros combined. subst combined. unfold Preview.combine_courses.
  destruct (combine_fold (teacher_courses ++ admin_courses) ([], [], []))
    as (Hids & Hnd & extra & Hc & Hsub); [done|apply NoDup_nil_2|].
  split_and!.
  - by rewrite Hc.
  - by rewrite <- Hids.
  - intros l1 c l2 i -> Hid Hl1. rewrite foldl_app. simpl.
    apply combine_fold_mono.
    destruct (combine_fold l1 ([], [], [])) as (Hids1 & _ & extra1 & Hc1 & Hsub1);
      [done|apply NoDup_nil_2|].
    set (st1 := foldl Preview.combine_step ([], [], []) l1) in *.
    destruct (combine_step_cases st1 c) as [[[_ (j & Hj & Hin)]|[_ Hnone]]|(-> & _)].
    + exfalso. rewrite Hid in Hj. injection Hj as <-.
      rewrite Hids1 in Hin. apply list_elem_of_omap in Hin as (c' & Hc' & Hidc').
      apply (Hl1 c'); [|done]. simpl in Hc1. rewrite Hc1 in Hc'.
      by apply (sublist_subseteq _ _ Hsub1).
    + congruence.
    + apply elem_of_app. right. left.
Qed.

(** X18. When every loaded course carries an id, the solvers' course dict
    of the combined list holds every combined course under its id: after
    the preview's de-duplication no course is overwritten in the dict. *)
Theorem X18_combined_courses_all_indexed (teacher_courses admin_courses : list Course) :
  (forall c, c ∈ teacher_courses ++ admin_courses -> is_Some (id c)) ->
  let combined := Preview.combine_courses teacher_courses admin_courses in
  forall c, c ∈ combined ->
    exists i, id c = Some i
              /\ dict_get (cid_to_course (index_courses combined)) i = Some c.
Proof.
  intros Hall combined c Hc.
  assert (Hsub : combined ⊆ teacher_courses ++ admin_courses).
  { apply sublist_subseteq. subst combined. unfold Preview.combine_courses.
    destruct (combine_fold (teacher_courses ++ admin_courses) ([], [], []))
      as (_ & _ & extra & -> & Hsub); [done|apply NoDup_nil_2|]. done. }
  assert (Hnd : NoDup (omap id combined)).
  { subst combined. unfold Preview.combine_courses.
    destruct (combine_fold (teacher_courses ++ admin_courses) ([], [], []))
      as (Hids & Hnd & _); [done|apply NoDup_nil_2|]. by rewrite <- Hids. }
  destruct (Hall c (Hsub c Hc)) as [i Hi]. exists i. split; [done|].
  apply list_elem_of_split in Hc as (l1 & l2 & Heq). rewrite Heq in *.
  apply index_courses_stored; [done|].
  intros c' Hc'.
  destruct (Hall c') as [j Hj].
  { apply Hsub. apply elem_of_app. right. by right. }
  exists j. split; [done|]. intros ->.
  rewrite omap_app in Hnd. simpl in Hnd. rewrite Hi in Hnd. simpl in Hnd.
  apply NoDup_app in Hnd as (_ & _ & Hnd).
  apply NoDup_cons in Hnd as [Hnotin _]. apply Hnotin.
  apply list_elem_of_omap. by exists c'.
Qed.

Lemma X18_witness :
  let combined :=
    Preview.combine_courses courses_ex [mkCourse 1 "Maths" 3 "B"] in
  combined = courses_ex
  /\ exists i, id (mkCourse 2 "English" 1 "A") = Some i
               /\ dict_get (cid_to_course (index_courses combined)) i
                  = Some (mkCourse 2 "English" 1 "A").
Proof.
  intros combined. split; [reflexivity|].
  apply (X18_combined_courses_all_indexed courses_ex [mkCourse 1 "Maths" 3 "B"]).
  - intros c Hc. repeat (apply elem_of_cons in Hc as [->|Hc]; [by eexists|]).
    by apply elem_of_nil in Hc.
  - right. left.
Defined.

(** ** Letter case and whitespace *)

Section CaseFacts.
Import PyStr.

Local Ltac by_cases c :=
  destruct c as [[] [] [] [] [] [] [] []]; vm_compute; reflexivity.

Lemma is_space_upper_char c : is_space (upper_char c) = is_space c.
Proof. by_cases c. Qed.

Lemma is_space_lower_char c : is_space (lower_char c) = is_space c.
Proof. by_cases c. Qed.

Lemma upper_char_idemp c : upper_char (upper_char c) = upper_char c.
Proof. by_cases c. Qed.

Lemma lower_char_idemp c : lower_char (lower_char c) = lower_char c.
Proof. by_cases c. Qed.

Lemma lower_upper_char c : lower_char (upper_char c) = lower_char c.
Proof. by_cases c. Qed.

Lemma letter_upper_char c :
  is_upper (upper_char c) || is_lower (upper_char c) = is_upper c || is_lower c.
Proof. by_cases c. Qed.

Lemma letter_lower_char c :
  is_upper (lower_char c) || is_lower (lower_char c) = is_upper c || is_lower c.
Proof. by_cases c. Qed.

Lemma same_spaces_refl s : same_spaces s s.
Proof. induction s; by constructor. Qed.

Lemma same_spaces_length s t : same_spaces s t -> String.length s = String.length t.
Proof. induction 1; simpl; congruence. Qed.

Lemma same_spaces_lstrip s t : same_spaces s t -> same_spaces (lstrip s) (lstrip t).
Proof.
  induction 1 as [|c d s t Hcd Hst IH]; simpl; [constructor|].
  rewrite <- Hcd. destruct (is_space c) eqn:E; [done|].
  constructor; [congruence|done].
Qed.

Lemma same_spaces_snoc s t c d :
  same_spaces s t -> is_space c = is_space d -> same_spaces (snoc s c) (snoc t d).
Proof.
  induction 1; simpl; intros Hcd; repeat constructor; auto.
Qed.

Lemma same_spaces_rev s t : same_spaces s t -> same_spaces (rev s) (rev t).
Proof.
  induction 1; simpl; [constructor|]. by apply same_spaces_snoc.
Qed.

Lemma same_spaces_strip s t : same_spaces s t -> same_spaces (strip s) (strip t).
Proof.
  intros H. unfold strip, rstrip.
  by apply same_spaces_rev, same_spaces_lstrip, same_spaces_rev, same_spaces_lstrip.
Qed.

Lemma length_snoc s c : String.length (snoc s c) = S (String.length s).
Proof. induction s; simpl; congruence. Qed.

Lemma length_rev s : String.length (rev s) = String.length s.
Proof. induction s; simpl; [done|]. rewrite length_snoc. congruence. Qed.

Lemma length_lstrip s :
  (String.length (lstrip s) <= String.length s)%nat
  /\ (String.length (lstrip s) = String.length s -> lstrip s = s).
Proof.
  induction s as [|c s [IH1 IH2]]; simpl; [done|].
  destruct (is_space c); simpl; [|done]. split; [lia|]. intros H. lia.
Qed.

Lemma length_strip_eq s : String.length (strip s) = String.length s -> strip s = s.
Proof.
  unfold strip, rstrip. intros H.
  pose proof (length_lstrip s) as [H1 H1'].
  pose proof (length_lstrip (rev (lstrip s))) as [H2 H2'].
  rewrite length_rev in H. rewrite length_rev in H2, H2'.
  assert (lstrip s = s) as Hs by (apply H1'; lia).
  rewrite Hs in *. rewrite H2' by lia. apply rev_involutive.
Qed.

(** A string without surrounding whitespace stays so when letters change
    case. *)
Lemma stripped_same_spaces s t : same_spaces s t -> strip s = s -> strip t = t.
Proof.
  intros H Hs. apply length_strip_eq.
  rewrite <- (same_spaces_length _ _ (same_spaces_strip _ _ H)), Hs.
  by apply same_spaces_length.
Qed.

Lemma same_spaces_lower s : same_spaces s (lower s).
Proof.
  induction s; simpl; constructor; [by rewrite is_space_lower_char|done].
Qed.

Lemma same_spaces_capitalize s : same_spaces s (capitalize s).
Proof.
  destruct s; simpl; constructor;
    [by rewrite is_space_upper_char|apply same_spaces_lower].
Qed.

Lemma same_spaces_title_go b s : same_spaces s (title_go b s).
Proof.
  revert b. induction s as [|c s IH]; intros b; simpl; constructor; [|done].
  destruct b; by rewrite ?is_space_lower_char, ?is_space_upper_char.
Qed.

Lemma lower_cons c s : lower (String c s) = String (lower_char c) (lower s).
Proof. reflexivity. Qed.

Lemma title_go_cons b c s :
  title_go b (String c s)
  = String (if b then lower_char c else upper_char c)
           (title_go (is_upper c || is_lower c) s).
Proof. reflexivity. Qed.

Lemma capitalize_cons c s :
  capitalize (String c s) = String (upper_char c) (lower s).
Proof. reflexivity. Qed.

Lemma lower_idemp s : lower (lower s) = lower s.
Proof.
  induction s as [|c s IH]; [done|].
  by rewrite !lower_cons, lower_char_idemp, IH.
Qed.

Lemma lower_title_go b s : lower (title_go b s) = lower s.
Proof.
  revert b. induction s as [|c s IH]; intros b; [done|].
  rewrite title_go_cons, !lower_cons, IH. f_equal.
  destruct b; [apply lower_char_idemp|apply lower_upper_char].
Qed.

Lemma capitalize_idemp s : capitalize (capitalize s) = capitalize s.
Proof.
  destruct s as [|c s]; [done|].
  by rewrite !capitalize_cons, upper_char_idemp, lower_idemp.
Qed.

Lemma capitalize_title s : capitalize (title s) = capitalize s.
Proof.
  destruct s as [|c s]; [done|]. unfold title.
  by rewrite title_go_cons, !capitalize_cons, upper_char_idemp, lower_title_go.
Qed.

Lemma title_go_idemp b s : title_go b (title_go b s) = title_go b s.
Proof.
  revert b. induction s as [|c s IH]; intros b; [done|].
  rewrite !title_go_cons. destruct b.
  - by rewrite lower_char_idemp, letter_lower_char, IH.
  - by rewrite upper_char_idemp, letter_upper_char, IH.
Qed.

Lemma weekday_capitalized d : d ∈ DAYS -> capitalize d = d.
Proof.
  unfold DAYS. rewrite !elem_of_cons, elem_of_nil.
  intros [->|[->|[->|[->|[->|[]]]]]]; reflexivity.
Qed.

(** A title-cased text is a weekday name only if the capitalized text is:
    the [title()] fallbacks recognize no further day. *)
Lemma title_weekday s : title s ∈ DAYS -> capitalize s ∈ DAYS.
Proof.
  intros H. rewrite <- capitalize_title. by rewrite (weekday_capitalized _ H).
Qed.
End CaseFacts.

(** ** Constraints entered as text *)

Lemma tokens_is_Some (parts : list string) :
  is_Some (ConstraintService.tokens parts) <-> (3 <= length parts <= 5)%nat.
Proof.
  unfold ConstraintService.tokens.
  destruct parts as [|p0 [|p1 [|p2 [|p3 [|p4 [|p5 parts]]]]]]; simpl;
    try case_bool_decide;
    (split; [intros [? ?]; try done; lia|intros ?; try lia; by eexists]).
Qed.

Lemma stored_type_cases (mode : option string) :
  let r := ConstraintService.stored_type mode in
  (r.1 = "Exact" /\ exists m, r.2 = Some m
                              /\ PyStr.lower m ∈ ["exact"; "block"; "full"])
  \/ (r = ("Hard", None)).
Proof.
  unfold ConstraintService.stored_type. destruct mode as [m|]; [|by right].
  destruct (PyStr.nonempty m); simpl; [|by right].
  case_bool_decide as Hm; [|by right]. left. split; [done|]. by eexists.
Qed.

Lemma stored_day_weekday (day : string) :
  ConstraintService.stored_day day ∈ DAYS
  <-> PyStr.capitalize (PyStr.strip day) ∈ DAYS.
Proof.
  unfold ConstraintService.stored_day. case_bool_decide as HD; [done|].
  split; [|done]. intros HT%title_weekday.
  assert (PyStr.strip (PyStr.capitalize (PyStr.strip day))
          = PyStr.capitalize (PyStr.strip day)) as Hs.
  { eapply stripped_same_spaces; [apply same_spaces_capitalize|apply strip_idemp]. }
  rewrite Hs, capitalize_idemp in HT. done.
Qed.

(** A stored day that is no weekday name is none for the solvers either. *)
Lemma stored_day_bad (day : string) :
  let d := ConstraintService.stored_day day in
  d ∉ DAYS ->
  (PyStr.capitalize (PyStr.strip d) ∉ DAYS) /\ (PyStr.title (PyStr.strip d) ∉ DAYS).
Proof.
  intros d Hd.
  assert (HD : PyStr.capitalize (PyStr.strip day) ∉ DAYS).
  { intros H. apply Hd. by apply stored_day_weekday. }
  assert (Hs : PyStr.strip (PyStr.capitalize (PyStr.strip day))
               = PyStr.capitalize (PyStr.strip day)).
  { eapply stripped_same_spaces; [apply same_spaces_capitalize|apply strip_idemp]. }
  assert (Heq : d = PyStr.title (PyStr.capitalize (PyStr.strip day))).
  { subst d. unfold ConstraintService.stored_day.
    rewrite bool_decide_eq_false_2 by done. by rewrite Hs. }
  assert (Hsd : PyStr.strip d = d).
  { rewrite Heq. eapply stripped_same_spaces; [|exact Hs].
    apply same_spaces_title_go. }
  rewrite Hsd. split.
  - rewrite Heq, capitalize_title, capitalize_idemp. done.
  - intros H. apply Hd. rewrite Heq in *. unfold PyStr.title in *.
    by rewrite title_go_idemp in H.
Qed.

Lemma split_on_plain (s : string) :
  comma_free s = true -> ConstraintService.split_on "," s = [s].
Proof.
  induction s as [|c s IH]; [done|]. simpl.
  intros [Hc Hs]%andb_true_iff. apply negb_true_iff in Hc. rewrite Hc.
  by rewrite IH.
Qed.

Lemma split_on_comma (s rest : string) :
  comma_free s = true ->
  ConstraintService.split_on "," (s +:+ String "," rest)
  = s :: ConstraintService.split_on "," rest.
Proof.
  induction s as [|c s IH]; [done|]. simpl.
  intros [Hc Hs]%andb_true_iff. apply negb_true_iff in Hc. rewrite Hc.
  by rewrite IH.
Qed.

(** The tokens of a line written with commas between comma-free texts are
    these texts. *)
Lemma split_on_concat (parts : list string) :
  parts ≠ [] -> Forall (fun p => comma_free p = true) parts ->
  ConstraintService.split_on "," (String.concat "," parts) = parts.
Proof.
  intros Hne Hall. induction Hall as [|p parts Hp Hall IH]; [done|].
  destruct parts as [|q parts].
  - simpl. by apply split_on_plain.
  - change (String.concat "," (p :: q :: parts))
      with (p +:+ String "," (String.concat "," (q :: parts))).
    rewrite split_on_comma by done. by rewrite IH.
Qed.

Lemma stored_type_typed (m : string) :
  let r := ConstraintService.stored_type (Some (PyStr.strip m)) in
  let reads := bool_decide (PyStr.lower (PyStr.strip m)
                              ∈ ["exact"; "block"; "full"]) in
  (reads = true /\ r = ("Exact", Some (PyStr.strip m)))
  \/ (reads = false /\ r = ("Hard", None)).
Proof.
  unfold ConstraintService.stored_type. rewrite strip_idemp.
  case_bool_decide as Hm; [left|right; by rewrite andb_false_r].
  split; [done|].
  destruct (PyStr.strip m) eqn:E; [|done]. exfalso. clear -Hm.
  repeat (apply elem_of_cons in Hm as [Hm|Hm]; [discriminate|]).
  by apply elem_of_nil in Hm.
Qed.

(** X19. For a line written as comma-free texts with commas between them,
    [add_from_text] hands a row to the DAO exactly when there are three to
    five texts. The texts are read as name, day, range; or name, day,
    range, mode when the second text is a weekday name, else name, section,
    day, range; or name, section, day, range, mode. The row has the trimmed
    name and range, the trimmed section or "ALL", a weekday exactly when
    the capitalized trimmed day is one, and the type "Exact" with the
    trimmed mode as description exactly when the mode reads exact, block or
    full in any case, the type "Hard" without description otherwise; the
    exact solver enforces the listed constraint as a block exactly when the
    type is "Exact". *)
Theorem X19_add_from_text_row (parts : list string) (owner_type : string)
    (owner_id : option Z) (published : bool) :
  Forall (fun p => comma_free p = true) parts ->
  let r :=
    ConstraintService.add_from_text (String.concat "," parts) owner_type
      owner_id published in
  (is_Some r <-> (3 <= length parts <= 5)%nat)
  /\ forall row, r = Some row ->
       (exists name sec day pr mode,
           read_as parts name sec day pr mode
           /\ ConstraintService.row_course_name row = PyStr.strip name
           /\ ConstraintService.row_section row
              = PyStr.or_else (PyStr.strip sec) "ALL"
           /\ ConstraintService.row_period_range row = PyStr.strip pr
           /\ (ConstraintService.row_day row ∈ DAYS
               <-> PyStr.capitalize (PyStr.strip day) ∈ DAYS)
           /\ (PyStr.capitalize (PyStr.strip day) ∈ DAYS ->
               ConstraintService.row_day row = PyStr.capitalize (PyStr.strip day))
           /\ typed_by mode row)
       /\ CpModel.enforce_exact (ConstraintService.constraint_of_row row)
          = bool_decide (ConstraintService.row_type row = "Exact")
       /\ PyStr.nonempty (ConstraintService.row_section row) = true
       /\ ConstraintService.row_teacher_id row
          = (if String.eqb owner_type "teacher" then owner_id else None)
       /\ ConstraintService.row_published row = published.
Proof.
  intros Hall r. subst r. unfold ConstraintService.add_from_text.
  assert (Hparts : PyStr.strip <$> ConstraintService.split_on ","
                                     (String.concat "," parts)
                   = match parts with [] => [""] | _ => PyStr.strip <$> parts end).
  { destruct parts as [|p parts]; [done|]. by rewrite split_on_concat. }
  rewrite Hparts. clear Hparts Hall.
  assert (Hday : forall day,
    (ConstraintService.stored_day (PyStr.strip day) ∈ DAYS
     <-> PyStr.capitalize (PyStr.strip day) ∈ DAYS)
    /\ (PyStr.capitalize (PyStr.strip day) ∈ DAYS ->
        ConstraintService.stored_day (PyStr.strip day)
        = PyStr.capitalize (PyStr.strip day))).
  { intros day. split.
    - rewrite stored_day_weekday. by rewrite strip_idemp.
    - intros Hd. unfold ConstraintService.stored_day. rewrite strip_idemp.
      by rewrite bool_decide_eq_true_2. }
  assert (Hsec : forall sec, PyStr.nonempty (PyStr.or_else sec "ALL") = true).
  { intros sec. unfold PyStr.or_else. by destruct (PyStr.nonempty sec) eqn:E. }
  assert (Hhard : forall row,
    ConstraintService.row_type row = "Hard" ->
    CpModel.enforce_exact (ConstraintService.constraint_of_row row)
    = bool_decide (ConstraintService.row_type row = "Exact")).
  { intros row Hty. unfold CpModel.enforce_exact. simpl. by rewrite Hty. }
  assert (Hexact : forall row,
    ConstraintService.row_type row = "Exact" ->
    CpModel.enforce_exact (ConstraintService.constraint_of_row row)
    = bool_decide (ConstraintService.row_type row = "Exact")).
  { intros row Hty. unfold CpModel.enforce_exact. simpl. by rewrite Hty. }
  destruct parts as [|p0 [|p1 [|p2 [|p3 [|p4 [|p5 parts]]]]]];
    cbn [fmap list_fmap ConstraintService.tokens length].
  - split; [split; [by intros [? ?]|lia]|done].
  - split; [split; [by intros [? ?]|lia]|done].
  - split; [split; [by intros [? ?]|lia]|done].
  - (* name, day, range *)
    split; [split; [lia|by eexists]|]. simpl. intros row [= <-].
    rewrite !strip_idemp.
    split_and!; try done; try apply Hsec; try (by apply Hhard).
    exists p0, "ALL", p1, p2, None. split_and!; try done; try apply Hday.
    by left.
  - (* four texts *)
    case_bool_decide as Hwd.
    + destruct (stored_type_typed p3) as [[Hb Hst]|[Hb Hst]]; rewrite Hst;
        (split; [split; [lia|by eexists]|]); intros row [= <-];
        rewrite !strip_idemp;
        (split_and!; try done; try apply Hsec;
         try (by apply Hhard); try (by apply Hexact));
        exists p0, "ALL", p1, p2, (Some p3);
        (split_and!; try done; try apply Hday;
         [right; left; by exists p3|unfold typed_by; by rewrite Hb]).
    + split; [split; [lia|by eexists]|]. simpl. intros row [= <-].
      rewrite !strip_idemp.
      split_and!; try done; try apply Hsec; try (by apply Hhard).
      exists p0, p1, p2, p3, None. split_and!; try done; try apply Hday.
      right. right. by left.
  - (* name, section, day, range, mode *)
    destruct (stored_type_typed p4) as [[Hb Hst]|[Hb Hst]]; rewrite Hst;
      (split; [split; [lia|by eexists]|]); intros row [= <-];
      rewrite !strip_idemp;
      (split_and!; try done; try apply Hsec;
       try (by apply Hhard); try (by apply Hexact));
      exists p0, p1, p2, p3, (Some p4);
      (split_and!; try done; try apply Hday;
       [right; right; right; by exists p4|unfold typed_by; by rewrite Hb]).
  - split; [split; [by intros [? ?]|simpl; lia]|done].
Qed.

Lemma X19_witness :
  exists row,
    ConstraintService.add_from_text "Math,A, monDAY ,P1-P2, Block " "admin"
      None true = Some row
    /\ ConstraintService.row_type row = "Exact"
    /\ ConstraintService.row_description row = Some "Block"
    /\ ConstraintService.row_day row = "Monday".
Proof.
  assert (Hfree : Forall (fun p => comma_free p = true)
                    ["Math"; "A"; " monDAY "; "P1-P2"; " Block "])
    by (repeat constructor).
  destruct (X19_add_from_text_row ["Math"; "A"; " monDAY "; "P1-P2"; " Block "]
              "admin" None true Hfree) as [Hsome Hrow].
  destruct (proj2 Hsome) as [row Hr]; [simpl; lia|].
  exists row. split; [exact Hr|].
  destruct (Hrow row Hr) as [(name & sec & day & pr & mode & Hread & _ & _ & _
                               & _ & Hday & Hty) _].
  destruct Hread as [(Heq & _)|[(m & Heq & _)|[(Heq & _)|(m & Heq & ->)]]];
    try discriminate Heq.
  injection Heq as <- <- <- <- <-.
  unfold typed_by in Hty. rewrite bool_decide_eq_true_2 in Hty by compute_done.
  destruct Hty as [Hty Hdesc]. split_and!; [exact Hty|exact Hdesc|].
  apply Hday. compute_done.
Defined.

(** X20. [add_from_text] does not check the day: a row whose day is none
    of the five weekday names is handed to the DAO all the same, and the
    constraint listed for it is skipped by both solvers (the greedy solver
    places nothing for it, the exact-solver model gets no rule for it). *)
Theorem X20_unknown_day_stored_then_skipped (line owner_type : string)
    (owner_id : option Z) (published : bool) (r : ConstraintService.Row) :
  ConstraintService.add_from_text line owner_type owner_id published = Some r ->
  ConstraintService.row_day r ∉ DAYS ->
  let c := ConstraintService.constraint_of_row r in
  bad_day c
  /\ (forall idx P lunch_idx g, Greedy.place_constraint idx P lunch_idx g c = g)
  /\ (forall idx P lunch_idx, CpModel.cons_rule idx P lunch_idx c = None).
Proof.
  intros Hr Hday c.
  assert (Hbad : bad_day c).
  { unfold ConstraintService.add_from_text in Hr.
    destruct (ConstraintService.tokens _) as [[[[[name sec] day] pr] mode]|];
      [|done].
    destruct (ConstraintService.stored_type mode) as [type_ description].
    injection Hr as <-. simpl in *. by apply stored_day_bad. }
  split_and!; [done| |].
  - intros. by apply bad_day_place.
  - intros. by apply bad_day_rule.
Qed.

Lemma X20_witness :
  let r := {| ConstraintService.row_course_name := "Math";
              ConstraintService.row_section := "ALL";
              ConstraintService.row_day := "Funday";
              ConstraintService.row_period_range := "P1-P2";
              ConstraintService.row_type := "Hard";
              ConstraintService.row_description := None;
              ConstraintService.row_teacher_id := Some 7;
              ConstraintService.row_published := true |} in
  ConstraintService.add_for_teacher "Math, funday ,P1-P2" 7 true = Some r
  /\ bad_day (ConstraintService.constraint_of_row r).
Proof.
  intros r.
  assert (Hr : ConstraintService.add_from_text "Math, funday ,P1-P2" "teacher"
                 (Some 7) true = Some r) by reflexivity.
  split; [exact Hr|].
  refine (proj1 (X20_unknown_day_stored_then_skipped _ _ _ _ r Hr _)).
  compute_done.
Defined.

(** ** Saving a grid and loading it again *)

Section StoreFacts.
Import TimetableStore.

Local Abbreviation cells_map :=
  (imap (fun (i : nat) (c : string) => (Z.of_nat i + 1, c))).

Lemma dict_get_notin {K V} `{EqDecision K} (m : list (K * V)) (k : K) :
  k ∉ dict_keys m -> dict_get m k = None.
Proof.
  unfold dict_keys. induction m as [|[k' v'] m IH]; simpl; [done|].
  intros [Hne Hk]%not_elem_of_cons. rewrite decide_False by done. by apply IH.
Qed.

Lemma dict_get_app_last {K V} `{EqDecision K} (m : list (K * V)) (k : K) (v : V) :
  k ∉ dict_keys m -> dict_get (m ++ [(k, v)]) k = Some v.
Proof.
  unfold dict_keys. induction m as [|[k' v'] m IH]; simpl.
  - intros _. by rewrite decide_True.
  - intros [Hne Hk]%not_elem_of_cons. rewrite decide_False by done. by apply IH.
Qed.

Lemma dict_set_app_last {K V} `{EqDecision K} (m : list (K * V)) (k : K) (v v' : V) :
  k ∉ dict_keys m -> dict_set (m ++ [(k, v)]) k v' = m ++ [(k, v')].
Proof.
  unfold dict_keys. induction m as [|[k' v'0] m IH]; simpl.
  - intros _. by rewrite decide_True.
  - intros [Hne Hk]%not_elem_of_cons. rewrite decide_False by done.
    by rewrite IH.
Qed.

Lemma cells_map_keys (cells : list string) (k : Z) :
  k ∈ dict_keys (cells_map cells) -> 1 <= k <= Z.of_nat (length cells).
Proof.
  unfold dict_keys. intros ([k' c] & -> & Hin)%list_elem_of_fmap.
  apply list_elem_of_lookup_1 in Hin as [i Hi].
  apply list_lookup_imap_Some in Hi as (c' & Hc' & [= -> ->]).
  apply lookup_lt_Some in Hc'. simpl. lia.
Qed.

Lemma cells_map_snoc (cells : list string) (c : string) :
  cells_map (cells ++ [c]) = cells_map cells ++ [(Z.of_nat (length cells) + 1, c)].
Proof. rewrite imap_app. simpl. by rewrite Nat.add_0_r. Qed.

Lemma row_fold (section day : string) (cells : list string)
    (bd : list (string * list (Z * string))) (m : Z) :
  day ∉ dict_keys bd -> cells ≠ [] ->
  foldl group_step (bd, m)
    (imap (fun idx txt =>
             {| e_day := day; e_period := Z.of_nat idx + 1; e_course_name := txt;
                e_teacher_name := ""; e_section := section |}) cells)
  = (bd ++ [(day, cells_map cells)], Z.max m (Z.of_nat (length cells))).
Proof.
  intros Hday. induction cells as [|c cells IH] using rev_ind; [done|]. intros _.
  rewrite cells_map_snoc, length_app, imap_app, foldl_app.
  cbn [imap foldl length]. rewrite Nat.add_0_r.
  destruct (decide (cells = [])) as [->|Hne].
  - simpl. unfold group_step. simpl.
    rewrite dict_get_notin by done. simpl.
    by rewrite dict_set_fresh by done.
  - rewrite IH by done.
    unfold group_step. simpl.
    rewrite dict_get_app_last by done. simpl.
    rewrite dict_set_app_last by done.
    rewrite dict_set_fresh.
    + f_equal. lia.
    + intros Hin%cells_map_keys. lia.
Qed.

Lemma grid_fold (section : string) (n : nat) (g : Grid)
    (bd : list (string * list (Z * string))) (m : Z) :
  NoDup (dict_keys bd ++ dict_keys g) ->
  Forall (fun dr => length dr.2 = n) g -> (0 < n)%nat ->
  foldl group_step (bd, m) (get_set_entries g section)
  = (bd ++ ((fun dr : string * list string => (dr.1, cells_map dr.2)) <$> g),
     match g with [] => m | _ => Z.max m (Z.of_nat n) end).
Proof.
  intros Hnd Hlen Hn. revert bd m Hnd.
  induction Hlen as [|[d r] g Hr Hlen IH]; intros bd m Hnd.
  - simpl. by rewrite app_nil_r.
  - unfold get_set_entries. rewrite bind_cons, foldl_app. simpl in *.
    apply NoDup_app in Hnd as (Hbd & Hdisj & Hg).
    apply NoDup_cons in Hg as [Hd Hg].
    rewrite row_fold.
    + fold (get_set_entries g section). rewrite IH.
      * rewrite <- app_assoc. simpl. f_equal. rewrite Hr.
        destruct g; [done|lia].
      * unfold dict_keys in *. rewrite fmap_app. simpl. rewrite <- app_assoc.
        simpl. apply NoDup_app. split_and!; [done| |by apply NoDup_cons].
        intros x Hx. apply Hdisj in Hx. done.
    + intros Hin. apply (Hdisj d Hin). left.
    + intros ->. simpl in Hr. lia.
Qed.

Lemma dict_get_cells_map (o : nat) (r : list string) (k : nat) :
  dict_get (imap (fun (i : nat) (c : string) => (Z.of_nat (o + i) + 1, c)) r)
           (Z.of_nat (o + k) + 1)
  = r !! k.
Proof.
  revert o k. induction r as [|c r IH]; intros o k; [done|].
  rewrite imap_cons. simpl. destruct k as [|k].
  - by rewrite decide_True.
  - rewrite decide_False by lia. simpl.
    rewrite <- (IH (S o) k). f_equal.
    + apply imap_ext. intros i x _. simpl. do 2 f_equal. lia.
    + lia.
Qed.

Lemma row_of_cells_map (r : list string) :
  row_of (cells_map r) (Z.of_nat (length r)) = r.
Proof.
  unfold row_of, zrange. rewrite <- list_fmap_compose.
  replace (Z.to_nat (Z.of_nat (length r) + 1 - 1)) with (length r) by lia.
  apply list_eq. intros k. rewrite list_lookup_fmap.
  destruct (decide (k < length r)%nat) as [Hk|Hk].
  - rewrite lookup_seq_lt by done. simpl.
    pose proof (dict_get_cells_map 0 r k) as Hget. cbn [Nat.add] in Hget.
    replace (1 + Z.of_nat k) with (Z.of_nat k + 1) by lia. rewrite Hget.
    destruct (lookup_lt_is_Some_2 r k Hk) as [c ->]. done.
  - rewrite lookup_seq_ge by lia. by rewrite lookup_ge_None_2 by lia.
Qed.
End StoreFacts.

Lemma by_weekday_days (bd : list (string * list (Z * string))) (m : Z) :
  dict_keys bd = DAYS ->
  TimetableStore.by_weekday bd m
  = (fun dr : string * list (Z * string) => (dr.1, TimetableStore.row_of dr.2 m))
      <$> bd.
Proof.
  unfold dict_keys, DAYS. intros Hk.
  destruct bd as [|[d1 r1] [|[d2 r2] [|[d3 r3] [|[d4 r4] [|[d5 r5] [|? ?]]]]]];
    try discriminate Hk.
  simpl in Hk. injection Hk as -> -> -> -> ->. reflexivity.
Qed.

(** X21. A grid of the week (the five weekdays, [P] cells a row) that was
    stored is loaded back unchanged through [get_set_entries] and
    [get_timetable_set] when it has at least one period; a grid without
    periods is loaded back as the empty dict. *)
Theorem X21_saved_grid_loads_back (g : Grid) (P : Z) (section : string) :
  shape P g ->
  let loaded :=
    TimetableStore.get_timetable_set (TimetableStore.get_set_entries g section) in
  (0 < P -> loaded = g) /\ (P <= 0 -> loaded = []).
Proof.
  intros [Hkeys Hlen] loaded. subst loaded. unfold TimetableStore.get_timetable_set.
  split; intros HP.
  - rewrite (grid_fold section (Z.to_nat P) g [] 0); [|by rewrite Hkeys; apply NoDup_DAYS|done|lia].
    simpl.
    assert (Hg : g ≠ []) by (intros ->; discriminate Hkeys).
    assert (TimetableStore.by_weekday
              ((fun dr : string * list string =>
                  (dr.1, imap (fun (i : nat) (c : string) => (Z.of_nat i + 1, c)) dr.2))
                 <$> g)
              match g with [] => 0 | _ => Z.max 0 (Z.of_nat (Z.to_nat P)) end
            = g) as ->.
    { rewrite by_weekday_days.
      - rewrite <- list_fmap_compose.
        transitivity (Datatypes.id <$> g); [|apply list_fmap_id].
        apply list_fmap_ext. intros i [d r] Hi. simpl. f_equal.
        apply list_elem_of_lookup_2 in Hi.
        rewrite Forall_forall in Hlen. specialize (Hlen _ Hi). simpl in Hlen.
        destruct g; [done|].
        replace (Z.max 0 (Z.of_nat (Z.to_nat P))) with (Z.of_nat (length r)) by lia.
        apply row_of_cells_map.
      - rewrite <- Hkeys. unfold dict_keys. rewrite <- list_fmap_compose.
        by apply list_fmap_ext. }
    rewrite bool_decide_eq_false_2 by done. done.
  - assert (TimetableStore.get_set_entries g section = []) as ->.
    { unfold TimetableStore.get_set_entries. clear Hkeys.
      induction Hlen as [|[d r] g Hr Hlen IH]; [done|].
      rewrite bind_cons, IH. simpl in Hr.
      destruct r; [done|]. simpl in Hr. lia. }
    reflexivity.
Qed.

Lemma X21_witness :
  shape 2 (empty_grid 2)
  /\ TimetableStore.get_timetable_set
       (TimetableStore.get_set_entries (empty_grid 2) "A") = empty_grid 2.
Proof.
  split; [apply shape_empty_grid|].
  apply (X21_saved_grid_loads_back (empty_grid 2) 2 "A" (shape_empty_grid 2)).
  lia.
Defined.

(** ** Period ranges as the validator and the solvers read them *)

Section RangeFacts.
Import PyStr.

Local Ltac by_cases c :=
  destruct c as [[] [] [] [] [] [] [] []]; vm_compute; reflexivity.

Lemma digit_char_facts c :
  implb (is_digit c)
    (negb (is_space c) && Ascii.eqb (upper_char c) c
     && negb (Ascii.eqb c "-") && negb (Ascii.eqb c "P")) = true.
Proof. by_cases c. Qed.

Lemma digit_char c :
  is_digit c = true ->
  is_space c = false /\ upper_char c = c /\ Ascii.eqb c "-" = false
  /\ Ascii.eqb c "P" = false.
Proof.
  intros H. pose proof (digit_char_facts c) as Hf. rewrite H in Hf. simpl in Hf.
  rewrite !andb_true_iff, !negb_true_iff in Hf.
  destruct Hf as [[[? ?%Ascii.eqb_eq] ?] ?]. done.
Qed.

Lemma all_digits_cons c s :
  all_digits (String c s) = true -> is_digit c = true /\ all_digits s = true.
Proof. simpl. by intros ?%andb_true_iff. Qed.

Lemma all_digits_upper s : all_digits s = true -> upper s = s.
Proof.
  induction s as [|c s IH]; [done|]. intros [Hc Hs]%all_digits_cons.
  unfold upper in *. simpl. destruct (digit_char c Hc) as (_ & -> & _).
  by rewrite IH.
Qed.

Lemma all_digits_remove s : all_digits s = true -> remove_char "P" s = s.
Proof.
  induction s as [|c s IH]; [done|]. intros [Hc Hs]%all_digits_cons.
  simpl. destruct (digit_char c Hc) as (_ & _ & _ & ->). by rewrite IH.
Qed.

Lemma all_digits_lstrip_char s : all_digits s = true -> lstrip_char "P" s = s.
Proof.
  destruct s as [|c s]; [done|]. intros [Hc Hs]%all_digits_cons.
  simpl. by destruct (digit_char c Hc) as (_ & _ & _ & ->).
Qed.

Lemma all_digits_no_space s : all_digits s = true -> no_space s = true.
Proof.
  induction s as [|c s IH]; [done|]. intros [Hc Hs]%all_digits_cons.
  simpl. destruct (digit_char c Hc) as (-> & _). by rewrite IH.
Qed.

Lemma no_space_app s t :
  no_space s = true -> no_space t = true -> no_space (s +:+ t) = true.
Proof.
  induction s as [|c s IH]; simpl; [done|].
  intros [Hc Hs]%andb_true_iff Ht. rewrite Hc. simpl. by apply IH.
Qed.

Lemma no_space_snoc s c :
  no_space s = true -> is_space c = false -> no_space (snoc s c) = true.
Proof.
  induction s as [|a s IH]; simpl; intros Hs Hc.
  - by rewrite Hc.
  - apply andb_true_iff in Hs as [Ha Hs]. rewrite Ha. simpl. by apply IH.
Qed.

Lemma no_space_rev s : no_space s = true -> no_space (rev s) = true.
Proof.
  induction s as [|c s IH]; simpl; [done|].
  intros [Hc Hs]%andb_true_iff. apply no_space_snoc; [by apply IH|].
  by apply negb_true_iff.
Qed.

Lemma no_space_lstrip s : no_space s = true -> lstrip s = s.
Proof.
  destruct s as [|c s]; simpl; [done|].
  intros [Hc _]%andb_true_iff. apply negb_true_iff in Hc. by rewrite Hc.
Qed.

Lemma no_space_strip s : no_space s = true -> strip s = s.
Proof.
  intros Hs. unfold strip, rstrip. rewrite (no_space_lstrip s Hs).
  rewrite no_space_lstrip by (by apply no_space_rev). apply rev_involutive.
Qed.

Lemma upper_app s t : upper (s +:+ t) = upper s +:+ upper t.
Proof.
  unfold upper. induction s as [|c s IH]; simpl; [done|]. by rewrite IH.
Qed.

Lemma split_once_digits s t :
  all_digits s = true ->
  split_once "-" (s +:+ String "-" t) = Some (s, t).
Proof.
  induction s as [|c s IH]; [done|]. intros [Hc Hs]%all_digits_cons.
  simpl. destruct (digit_char c Hc) as (_ & _ & -> & _). by rewrite IH.
Qed.

Lemma range_text_plain da db :
  all_digits da = true -> all_digits db = true ->
  upper (strip (range_text da db)) = range_text da db
  /\ split_once "-" (range_text da db) = Some (String "P" da, String "P" db)
  /\ strip (String "P" da) = String "P" da
  /\ strip (String "P" db) = String "P" db.
Proof.
  intros Ha Hb.
  assert (forall d, all_digits d = true -> no_space (String "P" d) = true) as HP.
  { intros d Hd. simpl. by apply all_digits_no_space. }
  split_and!.
  - rewrite no_space_strip.
    + unfold range_text.
      change (String "P" (da +:+ String "-" (String "P" db)))
        with ("P" +:+ (da +:+ ("-P" +:+ db))).
      rewrite !upper_app, (all_digits_upper da Ha), (all_digits_upper db Hb).
      reflexivity.
    + unfold range_text. simpl. apply no_space_app; [by apply all_digits_no_space|].
      simpl. by apply all_digits_no_space.
  - unfold range_text. simpl. by rewrite split_once_digits.
  - apply no_space_strip. by apply HP.
  - apply no_space_strip. by apply HP.
Qed.
End RangeFacts.

Lemma parse_period_token_strip (token : string) :
  _parse_period_token (PyStr.strip token) = _parse_period_token token.
Proof. unfold _parse_period_token. by rewrite strip_idemp. Qed.

Lemma zrange_empty (s e : Z) : e < s -> zrange s e = [].
Proof. intros H. unfold zrange. by replace (Z.to_nat (e + 1 - s)) with 0%nat by lia. Qed.

(** A constraint whose range reads backwards for the solvers is dropped by
    both. *)
Lemma reversed_range_dropped (idx : CourseIndex) (P : Z) (lunch_idx : option Z)
    (g : Grid) (c : Constraint) (s e : Z) :
  _parse_period_token (Greedy.cons_pr c) = (s, e) -> e < s ->
  Greedy.place_constraint idx P lunch_idx g c = g
  /\ CpModel.cons_rule idx P lunch_idx c = None.
Proof.
  intros Hparse Hlt. split.
  - unfold Greedy.place_constraint.
    destruct (negb _ || negb _); [done|].
    destruct (negb (bool_decide _)); [done|].
    assert (Greedy.cons_indices P lunch_idx c = []) as ->; [|done].
    unfold Greedy.cons_indices. rewrite Hparse. unfold period_indices.
    rewrite zrange_empty; [done|].
    destruct (Z.ltb_spec s 0), (Z.leb_spec P e); lia.
  - unfold CpModel.cons_rule.
    destruct (negb (PyStr.nonempty (cons_course_name c))); [done|].
    destruct (negb _ || negb _); [done|].
    destruct (CpModel.cons_didx c); [|done].
    unfold CpModel.cons_range, CpModel.cons_pr.
    rewrite parse_period_token_strip.
    unfold Greedy.cons_pr in Hparse. rewrite Hparse.
    destruct (Z.ltb_spec (Z.min (P - 1) e) (Z.max 0 s)); [done|lia].
Qed.

Lemma range_text_tokens (da db : string) (va vb : Z) :
  all_digits da = true -> all_digits db = true ->
  PyStr.int da = Some va -> PyStr.int db = Some vb ->
  _parse_period_token (range_text da db) = (va - 1, vb - 1)
  /\ Dashboard._parse_period_range (range_text da db)
     = (if vb <? va then zrange vb va else zrange va vb).
Proof.
  intros Ha Hb Hva Hvb.
  destruct (range_text_plain da db Ha Hb) as (Hup & Hsplit & Hsa & Hsb).
  split.
  - unfold _parse_period_token. rewrite Hup, Hsplit. simpl.
    by rewrite !all_digits_remove, Hva, Hvb by done.
  - unfold Dashboard._parse_period_range. rewrite Hup, Hsplit, Hsa, Hsb. simpl.
    by rewrite !all_digits_lstrip_char, Hva, Hvb by done.
Qed.

(** X22. A range written "P<a>-P<b>" (decimal digits) is read by the
    solvers as the 0-based indices a-1 .. b-1 and by the validator as the
    1-based periods between a and b in ascending order; for a <= b the
    validator's periods are the solvers' indices plus one. *)
Theorem X22_range_text_read_alike (da db : string) (va vb : Z) :
  all_digits da = true -> all_digits db = true ->
  PyStr.int da = Some va -> PyStr.int db = Some vb ->
  let pr := range_text da db in
  _parse_period_token pr = (va - 1, vb - 1)
  /\ Dashboard._parse_period_range pr
     = (if vb <? va then zrange vb va else zrange va vb)
  /\ (va <= vb ->
      Dashboard._parse_period_range pr
      = (fun i => i + 1) <$> zrange (va - 1) (vb - 1)).
Proof.
  intros Ha Hb Hva Hvb pr.
  destruct (range_text_tokens da db va vb Ha Hb Hva Hvb) as [Htok Hrange].
  split_and!; [done|done|]. intros Hle. subst pr. rewrite Hrange.
  destruct (Z.ltb_spec vb va); [lia|]. unfold zrange.
  rewrite <- list_fmap_compose.
  replace (Z.to_nat (vb - 1 + 1 - (va - 1))) with (Z.to_nat (vb + 1 - va)) by lia.
  apply list_fmap_ext. intros i k _. simpl. lia.
Qed.

Lemma X22_witness :
  _parse_period_token (range_text "2" "4") = (1, 3)
  /\ Dashboard._parse_period_range (range_text "2" "4") = [2; 3; 4].
Proof.
  destruct (X22_range_text_read_alike "2" "4" 2 4 eq_refl eq_refl eq_refl eq_refl)
    as (H1 & H2 & _).
  split; [exact H1|exact H2].
Defined.

(** X23. A constraint whose range is written backwards, "P<a>-P<b>" with
    a > b, is dropped by both solvers (the greedy solver places nothing for
    it, the exact-solver model gets no rule for it), while the validator
    reads the same text as the periods b .. a and checks them. *)
Theorem X23_backward_range_checked_not_placed (idx : CourseIndex) (P : Z)
    (lunch_idx : option Z) (g : Grid) (c : Constraint)
    (da db : string) (va vb : Z) :
  all_digits da = true -> all_digits db = true ->
  PyStr.int da = Some va -> PyStr.int db = Some vb ->
  cons_period_range c = range_text da db -> vb < va ->
  Greedy.place_constraint idx P lunch_idx g c = g
  /\ CpModel.cons_rule idx P lunch_idx c = None
  /\ Dashboard._parse_period_range (Dashboard.v_pr c) = zrange vb va
  /\ va ∈ Dashboard._parse_period_range (Dashboard.v_pr c).
Proof.
  intros Ha Hb Hva Hvb Hpr Hlt.
  destruct (range_text_tokens da db va vb Ha Hb Hva Hvb) as [Htok Hrange].
  assert (Hcons : Greedy.cons_pr c = range_text da db).
  { unfold Greedy.cons_pr. by rewrite Hpr. }
  assert (Hv : Dashboard._parse_period_range (Dashboard.v_pr c) = zrange vb va).
  { unfold Dashboard.v_pr. rewrite Hpr.
    unfold Dashboard._parse_period_range. rewrite strip_idemp.
    fold (Dashboard._parse_period_range (range_text da db)). rewrite Hrange.
    destruct (Z.ltb_spec vb va); [done|lia]. }
  destruct (reversed_range_dropped idx P lunch_idx g c (va - 1) (vb - 1))
    as [Hg Hr]; [by rewrite Hcons|lia|].
  split_and!; [done|done|done|]. rewrite Hv. apply elem_of_zrange. lia.
Qed.

Lemma X23_witness :
  let c := mkCons "Math" "Monday" (range_text "3" "1") "Hard" in
  let idx := index_courses courses_ex in
  Greedy.place_constraint idx 4 None (empty_grid 4) c = empty_grid 4
  /\ CpModel.cons_rule idx 4 None c = None
  /\ Dashboard._parse_period_range (Dashboard.v_pr c) = [1; 2; 3].
Proof.
  intros c idx.
  destruct (X23_backward_range_checked_not_placed idx 4 None (empty_grid 4) c
              "3" "1" 3 1 eq_refl eq_refl eq_refl eq_refl eq_refl)
    as (H1 & H2 & H3 & _); [lia|].
  split_and!; [exact H1|exact H2|exact H3].
Defined.

(** ** Empty texts in the containment tests *)

Lemma contains_empty (s : string) : PyStr.contains "" s = true.
Proof. by destruct s. Qed.

(** X24. A non-empty cell whose course part (the text before " - ") is
    blank matches the course text of every constraint: the validator finds
    a constraint satisfied as soon as one of its periods holds such a cell
    in range. *)
Theorem X24_blank_subject_matches_anything (cell : string) (row : list string)
    (periods : list Z) (p : Z) :
  PyStr.nonempty cell = true ->
  _normalize_text (PyStr.strip (PyStr.before " - " cell)) = "" ->
  p ∈ periods -> Dashboard.cell_at row p = Some cell ->
  forall target,
    Dashboard.cell_matches target cell = true
    /\ Dashboard.found_in row periods target = true.
Proof.
  intros Hne Hblank Hp Hcell target.
  assert (Hm : Dashboard.cell_matches target cell = true).
  { unfold Dashboard.cell_matches. rewrite Hne, Hblank. simpl.
    rewrite contains_empty. by rewrite !orb_true_r. }
  split; [done|]. apply found_in_spec. by exists p, cell.
Qed.

Lemma X24_witness :
  Dashboard.cell_matches "math" " - Mr X" = true
  /\ Dashboard.found_in ["English"; " - Mr X"] [1; 2] "math" = true.
Proof.
  apply (X24_blank_subject_matches_anything " - Mr X" ["English"; " - Mr X"]
           [1; 2] 2); [reflexivity|reflexivity|compute_done|reflexivity].
Defined.

(** X25. When no course matches a constraint exactly, a course without a
    code (or without a name) that passes the section filter is among the
    matcher's answers for every constraint whose course text has a token:
    the token rule tests [code in tk], which holds for the empty code. *)
Theorem X25_course_without_code_matches_any (cons : Constraint)
    (dict : list (Z * Course)) (cid : Z) (c : Course) :
  (cid, c) ∈ dict ->
  Matcher.code c = "" \/ Matcher.name c = "" ->
  Matcher.section_ok cons c = true ->
  Matcher.target_tokens cons ≠ [] ->
  Matcher.tier1 cons dict = [] ->
  cid ∈ _match_constraint_to_cids cons dict.
Proof.
  intros Hin Hempty Hsec Htok H1.
  assert (Htarget : PyStr.nonempty (Matcher.target cons) = true).
  { destruct (Matcher.target cons) eqn:E; [|done]. exfalso. apply Htok.
    unfold Matcher.target_tokens. by rewrite E. }
  assert (Hmatch : Matcher.token_match cons c = true).
  { unfold Matcher.token_match.
    destruct (Matcher.target_tokens cons) as [|tk tks] eqn:E; [done|].
    assert (PyStr.nonempty tk = true) as Htk.
    { apply (target_tokens_nonempty cons). rewrite E. left. }
    simpl. rewrite Htk. simpl.
    destruct Hempty as [->| ->]; rewrite contains_empty;
      by rewrite ?orb_true_r. }
  assert (H2 : cid ∈ Matcher.tier2 cons dict).
  { unfold Matcher.tier2. apply elem_of_select. exists c. split; [done|].
    by rewrite Hsec, Hmatch. }
  unfold _match_constraint_to_cids. rewrite Htarget, H1. simpl.
  case_bool_decide as Hnil; simpl; [|done].
  rewrite Hnil in H2. by apply elem_of_nil in H2.
Qed.

Lemma X25_witness :
  let cons := mkCons "Physics" "Monday" "P1" "Hard" in
  let dict := cid_to_course (index_courses courses_ex) in
  Matcher.tier1 cons dict = []
  /\ 1 ∈ _match_constraint_to_cids cons dict
  /\ 2 ∈ _match_constraint_to_cids cons dict.
Proof.
  intros cons dict.
  assert (H1 : Matcher.tier1 cons dict = []) by reflexivity.
  split_and!; [exact H1| |].
  - apply (X25_course_without_code_matches_any cons dict 1
             (mkCourse 1 "Math" 2 "A"));
      [vm_compute; left|by left|reflexivity|by vm_compute|exact H1].
  - apply (X25_course_without_code_matches_any cons dict 2
             (mkCourse 2 "English" 1 "A"));
      [vm_compute; right; left|by left|reflexivity|by vm_compute|exact H1].
Defined.

(** ** Resolving the course text of a constraint *)

Lemma prefix_refl (s : string) : String.prefix s s = true.
Proof.
  induction s as [|c s IH]; [done|]. simpl.
  destruct (ascii_dec c c); [done|congruence].
Qed.

Lemma contains_refl (s : string) : PyStr.contains s s = true.
Proof.
  destruct s as [|a s]; [done|].
  change (String.prefix (String a s) (String a s)
          || PyStr.contains (String a s) s = true).
  by rewrite prefix_refl.
Qed.

(** X26. [_resolve_constraint_course_name] answers the label stored under
    a key that contains the normalized course text or is contained in it
    (under the text itself when it is a key), and it answers nothing only
    for an empty course text or when no key is related to the text: its
    third step, the search among keys with digits, never finds a label the
    second step has not found. *)
Theorem X26_resolve_course_name (constraint : Constraint)
    (course_label_map : list (string * string)) :
  let norm := _normalize_text (PyStr.strip (cons_course_name constraint)) in
  let r := Admin._resolve_constraint_course_name constraint course_label_map in
  (forall v, r = Some v ->
     exists k, (k, v) ∈ course_label_map /\ Admin.related norm k = true)
  /\ (r = None <->
      PyStr.strip (cons_course_name constraint) = ""
      \/ forall k v, (k, v) ∈ course_label_map -> Admin.related norm k = false).
Proof.
  intros norm r. subst r. unfold Admin._resolve_constraint_course_name. fold norm.
  destruct (PyStr.strip (cons_course_name constraint)) as [|a cname] eqn:Hc.
  { simpl. split; [done|]. split; [by left|done]. }
  change (negb (PyStr.nonempty (String a cname))) with false. cbv iota.
  destruct (dict_get course_label_map norm) as [v0|] eqn:Hget.
  { split.
    - intros v [= <-]. exists norm. split; [by apply dict_get_Some_in|].
      unfold Admin.related. by rewrite contains_refl.
    - split; [done|]. intros [?|Hno]; [done|].
      apply dict_get_Some_in in Hget. specialize (Hno _ _ Hget).
      unfold Admin.related in Hno. by rewrite contains_refl in Hno. }
  destruct (find _ course_label_map) as [[k v0]|] eqn:Hfind.
  { apply find_some in Hfind as [Hin Hrel]. apply list_elem_of_In in Hin. split.
    - intros v [= <-]. by exists k.
    - split; [done|]. intros [?|Hno]; [done|].
      specialize (Hno _ _ Hin). simpl in Hrel. congruence. }
  assert (Hnone : forall k v, (k, v) ∈ course_label_map ->
                              Admin.related norm k = false).
  { intros k v Hin%list_elem_of_In. by apply (find_none _ _ Hfind (k, v)). }
  assert (find (fun kv : string * string =>
                  Admin.has_digit kv.1 && Admin.related norm kv.1)
               course_label_map = None) as Hthird.
  { apply eq_None_not_Some. intros [[k v] E].
    apply find_some in E as [Hin Hrel]. apply list_elem_of_In in Hin.
    apply andb_true_iff in Hrel as [_ Hrel]. simpl in Hrel.
    by rewrite (Hnone k v Hin) in Hrel. }
  rewrite Hthird.
  assert ((if Admin.has_digit norm then None else None) = (None : option string))
    as -> by (by destruct (Admin.has_digit norm)).
  split; [done|]. split; [by right|done].
Qed.

(** ** The service's request *)

(** X27. [generate_for_teacher] answers what [run_solver] answers for the
    request whose course list is, in this order: the teacher's courses,
    then (when admin courses are included) the admin courses whose id is
    not the id of a teacher's course, each as often as listed and in their
    own order (admin courses without id are all kept), then the synthetic
    courses with the ids
    -1, -2, ...; the grid has the five weekdays, [periods] cells a row and
    "LUNCH" in the lunch column, whichever solver produced it. *)
Theorem X27_service_request_and_grid {Seconds : Type} (avail : bool)
    (cp_solve : Seconds -> CpModel.Model -> option CpModel.Assignment)
    (draw : nat -> nat) (teacher_courses admin_courses : list Course)
    (constraints : list Constraint) (periods lunch : Z) (time_limit : Seconds)
    (include_admin : bool) :
  let g :=
    TimetableService.generate_for_teacher avail cp_solve draw teacher_courses
      admin_courses constraints periods lunch time_limit include_admin in
  shape periods g
  /\ (forall l d, lunch_idx_of periods lunch = Some l -> d ∈ DAYS ->
        grid_get g d (Z.to_nat l) = Some LUNCH)
  /\ exists kept extra,
       g = run_solver avail cp_solve draw
             {| pl_courses := teacher_courses ++ kept ++ extra;
                pl_constraints := constraints; pl_periods := periods;
                pl_lunch := lunch; pl_time_limit := time_limit |}
       /\ kept = (if include_admin
                  then filter (fun c => is_kept teacher_courses c = true)
                         admin_courses
                  else [])
       /\ kept `sublist_of` admin_courses
       /\ (forall c, c ∈ kept <->
             include_admin = true /\ c ∈ admin_courses
             /\ forall c', c' ∈ teacher_courses -> id c = None \/ id c' ≠ id c)
       /\ id <$> extra
          = (fun k => Some (-1 - Z.of_nat k)) <$> seq 0 (length extra)
       /\ (length extra <= length constraints)%nat.
Proof.
  intros g. split_and!.
  - apply run_solver_shape.
  - intros l d Hl Hd. by apply run_solver_lunch.
  - set (kept := if include_admin
                 then filter (fun c => id c ∉ Some <$> omap id teacher_courses)
                        admin_courses
                 else []).
    assert (Hbase : (if include_admin
                     then TimetableService.merge_admin_courses teacher_courses
                            admin_courses
                     else teacher_courses) = teacher_courses ++ kept).
    { subst kept. destruct include_admin; [done|by rewrite app_nil_r]. }
    destruct (synthetic_fold_from (fun cname _ => cname)
                TimetableService.synthetic_credits constraints
                (synthetic_start (fun c => course_label c)
                   (teacher_courses ++ kept)))
      as (extra & Hc & _ & Hid & Hlen).
    exists kept, extra. split_and!.
    + subst g. unfold TimetableService.generate_for_teacher.
      rewrite Hbase. unfold TimetableService.payload_courses.
      unfold add_synthetic. rewrite Hc. simpl. by rewrite <- app_assoc.
    + subst kept. destruct include_admin; [|done].
      apply list_filter_iff. intros c. unfold is_kept.
      destruct (id c) as [i|] eqn:Hi.
      * rewrite negb_true_iff, <- not_true_iff_false, existsb_exists.
        apply not_iff_compat. rewrite list_elem_of_fmap. split.
        -- intros (i' & [= <-] & (c' & Hin & Hid')%list_elem_of_omap).
           exists c'. split; [by apply list_elem_of_In|].
           rewrite Hid'. by apply Z.eqb_eq.
        -- intros (c' & Hin%list_elem_of_In & Hc'). exists i. split; [done|].
           apply list_elem_of_omap. exists c'. split; [done|].
           destruct (id c') as [j|]; [|done]. apply Z.eqb_eq in Hc'. by subst.
      * split; [done|]. intros _ (i & Hi' & _)%list_elem_of_fmap. done.
    + subst kept. destruct include_admin; [apply sublist_filter|apply sublist_nil_l].
    + intros c. subst kept. destruct include_admin.
      * rewrite list_elem_of_filter. split.
        -- intros [Hnot Hc']. split_and!; [done..|]. intros c' Hin.
           destruct (id c) as [i|] eqn:Hi; [|by left]. right.
           intros Hid'. apply Hnot. apply list_elem_of_fmap. exists i.
           split; [done|]. apply list_elem_of_omap. by exists c'.
        -- intros (_ & Hc' & Hall). split; [|done].
           intros (i & Hi & Hin)%list_elem_of_fmap.
           apply list_elem_of_omap in Hin as (c' & Hin & Hid').
           destruct (Hall c' Hin) as [Hnone|Hne]; congruence.
      * split; [by intros ?%elem_of_nil|by intros [? _]].
    + exact Hid.
    + exact Hlen.
Qed.
